(** * Wayne County auction tracker: parallel scraping and bid tracking

    A shallow embedding of the scraping worker ([worker-scraper.js]), of the
    range partition of [ParallelAuctionScraper.scrapeRange], of the
    [BidTracker] class and of [UpdateScheduler.getUpdatePriority], followed by
    the properties of these functions.

    Conventions.
    - JavaScript numbers are IEEE doubles; here a finite number is the
      rational it denotes ([Q]), compared with [Qeq].  Rounding is not
      modelled, so statements hold away from the representation error of
      doubles; [NaN] and the infinities are kept as separate values because
      the code relies on their truthiness and comparison rules.
    - Instants ([Date] values, ISO timestamps) are integer milliseconds ([Z]).
    - A DOM text that may be [null], or an object field that may be missing,
      is an [option]. *)

From Stdlib Require Import ZArith QArith Qround Lia Lqa Ascii String.
From stdpp Require Import gmap strings list pretty sorting.

Open Scope Z_scope.

(** ** JavaScript values used by the code *)

Module JS.

(** A number: [NaN], [Infinity]/[-Infinity], or a finite value. *)
Inductive number :=
| NaN
| Infinity (negative : bool)
| Num (q : Q).

(** Truthiness of a number: [NaN] and zero are falsy. *)
Definition truthy (x : number) : bool :=
  match x with
  | NaN => false
  | Infinity _ => true
  | Num q => negb (Qeq_bool q 0)
  end.

(** [x || 0] on numbers. *)
Definition orZero (x : number) : number :=
  if truthy x then x else Num 0.

(** [x >= k] for a finite constant [k]; every comparison with [NaN] is false. *)
Definition geq (x : number) (k : Q) : bool :=
  match x with
  | NaN => false
  | Infinity negative => negb negative
  | Num q => Qle_bool k q
  end.

(** "The same number", up to the representation of rationals. *)
Definition number_eq (x y : number) : Prop :=
  match x, y with
  | NaN, NaN => True
  | Infinity a, Infinity b => a = b
  | Num p, Num q => p == q
  | _, _ => False
  end.

(** A numeric field that may be missing: [None] is [undefined]. *)
Definition truthyOpt (x : option Q) : bool :=
  match x with
  | Some q => negb (Qeq_bool q 0)
  | None => false
  end.

(** [a || b] on such fields. *)
Definition orElse (a b : option Q) : option Q :=
  if truthyOpt a then a else b.

(** [a !== b]: both missing, or both numbers of different value. *)
Definition strictNeq (a b : option Q) : bool :=
  match a, b with
  | Some p, Some q => negb (Qeq_bool p q)
  | None, None => false
  | _, _ => true
  end.

(** [a - b]: arithmetic on [undefined] gives [NaN]. *)
Definition sub (a b : option Q) : number :=
  match a, b with
  | Some p, Some q => Num (p - q)
  | _, _ => NaN
  end.

(** [a > 0]; false for [undefined]. *)
Definition positive (a : option Q) : bool :=
  match a with
  | Some q => negb (Qle_bool q 0)
  | None => false
  end.

(** [((a - b) / b) * 100], used only under the guard [b > 0]. *)
Definition percentOf (a b : option Q) : number :=
  match a, b with
  | Some p, Some q => Num (((p - q) / q) * 100)
  | _, _ => NaN
  end.

(** A value that is [null], a string or a boolean (what [a && b !== c]
    evaluates to over DOM texts). *)
Inductive value :=
| Null
| Str (s : string)
| Bool (b : bool).

Definition truthyValue (v : value) : bool :=
  match v with
  | Null => false
  | Str s => negb (String.eqb s "")
  | Bool b => b
  end.

(** [a && b]: the left operand when it is falsy, else the right one. *)
Definition andAlso (a b : value) : value :=
  if truthyValue a then b else a.

Definition ofText (t : option string) : value :=
  match t with
  | Some s => Str s
  | None => Null
  end.

(** [t !== lit] for a DOM text [t] and a string literal. *)
Definition textNeq (t : option string) (lit : string) : value :=
  match t with
  | Some s => Bool (negb (String.eqb s lit))
  | None => Bool true
  end.

(** Truthiness of a DOM text: [null] and the empty string are falsy. *)
Definition truthyText (t : option string) : bool :=
  match t with
  | Some s => negb (String.eqb s "")
  | None => false
  end.

(** *** Strings *)

Definition isDigit (c : ascii) : bool :=
  let n := N_of_ascii c in (48 <=? n)%N && (n <=? 57)%N.

Definition digitValue (c : ascii) : Z := Z.of_N (N_of_ascii c) - 48.

(** White space skipped by [parseFloat] (the ASCII part of it). *)
Definition isWhiteSpace (c : ascii) : bool :=
  let n := N_of_ascii c in
  (n =? 32)%N || ((9 <=? n)%N && (n <=? 13)%N).

Fixpoint skipWhiteSpace (s : string) : string :=
  match s with
  | String c rest => if isWhiteSpace c then skipWhiteSpace rest else s
  | EmptyString => s
  end.

(** Reads a run of decimal digits: the value of [acc] followed by the run,
    the number of digits read, and the rest of the input. *)
Fixpoint digits (s : string) (acc : Z) (count : nat) : Z * nat * string :=
  match s with
  | String c rest =>
      if isDigit c then digits rest (10 * acc + digitValue c) (S count)
      else (acc, count, s)
  | EmptyString => (acc, count, s)
  end.

(** The exponent part [e[+-]digits], when the input starts with a complete
    one; otherwise the exponent is 0 and nothing is read. *)
Definition exponent (s : string) : Z :=
  match s with
  | String c rest =>
      if (Ascii.eqb c "e" || Ascii.eqb c "E")%bool then
        match rest with
        | String "-" rest' =>
            let '(e, n, _) := digits rest' 0 0%nat in
            if (0 <? n)%nat then - e else 0
        | String "+" rest' =>
            let '(e, n, _) := digits rest' 0 0%nat in
            if (0 <? n)%nat then e else 0
        | _ =>
            let '(e, n, _) := digits rest 0 0%nat in
            if (0 <? n)%nat then e else 0
        end
      else 0
  | EmptyString => 0
  end.

Definition scale (e : Z) : Q :=
  if 0 <=? e then inject_Z (10 ^ e) else 1 # Z.to_pos (10 ^ (- e)).

(** An unsigned decimal literal at the start of [s]: digits with an optional
    fraction, or a fraction alone, and an optional exponent.  [None] when [s]
    does not start with one. *)
Definition unsignedLiteral (s : string) : option Q :=
  let '(ip, n1, rest1) := digits s 0 0%nat in
  let '(m, n2, rest2) :=
    match rest1 with
    | String "." frac => digits frac ip 0%nat
    | _ => (ip, 0%nat, rest1)
    end in
  if ((n1 + n2)%nat =? 0)%nat then None
  else Some ((m # Z.to_pos (10 ^ Z.of_nat n2)) * scale (exponent rest2))%Q.

Definition startsWith (p s : string) : bool := String.prefix p s.

Definition unsignedFloat (s : string) : number :=
  if startsWith "Infinity" s then Infinity false
  else match unsignedLiteral s with
       | Some q => Num q
       | None => NaN
       end.

Definition negate (x : number) : number :=
  match x with
  | NaN => NaN
  | Infinity b => Infinity (negb b)
  | Num q => Num (- q)
  end.

(** [parseFloat(s)]: the longest prefix of the trimmed input that is a
    decimal literal; [NaN] when there is none. *)
Definition parseFloat (s : string) : number :=
  match skipWhiteSpace s with
  | String "-" rest => negate (unsignedFloat rest)
  | String "+" rest => unsignedFloat rest
  | t => unsignedFloat t
  end.

(** [s.replace(/[$,]/g, '')]. *)
Fixpoint stripCurrency (s : string) : string :=
  match s with
  | String c rest =>
      if (Ascii.eqb c "$" || Ascii.eqb c ",")%bool then stripCurrency rest
      else String c (stripCurrency rest)
  | EmptyString => EmptyString
  end.

Definition lowerChar (c : ascii) : ascii :=
  let n := N_of_ascii c in
  if ((65 <=? n)%N && (n <=? 90)%N)%bool then ascii_of_N (n + 32) else c.

(** [s.toLowerCase()] (ASCII letters). *)
Fixpoint toLowerCase (s : string) : string :=
  match s with
  | String c rest => String (lowerChar c) (toLowerCase rest)
  | EmptyString => EmptyString
  end.

(** [s.includes(p)]. *)
Fixpoint includes (s p : string) : bool :=
  startsWith p s ||
  match s with
  | String _ rest => includes rest p
  | EmptyString => false
  end.

(** A call that returns a value, or raises a [TypeError] on reading a field
    of [undefined]. *)
Inductive result (A : Type) :=
| Value (a : A)
| TypeError.
Arguments Value {A} a.
Arguments TypeError {A}.

(** The names of the members every plain object inherits from
    [Object.prototype]: [obj[key]] finds such a member (a function, or the
    prototype itself for [__proto__]) when [obj] has no entry of its own
    under [key]. *)
Definition inherited (key : string) : bool :=
  existsb (String.eqb key)
    ["constructor"; "hasOwnProperty"; "isPrototypeOf"; "propertyIsEnumerable";
     "toLocaleString"; "toString"; "valueOf"; "__proto__";
     "__defineGetter__"; "__defineSetter__"; "__lookupGetter__"; "__lookupSetter__"].

End JS.

(** ** The scraping worker ([runWorker]) *)

Module Worker.
Import JS.

(** What [page.evaluate] returns: the text of each element, [null] when the
    element is missing. *)
Record pageData := PageData {
  parcelId : option string;
  address : option string;
  city : option string;
  zip : option string;
  legalDescription : option string;
  sevValue : option string;
  auctionId : option string;
  status : option string;
  biddingCloses : option string;
  currentBid : option string;
  minimumBid : option string;
  summerTax : option string;
  winterTax : option string;
  scrapedAt : string
}.

(** The record posted as a result: the page data, with [auctionId] set to the
    requested id, and the derived fields. *)
Record listing := Listing {
  fields : pageData;
  minimumBidNumeric : number;
  currentBidNumeric : number;
  sevValueNumeric : number;
  hasBids : value
}.

(** Messages posted to the parent thread. *)
Inductive message :=
| Status (text : string)
| Progress (current total : Z)
| Result (data : listing)
| Error (error : string)
| Complete (workerId : Z).

(** What the site does for one id: a step of the page load raises (with
    [error.message]), the "property not found" text is on the page, or the
    page data is read. *)
Inductive pageOutcome :=
| Throws (msg : string)
| NotFound
| Loaded (d : pageData).

Record workerData := WorkerData {
  workerId : Z;
  startId : Z;
  endId : Z
}.

(** [parseFloat((text || '').replace(/[$,]/g, '')) || 0] *)
Definition parseAmount (text : option string) : number :=
  orZero (parseFloat (stripCurrency (if truthyText text then default "" text else ""))).

(** [status && (status.toLowerCase().includes('removed') ||
                status === 'Removed from Auction')] *)
Definition isRemoved (st : option string) : bool :=
  match st with
  | Some s =>
      negb (String.eqb s "") &&
      (includes (toLowerCase s) "removed" || String.eqb s "Removed from Auction")
  | None => false
  end.

(** [currentBid && currentBid !== '' && currentBid !== '$0.00'] *)
Definition deriveHasBids (bid : option string) : value :=
  andAlso (andAlso (ofText bid) (textNeq bid "")) (textNeq bid "$0.00").

Definition setAuctionId (d : pageData) (id : string) : pageData :=
  PageData (parcelId d) (address d) (city d) (zip d) (legalDescription d)
    (sevValue d) (Some id) (status d) (biddingCloses d) (currentBid d)
    (minimumBid d) (summerTax d) (winterTax d) (scrapedAt d).

(** The "Parse numeric values" block. *)
Definition normalize (id : Z) (d : pageData) : listing :=
  Listing (setAuctionId d (pretty id))
    (parseAmount (minimumBid d))
    (parseAmount (currentBid d))
    (parseAmount (sevValue d))
    (deriveHasBids (currentBid d)).

(** One iteration of the loop over ids: the messages it posts.  (The pause
    after every tenth id posts nothing.) *)
Definition scrapeOne (site : Z -> pageOutcome) (total id : Z) : list message :=
  match site id with
  | Throws msg =>
      [Error ("Failed to scrape " +:+ pretty id +:+ ": " +:+ msg);
       Progress id total]
  | NotFound => [Progress id total]
  | Loaded d =>
      if negb (truthyText (auctionId d)) && negb (truthyText (address d)) then
        [Progress id total]
      else if isRemoved (status d) then
        [Progress id total]
      else
        [Result (normalize id d); Progress id total]
  end.

(** [for (let id = startId; id <= endId; id++)], with [n] ids left. *)
Fixpoint scrapeFrom (site : Z -> pageOutcome) (total id : Z) (n : nat) : list message :=
  match n with
  | O => []
  | S n' => scrapeOne site total id ++ scrapeFrom site total (id + 1) n'
  end.

(** The messages of a worker whose browser started: the status line, the
    loop, and the completion message. *)
Definition runWorker (wd : workerData) (site : Z -> pageOutcome) : list message :=
  let total := endId wd - startId wd + 1 in
  Status ("Worker " +:+ pretty (workerId wd) +:+ " started: " +:+
          pretty (startId wd) +:+ " to " +:+ pretty (endId wd))
  :: scrapeFrom site total (startId wd) (Z.to_nat total)
  ++ [Complete (workerId wd)].

(** The ids of the progress messages, the results and the errors of a run. *)
Definition progressOf (m : message) : option (Z * Z) :=
  match m with Progress c t => Some (c, t) | _ => None end.

Definition resultOf (m : message) : option listing :=
  match m with Result d => Some d | _ => None end.

Definition errorOf (m : message) : option string :=
  match m with Error e => Some e | _ => None end.

Definition progressEvents (ms : list message) : list (Z * Z) := omap progressOf ms.
Definition results (ms : list message) : list listing := omap resultOf ms.
Definition errors (ms : list message) : list string := omap errorOf ms.

End Worker.

(** ** The range partition of [scrapeRange] *)

Module Coordinator.

(** One launched worker: its index and its range of ids. *)
Record job := Job {
  workerId : Z;
  startId : Z;
  endId : Z
}.

(** [Math.ceil((endId - startId + 1) / workerCount)] *)
Definition rangePerWorker (startId endId workerCount : Z) : Z :=
  Qceiling (inject_Z (endId - startId + 1) / inject_Z workerCount).

(** The launch loop, from index [i] with [n] indices left; it stops at the
    first worker whose range would start past [endId]. *)
Fixpoint launchFrom (startId endId rangePerWorker i : Z) (n : nat) : list job :=
  match n with
  | O => []
  | S n' =>
      let workerStart := startId + i * rangePerWorker in
      let workerEnd := Z.min (workerStart + rangePerWorker - 1) endId in
      if endId <? workerStart then []
      else Job i workerStart workerEnd
           :: launchFrom startId endId rangePerWorker (i + 1) n'
  end.

Definition partition (startId endId workerCount : Z) : list job :=
  launchFrom startId endId (rangePerWorker startId endId workerCount) 0
    (Z.to_nat workerCount).

Definition covers (j : job) (id : Z) : bool :=
  (startId j <=? id) && (id <=? endId j).

(** [tiles a js e]: the ranges of [js] are non-empty, the first starts at
    [a], each next one starts right after the one before, and the last ends
    at [e]. *)
Fixpoint tiles (a : Z) (js : list job) (e : Z) : Prop :=
  match js with
  | [] => a = e + 1
  | j :: rest => startId j = a /\ a <= endId j /\ tiles (endId j + 1) rest e
  end.

End Coordinator.

(** ** The update scheduler's urgency classes *)

Module Scheduler.

Inductive priority := expired | immediate | urgent | regular | standard.

(** [this.intervals], in milliseconds. *)
Definition interval (p : priority) : option Z :=
  match p with
  | expired => None
  | immediate => Some (1 * 60 * 1000)
  | urgent => Some (5 * 60 * 1000)
  | regular => Some (10 * 60 * 1000)
  | standard => Some (60 * 60 * 1000)
  end.

(** [(closing - now) / (1000 * 60 * 60)]; [None] is [NaN], the value for a
    closing time that [new Date] cannot read. *)
Definition hoursUntilClosing (now : Z) (closing : option Z) : option Q :=
  match closing with
  | Some c => Some (inject_Z (c - now) / inject_Z (1000 * 60 * 60))%Q
  | None => None
  end.

(** [h <= k]; false for [NaN]. *)
Definition atMost (h : option Q) (k : Q) : bool :=
  match h with
  | Some q => Qle_bool q k
  | None => false
  end.

Definition getUpdatePriority (now : Z) (closing : option Z) : priority * option Z :=
  let h := hoursUntilClosing now closing in
  if atMost h 0 then (expired, interval expired)
  else if atMost h 1 then (immediate, interval immediate)
  else if atMost h 3 then (urgent, interval urgent)
  else if atMost h 6 then (regular, interval regular)
  else (standard, interval standard).

End Scheduler.

(** ** The bid tracker ([BidTracker]) *)

Module BidTracker.
Import JS.

(** A listing as the tracker reads it from [properties.json] (the fields the
    tracker uses).  [hasBids] is the truthiness of the stored value. *)
Record property := Property {
  auctionId : string;
  address : option string;
  city : option string;
  biddingCloses : option string;
  currentBidNumeric : option Q;
  minimumBidNumeric : option Q;
  hasBids : bool;
  status : option string
}.

(** One entry of [history]; [change] and [changePercent] are present only on
    a snapshot that differs from the one before it. *)
Record snapshot := Snapshot {
  timestamp : Z;
  currentBid : option Q;
  snapshotHasBids : bool;
  minimumBid : option Q;
  snapshotStatus : option string;
  change : option number;
  changePercent : option number
}.

(** [metrics]; [lastChangeHours] is [null] or a number, and
    [totalIncreasePercent] is missing until [updateMetrics] first sets it. *)
Record metricsRecord := Metrics {
  totalChanges : Z;
  bidVelocity : Q;
  lastChangeHours : option Q;
  totalIncrease : number;
  totalIncreasePercent : option number;
  firstBid : option Q;
  competitionScore : Z
}.

Record propertyHistory := PropertyHistory {
  historyAuctionId : string;
  historyAddress : option string;
  historyCity : option string;
  history : list snapshot;
  metrics : metricsRecord
}.

(** The tracker object: [this.bidHistory] and [this.currentProperties]. *)
Record tracker := Tracker {
  bidHistory : gmap string propertyHistory;
  currentProperties : list property
}.

(** The value [recordSnapshot] returns. *)
Record snapshotResult := SnapshotResult {
  resultTimestamp : Z;
  totalTracked : Z;
  newChanges : Z
}.

(** The state of [new BidTracker()]. *)
Definition newTracker : tracker := Tracker ∅ [].

(** The filter of [loadCurrentProperties]:
    [p.biddingCloses && p.biddingCloses !== 'N/A']. *)
Definition isIndividual (p : property) : bool :=
  truthyValue (andAlso (ofText (biddingCloses p)) (textNeq (biddingCloses p) "N/A")).

(** [loadCurrentProperties]; [None] is a file that cannot be read or parsed. *)
Definition loadCurrentProperties (file : option (list property)) (t : tracker) : tracker :=
  match file with
  | Some allProperties => Tracker (bidHistory t) (filter (fun p => isIndividual p = true) allProperties)
  | None => Tracker (bidHistory t) []
  end.

(** [history[i].currentBid !== history[i - 1].currentBid] *)
Definition differs (s prev : snapshot) : bool :=
  strictNeq (currentBid s) (currentBid prev).

(** The loop that counts the changes after [prev]. *)
Fixpoint countAfter (prev : snapshot) (rest : list snapshot) : Z :=
  match rest with
  | [] => 0
  | s :: rest' => (if differs s prev then 1 else 0) + countAfter s rest'
  end.

Definition countChanges (h : list snapshot) : Z :=
  match h with
  | [] => 0
  | s :: rest => countAfter s rest
  end.

Definition differsAt (h : list snapshot) (i : nat) : bool :=
  match h !! i, h !! (i - 1)%nat with
  | Some s, Some prev => differs s prev
  | _, _ => false
  end.

(** [for (let i = ...; i > 0; i--)]: the first index, going down from [i],
    whose snapshot differs from the one before it. *)
Fixpoint searchChange (h : list snapshot) (i : nat) : option nat :=
  match i with
  | O => None
  | S j => if differsAt h i then Some i else searchChange h j
  end.

(** [lastChangeIndex] after the loop: it starts at [history.length - 1]. *)
Definition lastChangeIndex (h : list snapshot) : nat :=
  default (length h - 1)%nat (searchChange h (length h - 1)%nat).

Definition msPerDay : Z := 1000 * 60 * 60 * 24.
Definition msPerHour : Z := 1000 * 60 * 60.

Definition geqOpt (x : option number) (k : Q) : bool :=
  match x with
  | Some n => geq n k
  | None => false
  end.

(** [history[i].changePercent || 0] *)
Definition changePercentOrZero (s : snapshot) : number :=
  match changePercent s with
  | Some n => orZero n
  | None => Num 0
  end.

Definition calculateCompetitionScore (ph : propertyHistory) : Z :=
  let m := metrics ph in
  let changesPoints :=
    if 10 <=? totalChanges m then 30
    else if 5 <=? totalChanges m then 20
    else if 3 <=? totalChanges m then 10
    else if 1 <=? totalChanges m then 5
    else 0 in
  let velocityPoints :=
    if Qle_bool 5 (bidVelocity m) then 25
    else if Qle_bool 2 (bidVelocity m) then 20
    else if Qle_bool 1 (bidVelocity m) then 15
    else if Qle_bool 0.5 (bidVelocity m) then 10
    else 0 in
  let recencyPoints :=
    match lastChangeHours m with
    | Some hours =>
        if Qle_bool hours 1 then 20
        else if Qle_bool hours 6 then 15
        else if Qle_bool hours 24 then 10
        else if Qle_bool hours 48 then 5
        else 0
    | None => 0
    end in
  let increasePoints :=
    if geqOpt (totalIncreasePercent m) 50 then 15
    else if geqOpt (totalIncreasePercent m) 25 then 10
    else if geqOpt (totalIncreasePercent m) 10 then 5
    else 0 in
  let hasSpike := existsb (fun s => geq (changePercentOrZero s) 20) (tail (history ph)) in
  let spikePoints := if hasSpike then 10 else 0 in
  Z.min (changesPoints + velocityPoints + recencyPoints + increasePoints + spikePoints) 100.

Definition updateMetrics (now : Z) (ph : propertyHistory) : propertyHistory :=
  let h := history ph in
  let m := metrics ph in
  match h with
  | first :: _ :: _ =>
      let latest := default first (last h) in
      let changes := countChanges h in
      let daysDiff := (inject_Z (timestamp latest - timestamp first) / inject_Z msPerDay)%Q in
      let velocity := if negb (Qle_bool daysDiff 0) then (inject_Z changes / daysDiff)%Q else 0%Q in
      let index := lastChangeIndex h in
      let hours :=
        if (0 <? index)%nat then
          match h !! index with
          | Some s => Some (inject_Z (now - timestamp s) / inject_Z msPerHour)%Q
          | None => lastChangeHours m
          end
        else lastChangeHours m in
      let increase := sub (currentBid latest) (currentBid first) in
      let increasePercent :=
        if positive (currentBid first) then percentOf (currentBid latest) (currentBid first)
        else Num 0 in
      let updated score :=
        PropertyHistory (historyAuctionId ph) (historyAddress ph) (historyCity ph) h
          (Metrics changes velocity hours increase (Some increasePercent) (firstBid m) score) in
      updated (calculateCompetitionScore (updated (competitionScore m)))
  | _ => ph
  end.

(** [property.currentBidNumeric || property.minimumBidNumeric] *)
Definition effectiveBid (p : property) : option Q :=
  orElse (currentBidNumeric p) (minimumBidNumeric p).

(** The history created for a listing seen for the first time. *)
Definition initialHistory (p : property) : propertyHistory :=
  PropertyHistory (auctionId p) (address p) (city p) []
    (Metrics 0 0 None (Num 0) None (effectiveBid p) 0).

(** The snapshot pushed on the history for [p]. *)
Definition makeSnapshot (stamp : Z) (p : property) (lastSnapshot : option snapshot) : snapshot * bool :=
  let bid := effectiveBid p in
  let hasChanged :=
    match lastSnapshot with
    | Some l => strictNeq (currentBid l) bid
    | None => true
    end in
  let base := Snapshot stamp bid (hasBids p) (minimumBidNumeric p) (status p) in
  match lastSnapshot with
  | Some l =>
      if hasChanged then
        (base (Some (sub bid (currentBid l)))
              (Some (if positive (currentBid l) then percentOf bid (currentBid l) else Num 0)),
         hasChanged)
      else (base None None, hasChanged)
  | None => (base None None, hasChanged)
  end.

(** The entry of [bidHistory] for [p] after the loop body, given the entry
    before it. *)
Definition recordEntry (stamp now : Z) (p : property) (entry : option propertyHistory) : propertyHistory * bool :=
  let ph := default (initialHistory p) entry in
  let '(s, hasChanged) := makeSnapshot stamp p (last (history ph)) in
  (updateMetrics now
     (PropertyHistory (historyAuctionId ph) (historyAddress ph) (historyCity ph)
        (history ph ++ [s]) (metrics ph)),
   hasChanged).

(** [this.bidHistory[auctionId]] gives an inherited member: no history is
    stored under the id, and the id is the name of a member every object
    inherits. *)
Definition inheritedMember (histories : gmap string propertyHistory) (id : string) : bool :=
  match histories !! id with
  | Some _ => false
  | None => inherited id
  end.

(** The body of the loop over the listings: the history object is updated in
    place, and the two counters advance.  When the lookup of the id gives an
    inherited member, that member is truthy, so no history is created, and
    it has no [history] field: [propertyHistory.history.length] raises. *)
Definition recordProperty (stamp now : Z) (p : property)
    (acc : gmap string propertyHistory * Z * Z)
    : result (gmap string propertyHistory * Z * Z) :=
  let '(histories, changed, tracked) := acc in
  if inheritedMember histories (auctionId p) then TypeError
  else
    let '(ph, hasChanged) := recordEntry stamp now p (histories !! auctionId p) in
    Value (<[auctionId p := ph]> histories,
           if hasChanged then changed + 1 else changed,
           tracked + 1).

(** The loop; [clock i] is what [new Date()] reads in [updateMetrics] during
    iteration [i].  The result is the state the loop leaves and whether it
    ran to its end: an iteration that raises ends it, and what the earlier
    iterations stored stays. *)
Fixpoint recordAll (stamp : Z) (clock : nat -> Z) (i : nat) (props : list property)
    (acc : gmap string propertyHistory * Z * Z)
    : gmap string propertyHistory * Z * Z * bool :=
  match props with
  | [] => (acc, true)
  | p :: rest =>
      match recordProperty stamp (clock i) p acc with
      | Value acc' => recordAll stamp clock (S i) rest acc'
      | TypeError => (acc, false)
      end
  end.

(** [recordSnapshot(properties = null)], called at instant [stamp].  The
    result is [Value None] when the function returns without a value, and
    [TypeError] when the loop raised. *)
Definition recordSnapshot (stamp : Z) (clock : nat -> Z) (properties : option (list property))
    (t : tracker) : tracker * result (option snapshotResult) :=
  let props := default (currentProperties t) properties in
  match props with
  | [] => (t, Value None)
  | _ =>
      let '(histories, changed, tracked, completed) :=
        recordAll stamp clock 0 props (bidHistory t, 0, 0) in
      (Tracker histories (currentProperties t),
       if completed then Value (Some (SnapshotResult stamp tracked changed)) else TypeError)
  end.

(** No auction id of [props] is the name of an inherited member: every
    lookup finds a stored history or nothing. *)
Definition plainIds (props : list property) : Prop :=
  Forall (fun p => inherited (auctionId p) = false) props.

(** The metrics stored for an auction id, if any. *)
Definition metricsOf (t : tracker) (id : string) : option metricsRecord :=
  metrics <$> bidHistory t !! id.

(** Every stored history holds at least one snapshot, as in every state the
    tracker itself builds. *)
Definition wellFormed (t : tracker) : Prop :=
  forall id ph, bidHistory t !! id = Some ph -> history ph <> [].

(** Sequences of calls on one tracker. *)
Inductive operation :=
| LoadProperties (file : option (list property))
| RecordSnapshot (stamp : Z) (clock : nat -> Z) (properties : option (list property)).

Definition step (t : tracker) (op : operation) : tracker :=
  match op with
  | LoadProperties file => loadCurrentProperties file t
  | RecordSnapshot stamp clock properties => fst (recordSnapshot stamp clock properties t)
  end.

Definition run (ops : list operation) (t : tracker) : tracker := fold_left step ops t.

(** The listings each [recordSnapshot] of the sequence runs its loop on. *)
Fixpoint inputs (ops : list operation) (t : tracker) : list property :=
  match ops with
  | [] => []
  | op :: rest =>
      match op with
      | LoadProperties _ => []
      | RecordSnapshot _ _ properties => default (currentProperties t) properties
      end ++ inputs rest (step t op)
  end.

(** A call that passes no listing array, as every call in the repository. *)
Definition defaultArgument (op : operation) : bool :=
  match op with
  | LoadProperties _ => true
  | RecordSnapshot _ _ properties => match properties with None => true | Some _ => false end
  end.

End BidTracker.

(** ** What a worker posts for one id *)

Module WorkerView.
Import JS Worker.

(** The listing posted for [id], if one is: the page loaded, it shows an
    auction id or an address, and its status does not say "removed". *)
Definition listed (site : Z -> pageOutcome) (id : Z) : option listing :=
  match site id with
  | Loaded d =>
      if negb (truthyText (auctionId d)) && negb (truthyText (address d)) then None
      else if isRemoved (status d) then None
      else Some (normalize id d)
  | _ => None
  end.

End WorkerView.

(** ** The progress counters of [ParallelAuctionScraper] *)

Module Aggregation.
Import Coordinator.

(** One entry of [this.progress.workersProgress]. *)
Record workerProgress := WorkerProgress {
  current : Z;
  total : Z
}.

(** [this.progress]. *)
Record progress := ProgressState {
  progressTotal : Z;
  completed : Z;
  workersProgress : gmap Z workerProgress
}.

(** The value the constructor gives it. *)
Definition newProgress : progress := ProgressState 0 0 ∅.

(** The first two statements of [scrapeRange]. *)
Definition beginRange (startId endId : Z) (p : progress) : progress :=
  ProgressState (endId - startId + 1) 0 (workersProgress p).

(** [launchWorker]: the entry of the worker is created before any of its
    messages can arrive. *)
Definition register (p : progress) (j : job) : progress :=
  ProgressState (progressTotal p) (completed p)
    (<[workerId j := WorkerProgress 0 (endId j - startId j + 1)]> (workersProgress p)).

(** [Object.values(workersProgress).reduce((sum, w) => sum + w.current, 0)] *)
Definition sumCurrent (m : gmap Z workerProgress) : Z :=
  map_fold (fun _ w sum => sum + current w) 0 m.

(** The ['progress'] branch of the message handler of worker [j], for a
    message whose [current] is [msgCurrent].  The entry of the worker is
    there: [launchWorker] creates it before it installs the handler. *)
Definition onProgress (p : progress) (ev : job * Z) : progress :=
  let '(j, msgCurrent) := ev in
  let ws := alter (fun w => WorkerProgress (msgCurrent - startId j + 1) (total w))
              (workerId j) (workersProgress p) in
  ProgressState (progressTotal p) (sumCurrent ws) ws.

(** [scrapeRange] up to the launch of the workers, then the delivery of a
    sequence of progress messages, each tagged with the worker it is from. *)
Definition launched (startId endId workerCount : Z) (p : progress) : progress :=
  fold_left register (partition startId endId workerCount) (beginRange startId endId p).

Definition deliver (evs : list (job * Z)) (p : progress) : progress :=
  fold_left onProgress evs p.

(** The last [current] that worker [j] reported in [evs]. *)
Definition lastReport (j : job) (evs : list (job * Z)) : option Z :=
  last (omap (fun ev : job * Z => if decide (workerId ev.1 = workerId j) then Some ev.2 else None) evs).

(** The ids worker [j] has accounted for, by its last report. *)
Definition reported (j : job) (evs : list (job * Z)) : Z :=
  match lastReport j evs with
  | Some c => c - startId j + 1
  | None => 0
  end.

Definition sumOver {A} (f : A -> Z) (l : list A) : Z := foldr Z.add 0 (f <$> l).

End Aggregation.

(** ** Sorting as [Array.prototype.sort] does *)

Module Sorting.

(** [sort] is stable: elements the comparator does not order keep their
    relative position.  [before y x] says that the comparator puts [y]
    strictly before [x]; inserting the elements from the last to the first,
    each in front of the first element that is not strictly before it, gives
    the stable order. *)
Fixpoint insertBy {A} (before : A -> A -> bool) (x : A) (l : list A) : list A :=
  match l with
  | [] => [x]
  | y :: rest => if before y x then y :: insertBy before x rest else x :: l
  end.

Definition sortBy {A} (before : A -> A -> bool) (l : list A) : list A :=
  foldr (insertBy before) [] l.

(** [notAfter before a b]: the comparator does not put [b] strictly before
    [a], so [a] may stand before [b] in a sorted array. *)
Definition notAfter {A} (before : A -> A -> bool) (a b : A) : Prop := before b a = false.

(** [l.slice(-n)] *)
Definition lastN {A} (n : nat) (l : list A) : list A := drop (length l - n) l.

End Sorting.

(** ** The queries of [BidTracker] *)

Module Queries.
Import JS BidTracker Sorting.

(** [Math.round]: the nearest integer, halves upwards. *)
Definition round (x : number) : number :=
  match x with
  | Num q => Num (inject_Z (Qfloor (q + (1 # 2))))
  | other => other
  end.

(** [x * k] for a finite [k]. *)
Definition times (x : number) (k : Q) : number :=
  match x with
  | NaN => NaN
  | Infinity negative =>
      if Qeq_bool k 0 then NaN
      else Infinity (if Qle_bool k 0 then negb negative else negative)
  | Num q => Num (q * k)
  end.

(** [b + x] for a bid [b] that may be [undefined]. *)
Definition plus (b : option Q) (x : number) : number :=
  match b, x with
  | Some p, Num q => Num (p + q)
  | Some _, Infinity negative => Infinity negative
  | _, _ => NaN
  end.

(** The number a bid that may be [undefined] converts to. *)
Definition ofBid (b : option Q) : number :=
  match b with
  | Some q => Num q
  | None => NaN
  end.

(** [x > 0] for a field that may be missing. *)
Definition positiveOpt (x : option number) : bool :=
  match x with
  | Some (Num q) => negb (Qle_bool q 0)
  | Some (Infinity negative) => negb negative
  | _ => false
  end.

(** [x.toFixed(0)] for a number that is at least 50 (and below 10^21, where
    the notation changes): the nearest integer, the larger one at a tie. *)
Definition toFixed0 (x : number) : string :=
  match x with
  | NaN => "NaN"
  | Infinity negative => if negative then "-Infinity" else "Infinity"
  | Num q => pretty (Qfloor (q + (1 # 2)))
  end.

Record prediction := Prediction {
  isAccelerating : bool;
  estimatedFinalPrice : number;
  confidenceLevel : string;
  riskOfBiddingWar : bool
}.

(** [s.change] as a condition. *)
Definition hasChange (s : snapshot) : bool :=
  match change s with
  | Some n => truthy n
  | None => false
  end.

Definition predictFutureActivity (ph : propertyHistory) : result prediction :=
  let m := metrics ph in
  let recent := lastN 5 (history ph) in
  let accelerating :=
    if (3 <=? length recent)%nat
    then (2 <=? length (filter (fun s => hasChange s = true) (tail recent)))%nat
    else false in
  match last (history ph) with
  | None => TypeError
  | Some latest =>
      let estimatedFinal :=
        if negb (Qle_bool (bidVelocity m) 0) && positiveOpt (totalIncreasePercent m) then
          let avgIncreasePerDay :=
            times (times (totalIncrease m)
                     (/ inject_Z (Z.max 1 (Z.of_nat (length (history ph)) - 1))))
                  (bidVelocity m) in
          plus (currentBid latest) (times avgIncreasePerDay 3)
        else ofBid (currentBid latest) in
      Value (Prediction accelerating (round estimatedFinal)
               (if 5 <=? totalChanges m then "HIGH"
                else if 2 <=? totalChanges m then "MEDIUM" else "LOW")
               (60 <=? competitionScore m))
  end.

(** [h && h <= k] and [h && h > k] for [lastChangeHours]. *)
Definition withinHours (h : option Q) (k : Q) : bool :=
  match h with
  | Some q => negb (Qeq_bool q 0) && Qle_bool q k
  | None => false
  end.

Definition beyondHours (h : option Q) (k : Q) : bool :=
  match h with
  | Some q => negb (Qeq_bool q 0) && negb (Qle_bool q k)
  | None => false
  end.

Definition generateInsights (ph : propertyHistory) : list string :=
  let m := metrics ph in
  (if 70 <=? competitionScore m then ["⚠️ Very high competition - multiple active bidders"]
   else if 50 <=? competitionScore m then ["⚠️ High competition - expect bidding activity"]
   else [])
  ++ (if Qle_bool 3 (bidVelocity m) then ["🔥 Rapid bidding - price increasing quickly"]
      else if Qle_bool 1 (bidVelocity m) then ["📈 Steady bidding activity"]
      else if totalChanges m =? 0 then ["✅ No competition yet - potential opportunity"]
      else [])
  ++ (if withinHours (lastChangeHours m) 1 then ["🔴 Just bid on! Very recent activity"]
      else if withinHours (lastChangeHours m) 6 then ["🟡 Recent activity in last 6 hours"]
      else if beyondHours (lastChangeHours m) 48 then ["🟢 No recent activity for 2+ days"]
      else [])
  ++ (if geqOpt (totalIncreasePercent m) 50
      then ["💰 Price up " +:+ toFixed0 (default NaN (totalIncreasePercent m)) +:+ "% from start"]
      else []).

Definition levelOf (score : Z) : string :=
  if 70 <=? score then "VERY HIGH"
  else if 50 <=? score then "HIGH"
  else if 30 <=? score then "MEDIUM"
  else if 10 <=? score then "LOW"
  else "MINIMAL".

Record competition := Competition {
  compAuctionId : string;
  compAddress : option string;
  compScore : Z;
  level : string;
  compMetrics : metricsRecord;
  recentHistory : list snapshot;
  compPrediction : prediction;
  compInsights : list string
}.

(** [getPropertyCompetition]; [Value None] is the [null] returned for an id
    without history.  For an id without history that names an inherited
    member, [this.bidHistory[auctionId]] is that member: it passes
    [if (!history)], and [history.history.slice] raises. *)
Definition getPropertyCompetition (id : string) (t : tracker) : result (option competition) :=
  match bidHistory t !! id with
  | None => if inherited id then TypeError else Value None
  | Some ph =>
      match predictFutureActivity ph with
      | TypeError => TypeError
      | Value p =>
          Value (Some (Competition id (historyAddress ph) (competitionScore (metrics ph))
                         (levelOf (competitionScore (metrics ph))) (metrics ph)
                         (lastN 10 (history ph)) p (generateInsights ph)))
      end
  end.

Record hotProperty := HotProperty {
  hotAuctionId : string;
  hotAddress : option string;
  hotCity : option string;
  hotScore : Z;
  hotChanges : Z;
  hotLastChangeHours : option Q;
  hotCurrentBid : option Q;
  hotIncrease : number;
  hotInsights : list string
}.

Record quietProperty := QuietProperty {
  quietAuctionId : string;
  quietAddress : option string;
  quietCity : option string;
  quietCurrentBid : option Q
}.

(** [competitionScore + (lastChangeHours ? 100 / lastChangeHours : 0)] *)
Definition activity (ph : propertyHistory) : Q :=
  inject_Z (competitionScore (metrics ph)) +
  match lastChangeHours (metrics ph) with
  | Some h => if Qeq_bool h 0 then 0 else 100 / h
  | None => 0
  end.

(** The comparator [(a, b) => scoreB - scoreA] puts [a] strictly before [b]
    when it is negative. *)
Definition hotter (a b : propertyHistory) : bool := negb (Qle_bool (activity a) (activity b)).

(** [l.map(f)] for an [f] that may raise. *)
Fixpoint mapResult {A B} (f : A -> result B) (l : list A) : result (list B) :=
  match l with
  | [] => Value []
  | x :: rest =>
      match f x with
      | TypeError => TypeError
      | Value y =>
          match mapResult f rest with
          | TypeError => TypeError
          | Value ys => Value (y :: ys)
          end
      end
  end.

Definition hotView (ph : propertyHistory) : result hotProperty :=
  match last (history ph) with
  | None => TypeError
  | Some latest =>
      Value (HotProperty (historyAuctionId ph) (historyAddress ph) (historyCity ph)
               (competitionScore (metrics ph)) (totalChanges (metrics ph))
               (lastChangeHours (metrics ph)) (currentBid latest)
               (totalIncrease (metrics ph)) (generateInsights ph))
  end.

Definition quietView (ph : propertyHistory) : result quietProperty :=
  match last (history ph) with
  | None => TypeError
  | Some latest =>
      Value (QuietProperty (historyAuctionId ph) (historyAddress ph) (historyCity ph)
               (currentBid latest))
  end.

Record summary := Summary {
  summaryTracked : Z;
  propertiesWithBidChanges : Z;
  highCompetitionProperties : Z;
  averageCompetitionScore : number
}.

Section Enumeration.

(** [Object.values]: the histories of the tracker, in the order the engine
    enumerates the keys. *)
Variable objectValues : gmap string propertyHistory -> list propertyHistory.

(** The histories [getHotProperties] selects, before they are mapped. *)
Definition hottest (limit : nat) (t : tracker) : list propertyHistory :=
  take limit
    (sortBy hotter
       (filter (fun ph => 0 < totalChanges (metrics ph)) (objectValues (bidHistory t)))).

Definition getHotProperties (limit : nat) (t : tracker) : result (list hotProperty) :=
  mapResult hotView (hottest limit t).


Definition getSummary (t : tracker) : summary :=
  let total := Z.of_nat (size (bidHistory t)) in
  let values := objectValues (bidHistory t) in
  Summary total
    (Z.of_nat (length (filter (fun ph => 0 < totalChanges (metrics ph)) values)))
    (Z.of_nat (length (filter (fun ph => 50 <= competitionScore (metrics ph)) values)))
    (if 0 <? total
     then round (Num (inject_Z (foldl (fun sum ph => sum + competitionScore (metrics ph)) 0 values)
                      / inject_Z total))
     else Num 0).

End Enumeration.

(** An enumeration of the values of a map, one per key. *)
Definition enumerates (objectValues : gmap string propertyHistory -> list propertyHistory) : Prop :=
  forall m, objectValues m ≡ₚ (map_to_list m).*2.

(** [cleanOldSnapshots] on a directory that holds [files]: the names left
    after the calls to [unlink]. *)
Definition isSnapshot (f : string) : bool := startsWith "snapshot-" f.

Definition toDelete (files : list string) : list string :=
  let snapshots := sortBy String.ltb (filter (fun f => isSnapshot f = true) files) in
  if (100 <? length snapshots)%nat then take (length snapshots - 100) snapshots else [].

Definition cleanOldSnapshots (files : list string) : list string :=
  filter (fun f => f ∉ toDelete files) files.

End Queries.

(** ** What the tracker maintains *)

Module Invariants.
Import JS BidTracker.

(** A history as [recordSnapshot] leaves it: it holds a snapshot; with a
    single snapshot its metrics are those it was created with, and with more
    they are those [updateMetrics] computed from it. *)
Definition maintained (ph : propertyHistory) : Prop :=
  history ph <> []
  /\ (length (history ph) = 1%nat ->
      metrics ph = Metrics 0 0 None (Num 0) None (firstBid (metrics ph)) 0)
  /\ ((2 <= length (history ph))%nat -> exists now ph0, ph = updateMetrics now ph0).

(** Every stored history is maintained. *)
Definition allMaintained (t : tracker) : Prop :=
  forall id ph, bidHistory t !! id = Some ph -> maintained ph.

(** [extends ph ph']: [ph'] is [ph] with snapshots added at the end; the
    identity fields and the seed bid are those of [ph]. *)
Definition extends (ph ph' : propertyHistory) : Prop :=
  history ph `prefix_of` history ph'
  /\ firstBid (metrics ph') = firstBid (metrics ph)
  /\ historyAuctionId ph' = historyAuctionId ph
  /\ historyAddress ph' = historyAddress ph
  /\ historyCity ph' = historyCity ph.

End Invariants.


(** ** Scheduling ([UpdateScheduler.scheduleUpdates], [scheduleJob]) *)

Module Scheduling.
Import Scheduler.

(** The [biddingCloses] field of an entry of [properties.json]: absent, [null]
    or a string. *)
Inductive closes := Missing | Null | Text (s : string).

(** The keys of [priorityGroups] and of [this.intervals]. *)
Definition name (c : priority) : string :=
  match c with
  | expired => "expired"
  | immediate => "immediate"
  | urgent => "urgent"
  | regular => "regular"
  | standard => "standard"
  end.

Record priorityGroups (A : Type) := PriorityGroups {
  immediateGroup : list A;
  urgentGroup : list A;
  regularGroup : list A;
  standardGroup : list A;
  expiredGroup : list A
}.
Arguments PriorityGroups {A}.
Arguments immediateGroup {A}.
Arguments urgentGroup {A}.
Arguments regularGroup {A}.
Arguments standardGroup {A}.
Arguments expiredGroup {A}.

Definition noGroups {A} : priorityGroups A := PriorityGroups [] [] [] [] [].

(** [priorityGroups[priority]] *)
Definition group {A} (c : priority) (g : priorityGroups A) : list A :=
  match c with
  | expired => expiredGroup g
  | immediate => immediateGroup g
  | urgent => urgentGroup g
  | regular => regularGroup g
  | standard => standardGroup g
  end.

(** [priorityGroups[priority].push(property)] *)
Definition push {A} (c : priority) (p : A) (g : priorityGroups A) : priorityGroups A :=
  match c with
  | expired =>
      PriorityGroups (immediateGroup g) (urgentGroup g) (regularGroup g) (standardGroup g)
        (expiredGroup g ++ [p])
  | immediate =>
      PriorityGroups (immediateGroup g ++ [p]) (urgentGroup g) (regularGroup g) (standardGroup g)
        (expiredGroup g)
  | urgent =>
      PriorityGroups (immediateGroup g) (urgentGroup g ++ [p]) (regularGroup g) (standardGroup g)
        (expiredGroup g)
  | regular =>
      PriorityGroups (immediateGroup g) (urgentGroup g) (regularGroup g ++ [p]) (standardGroup g)
        (expiredGroup g)
  | standard =>
      PriorityGroups (immediateGroup g) (urgentGroup g) (regularGroup g) (standardGroup g ++ [p])
        (expiredGroup g)
  end.

(** A scheduled job.  The timer handle is left out; [nextRun] is the value
    given when the job is created. *)
Record job := Job {
  jobId : string;
  jobInterval : Z;
  jobType : string;
  nextRun : Z
}.

(** [this.activeJobs], a [Map]: the entries in insertion order. *)
Definition jobs := list (string * job).

Definition mapHas (k : string) (m : jobs) : bool :=
  existsb (fun e => String.eqb e.1 k) m.

Fixpoint mapGet (k : string) (m : jobs) : option job :=
  match m with
  | [] => None
  | (k', v) :: rest => if String.eqb k' k then Some v else mapGet k rest
  end.

(** [Map.prototype.set]: the value of an existing key is replaced where it
    stands, a new key goes to the end. *)
Fixpoint mapSet (k : string) (v : job) (m : jobs) : jobs :=
  match m with
  | [] => [(k, v)]
  | (k', v') :: rest => if String.eqb k' k then (k, v) :: rest else (k', v') :: mapSet k v rest
  end.

(** [scheduleJob(jobId, interval)], called when [Date.now()] reads [now]. *)
Definition scheduleJob (id : string) (interval now : Z) (m : jobs) : jobs :=
  mapSet id
    (Job id interval
       (if String.eqb id "immediate" || String.eqb id "urgent" then "quick" else "full")
       (now + interval))
    m.

(** [Object.entries(this.intervals)] *)
Definition intervalEntries : list (priority * Z) :=
  [(immediate, 1 * 60 * 1000); (urgent, 5 * 60 * 1000);
   (regular, 10 * 60 * 1000); (standard, 60 * 60 * 1000)].

Section Listings.

(** The entries of [properties.json] and their [biddingCloses] field. *)
Variable A : Type.
Variable biddingCloses : A -> closes.

(** How the engine reads a date string; [None] for one it cannot read. *)
Variable parse : string -> option Z.

(** [new Date(closingTime)]: [undefined] gives an invalid date, [null] the
    epoch. *)
Definition newDate (c : closes) : option Z :=
  match c with
  | Missing => None
  | Null => Some 0
  | Text s => parse s
  end.

(** The class [getUpdatePriority(property.biddingCloses)] gives at [now]. *)
Definition classOf (now : Z) (p : A) : priority :=
  (getUpdatePriority now (newDate (biddingCloses p))).1.

(** The [forEach] that fills the groups; [clock i] is what [new Date()] reads
    for the entry of index [i]. *)
Fixpoint groupFrom (clock : nat -> Z) (i : nat) (props : list A) (g : priorityGroups A)
    : priorityGroups A :=
  match props with
  | [] => g
  | p :: rest => groupFrom clock (S i) rest (push (classOf (clock i) p) p g)
  end.

(** The body of the loop over the intervals; [jobClock c] is what
    [Date.now()] reads if the job of class [c] is created. *)
Definition consider (g : priorityGroups A) (jobClock : priority -> Z) (m : jobs)
    (e : priority * Z) : jobs :=
  let '(c, interval) := e in
  if (0 <? length (group c g))%nat && negb (mapHas (name c) m)
  then scheduleJob (name c) interval (jobClock c) m
  else m.

(** [scheduleUpdates] on a readable [properties.json] that holds [props]. *)
Definition scheduleUpdates (clock : nat -> Z) (jobClock : priority -> Z) (props : list A)
    (m : jobs) : priorityGroups A * jobs :=
  let g := groupFrom clock 0 props noGroups in
  (g, fold_left (consider g jobClock) intervalEntries m).

End Listings.

Definition sameClass (a b : priority) : bool :=
  match a, b with
  | expired, expired | immediate, immediate | urgent, urgent
  | regular, regular | standard, standard => true
  | _, _ => false
  end.

(** The entries of [props] whose class is [c], in the order of the file. *)
Fixpoint selected {A} (biddingCloses : A -> closes) (parse : string -> option Z)
    (c : priority) (clock : nat -> Z) (i : nat) (props : list A) : list A :=
  match props with
  | [] => []
  | p :: rest =>
      (if sameClass (classOf A biddingCloses parse (clock i) p) c then [p] else [])
      ++ selected biddingCloses parse c clock (S i) rest
  end.

End Scheduling.

(** ** The update cycles ([performQuickUpdate], [performFullUpdate])

    The steps of other components (the scraper process, the analytics, the
    removal of old snapshot files) enter as their outcomes; the writes of
    the tracker and of the scheduler to the data directory are taken to
    succeed. *)

Module Cycles.
Import JS BidTracker Sorting Queries.

(** An awaited step of another component: it resolves, or rejects with an
    error that carries [message]. *)
Inductive outcome := Done | Failed (message : string).

(** What the [catch] of a cycle stores: the message of a rejection, or a
    [TypeError] raised by reading a field of [undefined]. *)
Inductive failure := Rejected (message : string) | TypeErrorRaised.

(** The value of [updateBidTracking]. *)
Record bidUpdate := BidUpdate {
  updateSnapshot : snapshotResult;
  hotProperties : list hotProperty;
  updateSummary : summary
}.

(** One entry of [updateHistory]; [bids] is [changes.bids]. *)
Record updateResult := UpdateResult {
  updateTimestamp : Z;
  updateType : string;
  success : bool;
  duration : Z;
  bids : option bidUpdate;
  error : option failure
}.

(** The scheduler: its tracker, [lastFullUpdate] and [updateHistory]. *)
Record scheduler := Scheduler {
  bidTracker : tracker;
  activeJobs : Scheduling.jobs;
  lastFullUpdate : option Z;
  updateHistory : list updateResult
}.

(** What the clock reads during one cycle: at its start, for [timestamp],
    in [recordSnapshot] (the stamp, then once per listing), for
    [lastFullUpdate], and at its end. *)
Record instants := Instants {
  startTime : Z;
  stampTime : Z;
  snapshotTime : Z;
  metricsTime : nat -> Z;
  completionTime : Z;
  endTime : Z
}.

(** [Math.round((Date.now() - startTime) / 1000)] *)
Definition seconds (ms : Z) : Z := Qfloor (inject_Z ms / 1000 + (1 # 2)).

(** The message of the rejection of [scrapeAuctionData] for an exit code
    other than 0; [None] is the [null] code of a killed process. *)
Definition scraperMessage (code : option Z) : string :=
  "Scraper exited with code " +:+
  match code with
  | Some c => pretty c
  | None => "null"
  end.

(** [scrapeAuctionData], for a scraper that exits with [code]. *)
Definition scrapeAuctionData (code : option Z) : outcome :=
  match code with
  | Some 0 => Done
  | _ => Failed (scraperMessage code)
  end.

Section Tracking.

Variable objectValues : gmap string propertyHistory -> list propertyHistory.

(** [updateBidTracking]: the snapshot is recorded, then the two queries run,
    then [snapshot.totalTracked] is read for the log. *)
Definition updateBidTracking (stamp : Z) (clock : nat -> Z) (t : tracker)
    : tracker * result bidUpdate :=
  match recordSnapshot stamp clock None t with
  | (t', TypeError) => (t', TypeError)
  | (t', Value snapshot) =>
      match getHotProperties objectValues 10 t' with
      | TypeError => (t', TypeError)
      | Value hot =>
          let s := getSummary objectValues t' in
          match snapshot with
          | None => (t', TypeError)
          | Some res => (t', Value (BidUpdate res hot s))
          end
      end
  end.

(** The end of a cycle: the duration is set and the result is pushed on the
    history. *)
Definition conclude (at_ : instants) (kind : string) (t : tracker) (full : option Z)
    (ok : bool) (b : option bidUpdate) (e : option failure) (sch : scheduler)
    : scheduler * updateResult :=
  let r := UpdateResult (stampTime at_) kind ok (seconds (endTime at_ - startTime at_)) b e in
  (Scheduler t (activeJobs sch) full (updateHistory sch ++ [r]), r).

Definition performQuickUpdate (at_ : instants) (code : option Z) (sch : scheduler)
    : scheduler * updateResult :=
  match scrapeAuctionData code with
  | Failed m =>
      conclude at_ "quick" (bidTracker sch) (lastFullUpdate sch) false None (Some (Rejected m)) sch
  | Done =>
      match updateBidTracking (snapshotTime at_) (metricsTime at_) (bidTracker sch) with
      | (t, TypeError) =>
          conclude at_ "quick" t (lastFullUpdate sch) false None (Some TypeErrorRaised) sch
      | (t, Value b) =>
          conclude at_ "quick" t (lastFullUpdate sch) true (Some b) None sch
      end
  end.

(** [analytics] and [cleaning] are the outcomes of [updateAnalytics] and of
    [cleanOldSnapshots]. *)
Definition performFullUpdate (at_ : instants) (code : option Z) (analytics cleaning : outcome)
    (sch : scheduler) : scheduler * updateResult :=
  match scrapeAuctionData code with
  | Failed m =>
      conclude at_ "full" (bidTracker sch) (lastFullUpdate sch) false None (Some (Rejected m)) sch
  | Done =>
      match updateBidTracking (snapshotTime at_) (metricsTime at_) (bidTracker sch) with
      | (t, TypeError) =>
          conclude at_ "full" t (lastFullUpdate sch) false None (Some TypeErrorRaised) sch
      | (t, Value b) =>
          match analytics with
          | Failed m =>
              conclude at_ "full" t (lastFullUpdate sch) false (Some b) (Some (Rejected m)) sch
          | Done =>
              match cleaning with
              | Failed m =>
                  conclude at_ "full" t (lastFullUpdate sch) false (Some b) (Some (Rejected m)) sch
              | Done =>
                  conclude at_ "full" t (Some (completionTime at_)) true (Some b) None sch
              end
          end
      end
  end.

(** The cycles a scheduler runs, one after the other. *)
Inductive cycle :=
| Quick (at_ : instants) (code : option Z)
| Full (at_ : instants) (code : option Z) (analytics cleaning : outcome).

Definition perform (sch : scheduler) (c : cycle) : scheduler * updateResult :=
  match c with
  | Quick at_ code => performQuickUpdate at_ code sch
  | Full at_ code analytics cleaning => performFullUpdate at_ code analytics cleaning sch
  end.

Fixpoint runCycles (cs : list cycle) (sch : scheduler) : scheduler * list updateResult :=
  match cs with
  | [] => (sch, [])
  | c :: rest =>
      let '(sch1, r) := perform sch c in
      let '(sch2, rs) := runCycles rest sch1 in
      (sch2, r :: rs)
  end.

End Tracking.

(** The type of a cycle and the exit code of its scraper. *)
Definition kindOf (c : cycle) : string :=
  match c with
  | Quick _ _ => "quick"
  | Full _ _ _ _ => "full"
  end.

Definition codeOf (c : cycle) : option Z :=
  match c with
  | Quick _ code => code
  | Full _ code _ _ => code
  end.

Definition timesOf (c : cycle) : instants :=
  match c with
  | Quick at_ _ => at_
  | Full at_ _ _ _ => at_
  end.

(** [getStatus().recentUpdates] and the [history] that [saveScheduleHistory]
    writes. *)
Definition recentUpdates (sch : scheduler) : list updateResult := lastN 10 (updateHistory sch).
Definition savedHistory (sch : scheduler) : list updateResult := lastN 100 (updateHistory sch).

(** The latest stored snapshot of every listing the tracker holds carries
    the bid of that listing. *)
Definition settled (t : tracker) : Prop :=
  forall p, p ∈ currentProperties t ->
    exists ph s, bidHistory t !! auctionId p = Some ph
                 /\ last (history ph) = Some s /\ currentBid s = effectiveBid p.

End Cycles.
(** ** Concrete inputs used by the examples below *)

Module Samples.

(** A detail page whose current-bid element shows [text]. *)
Definition pageWithBid (text : option string) : Worker.pageData :=
  Worker.PageData (Some "01001234.") (Some "123 MAIN ST") (Some "DETROIT") (Some "48201")
    (Some "LOT 12") (Some "$12,300.00") (Some "250900001") (Some "Open for bidding")
    (Some "9/12/2025 10:00:00 AM ET") text (Some "$1,234.56")
    (Some "$100.00") (Some "$50.00") "2025-09-01T12:00:00.000Z".

(** A site on which id 2 times out, id 3 is not found, id 4 was removed from
    the auction, and every other id is a listing without bids. *)
Definition site (id : Z) : Worker.pageOutcome :=
  if id =? 2 then Worker.Throws "Timeout 10000ms exceeded"
  else if id =? 3 then Worker.NotFound
  else if id =? 4 then
    Worker.Loaded (Worker.PageData None (Some "1 ELM ST") None None None None None
                     (Some "REMOVED FROM AUCTION") None None None None None "")
  else Worker.Loaded (pageWithBid (Some "NONE")).

Definition job : Worker.workerData := Worker.WorkerData 0 1 5.

(** A listing as stored in [properties.json]. *)
Definition stored (id : string) (bid minimum : option Q) (closes : option string) : BidTracker.property :=
  BidTracker.Property id (Some "123 MAIN ST") (Some "DETROIT") closes bid minimum
    (JS.truthyOpt bid) (Some "Open for bidding").

Definition closing : option string := Some "9/12/2025 10:00:00 AM ET".

(** A listing without bids: the current bid is 0 and the minimum bid 500. *)
Definition unbid : BidTracker.property := stored "250900001" (Some 0%Q) (Some 500%Q) closing.

(** The same listing with a bid of 100, then of 200. *)
Definition bid100 : BidTracker.property := stored "250900001" (Some 100%Q) (Some 50%Q) closing.
Definition bid200 : BidTracker.property := stored "250900001" (Some 200%Q) (Some 50%Q) closing.

(** A bundle: its closing time reads ["N/A"]. *)
Definition bundle : BidTracker.property := stored "250900500" (Some 0%Q) (Some 900%Q) (Some "N/A").

Definition day : Z := 86400000.

(** Three snapshot passes, one day apart: a bid of 100, then twice the same
    listing set with a bid of 200. *)
Definition afterFirst : BidTracker.tracker :=
  (BidTracker.recordSnapshot 0 (fun _ => 0) (Some [bid100]) BidTracker.newTracker).1.
Definition secondPass : BidTracker.tracker * JS.result (option BidTracker.snapshotResult) :=
  BidTracker.recordSnapshot day (fun _ => day) (Some [bid200]) afterFirst.
Definition thirdPass : BidTracker.tracker * JS.result (option BidTracker.snapshotResult) :=
  BidTracker.recordSnapshot (2 * day) (fun _ => 2 * day) (Some [bid200]) secondPass.1.

(** The same listing recorded twice with an unchanged bid, one hour apart;
    the clock reads one second after each pass starts. *)
Definition hour : Z := 3600000.
Definition quiet : BidTracker.tracker :=
  (BidTracker.recordSnapshot hour (fun _ => hour + 1000) (Some [bid100])
     (BidTracker.recordSnapshot 0 (fun _ => 1000) (Some [bid100]) BidTracker.newTracker).1).1.

(** Thirteen passes, four hours apart, over a listing whose bid rises from
    100 to 160 with a first jump to 125. *)
Definition rising : list Q :=
  [100; 125; 130; 135; 140; 145; 150; 152; 154; 156; 158; 159; 160]%Q.

Fixpoint recordBids (bids : list Q) (stamp : Z) (t : BidTracker.tracker) : BidTracker.tracker :=
  match bids with
  | [] => t
  | b :: rest =>
      recordBids rest (stamp + 4 * hour)
        (BidTracker.recordSnapshot stamp (fun _ => stamp)
           (Some [stored "250900001" (Some b) (Some 50%Q) closing]) t).1
  end.

Definition busy : BidTracker.propertyHistory :=
  default (BidTracker.initialHistory bid100)
    (BidTracker.bidHistory (recordBids rising 0 BidTracker.newTracker) !! "250900001").

(** A file with a bundle and an individual listing, loaded and recorded. *)
Definition calls : list BidTracker.operation :=
  [BidTracker.LoadProperties (Some [bundle; bid100]);
   BidTracker.RecordSnapshot 0 (fun _ => 0) None;
   BidTracker.LoadProperties None;
   BidTracker.RecordSnapshot hour (fun _ => hour) None].

End Samples.

(** ** More concrete inputs *)

Module Cases.

(** A page whose status reads [text]. *)
Definition pageWithStatus (text : string) : Worker.pageData :=
  Worker.PageData (Some "01001234.") (Some "123 MAIN ST") (Some "DETROIT") (Some "48201")
    None (Some "$12,300.00") (Some "250900001") (Some text)
    (Some "9/12/2025 10:00:00 AM ET") (Some "$450.00") (Some "$400.00")
    None None "2025-09-01T12:00:00.000Z".

(** Two workers over the ids 0..9, reporting in an interleaved order. *)
Definition firstJob : Coordinator.job := Coordinator.Job 0 0 4.
Definition secondJob : Coordinator.job := Coordinator.Job 1 5 9.
Definition reports : list (Coordinator.job * Z) :=
  [(firstJob, 0); (secondJob, 5); (secondJob, 6); (firstJob, 1); (firstJob, 2);
   (secondJob, 7); (firstJob, 3); (secondJob, 8); (secondJob, 9); (firstJob, 4)].

(** A snapshot directory: the history file and 102 snapshot files. *)
Definition directory : list string :=
  "bid-history.json"
  :: ((fun stamp => "snapshot-" +:+ pretty stamp +:+ ".json") <$> seqZ 1757400000000 102).

End Cases.


(** ** Inputs for the scheduler *)

Module Schedules.

(** A reader of dates that knows three closing times, two and five hours
    after the epoch and far later, and nothing else. *)
Definition parse (s : string) : option Z :=
  if String.eqb s "1/1/1970 2:00:00 AM" then Some (2 * Samples.hour)
  else if String.eqb s "1/1/1970 5:00:00 AM" then Some (5 * Samples.hour)
  else if String.eqb s "9/12/2025 10:00:00 AM ET" then Some 1757685600000
  else None.

(** The closing times of five entries of [properties.json]. *)
Definition file : list Scheduling.closes :=
  [Scheduling.Text "1/1/1970 5:00:00 AM"; Scheduling.Text "N/A"; Scheduling.Null;
   Scheduling.Text "1/1/1970 2:00:00 AM"; Scheduling.Missing].

(** The clock reads one hour after the epoch throughout. *)
Definition clock (i : nat) : Z := Samples.hour.
Definition jobClock (c : Scheduler.priority) : Z := Samples.hour.

(** A scheduler whose tracker has loaded one listing, and one whose tracker
    found no [properties.json]. *)
Definition loaded : Cycles.scheduler :=
  Cycles.Scheduler
    (BidTracker.loadCurrentProperties (Some [Samples.bid100]) BidTracker.newTracker) [] None [].

Definition fresh : Cycles.scheduler :=
  Cycles.Scheduler (BidTracker.loadCurrentProperties None BidTracker.newTracker) [] None [].

Definition at_ (start : Z) : Cycles.instants :=
  Cycles.Instants start start (start + 1000) (fun _ => start + 2000) (start + 3000) (start + 4000).

(** A full update whose scraper fails, then a quick and a full update that
    go through, then a full update whose analytics step fails. *)
Definition cycles : list Cycles.cycle :=
  [Cycles.Full (at_ 0) (Some 1) Cycles.Done Cycles.Done;
   Cycles.Quick (at_ Samples.hour) (Some 0);
   Cycles.Full (at_ (2 * Samples.hour)) (Some 0) Cycles.Done Cycles.Done;
   Cycles.Full (at_ (3 * Samples.hour)) (Some 0) (Cycles.Failed "ENOENT") Cycles.Done].

Definition values (m : gmap string BidTracker.propertyHistory) : list BidTracker.propertyHistory :=
  (map_to_list m).*2.

End Schedules.
(** * Properties *)

(** ** The worker *)

Module WorkerFacts.
Import JS Worker.

Lemma progress_scrapeOne site total id :
  progressEvents (scrapeOne site total id) = [(id, total)].
Proof.
  unfold scrapeOne.
  destruct (site id) as [msg| |d]; try reflexivity.
  destruct (negb (truthyText (auctionId d)) && negb (truthyText (address d))); [reflexivity|].
  destruct (isRemoved (status d)); reflexivity.
Qed.

Lemma progress_scrapeFrom site total n : forall id,
  progressEvents (scrapeFrom site total id n) = (fun i => (i, total)) <$> seqZ id (Z.of_nat n).
Proof.
  induction n as [|n IH]; intros id; [reflexivity|].
  cbn [scrapeFrom]. unfold progressEvents in *. rewrite omap_app.
  fold (progressEvents (scrapeOne site total id)). rewrite progress_scrapeOne.
  rewrite IH, Nat2Z.inj_succ, (seqZ_cons id) by lia.
  rewrite Z.pred_succ. reflexivity.
Qed.

Lemma seqZ_to_nat m n : seqZ m (Z.of_nat (Z.to_nat n)) = seqZ m n.
Proof. unfold seqZ. rewrite Nat2Z.id. reflexivity. Qed.

Lemma progress_runWorker wd site :
  progressEvents (runWorker wd site) =
  (fun i => (i, endId wd - startId wd + 1)) <$> seqZ (startId wd) (endId wd - startId wd + 1).
Proof.
  unfold runWorker, progressEvents. cbn [omap list_omap progressOf].
  rewrite omap_app. cbn [omap list_omap progressOf]. rewrite app_nil_r.
  apply (eq_trans (progress_scrapeFrom site _ _ _)).
  rewrite seqZ_to_nat. reflexivity.
Qed.

(** Among the pairs [(i, t)] for [i] running over a range, exactly one has
    first component [id] when [id] is in the range. *)
Lemma count_in_range (t id : Z) n : forall a,
  a <= id < a + Z.of_nat n ->
  length (filter (fun e : Z * Z => e.1 = id) ((fun i => (i, t)) <$> seqZ a (Z.of_nat n))) = 1%nat.
Proof.
  assert (Hnone : forall n a, id < a ->
            filter (fun e : Z * Z => e.1 = id) ((fun i => (i, t)) <$> seqZ a (Z.of_nat n)) = []).
  { clear. intros n. induction n as [|n IH]; intros a Ha; [reflexivity|].
    rewrite Nat2Z.inj_succ, (seqZ_cons a), Z.pred_succ by lia.
    rewrite fmap_cons, filter_cons_False by (cbn; lia). apply IH. lia. }
  induction n as [|n IH]; intros a Ha; [lia|].
  rewrite Nat2Z.inj_succ, (seqZ_cons a), Z.pred_succ by lia.
  rewrite fmap_cons.
  destruct (decide (a = id)) as [->|Hne].
  - rewrite filter_cons_True by reflexivity. cbn [length]. rewrite Hnone by lia. reflexivity.
  - rewrite filter_cons_False by (cbn; congruence). apply IH. lia.
Qed.

Lemma elem_of_scrapeFrom site total m n : forall a id,
  a <= id < a + Z.of_nat n ->
  m ∈ scrapeOne site total id -> m ∈ scrapeFrom site total a n.
Proof.
  induction n as [|n IH]; intros a id Hid Hm; [lia|].
  cbn [scrapeFrom]. apply elem_of_app.
  destruct (decide (a = id)) as [->|Hne]; [left; exact Hm|].
  right. apply (IH (a + 1) id); [lia | exact Hm].
Qed.

Lemma elem_of_errors (e : string) ms : Error e ∈ ms -> e ∈ errors ms.
Proof.
  intros H. unfold errors. apply list_elem_of_omap. exists (Error e). split; [exact H | reflexivity].
Qed.

(** C8: the worker posts one progress message per id of its range, in
    ascending order and whatever happened to the id.  Every id of the range
    is processed, whatever happened to the ids before it: all the messages
    of its iteration are posted, so a page that holds data and is not marked
    as removed has its listing posted, also after an id whose page load
    raised.  An id whose page load raised is reported by an error message
    that names the id and the cause, and yields no listing.  The range
    [1..1] with a not-found page gives no listing and the single progress
    message [current = 1, total = 1]. *)
Theorem progress_once_per_id (wd : workerData) (site : Z -> pageOutcome) :
  let total := endId wd - startId wd + 1 in
  let out := runWorker wd site in
  progressEvents out = (fun id => (id, total)) <$> seqZ (startId wd) total
  /\ (forall id, startId wd <= id <= endId wd ->
        length (filter (fun e : Z * Z => e.1 = id) (progressEvents out)) = 1%nat
        /\ (forall m, m ∈ scrapeOne site total id -> m ∈ out)
        /\ (forall d, site id = Loaded d ->
              negb (truthyText (auctionId d)) && negb (truthyText (address d)) = false ->
              isRemoved (status d) = false ->
              Result (normalize id d) ∈ out)
        /\ (forall msg, site id = Throws msg ->
              ("Failed to scrape " +:+ pretty id +:+ ": " +:+ msg) ∈ errors out
              /\ results (scrapeOne site total id) = []))
  /\ (site 1 = NotFound ->
        forall w, results (runWorker (WorkerData w 1 1) site) = []
                  /\ progressEvents (runWorker (WorkerData w 1 1) site) = [(1, 1)]).
Proof.
  intros total out. split; [apply progress_runWorker|]. split.
  - intros id Hid.
    assert (Hposted : forall m, m ∈ scrapeOne site total id -> m ∈ out).
    { intros m Hm. unfold out, runWorker. fold total.
      apply elem_of_cons. right. apply elem_of_app. left.
      apply (elem_of_scrapeFrom site total _ _ (startId wd) id); [|exact Hm].
      rewrite Z2Nat.id by (unfold total; lia). unfold total. lia. }
    split; [|split; [exact Hposted|split]].
    + unfold out. rewrite progress_runWorker. fold total.
      rewrite <- (seqZ_to_nat (startId wd) total).
      apply count_in_range. rewrite Z2Nat.id by (unfold total; lia). unfold total. lia.
    + intros d Hd Hdata Hkept. apply Hposted.
      unfold scrapeOne. rewrite Hd, Hdata, Hkept. left.
    + intros msg Hmsg. split.
      * apply elem_of_errors, Hposted.
        unfold scrapeOne. rewrite Hmsg. apply elem_of_cons. left. reflexivity.
      * unfold scrapeOne. rewrite Hmsg. reflexivity.
  - intros H1 w. unfold runWorker. cbn [startId endId workerId].
    change (Z.to_nat (1 - 1 + 1)) with 1%nat. cbn [scrapeFrom].
    unfold scrapeOne. rewrite H1. split; reflexivity.
Qed.

Lemma progress_once_per_id_witness :
  progressEvents (runWorker Samples.job Samples.site) = [(1, 5); (2, 5); (3, 5); (4, 5); (5, 5)]
  /\ length (filter (fun e : Z * Z => e.1 = 2) (progressEvents (runWorker Samples.job Samples.site))) = 1%nat
  /\ "Failed to scrape 2: Timeout 10000ms exceeded" ∈ errors (runWorker Samples.job Samples.site)
  /\ Result (normalize 5 (Samples.pageWithBid (Some "NONE")))
       ∈ runWorker Samples.job Samples.site.
Proof.
  pose proof (progress_once_per_id Samples.job Samples.site) as H. cbv zeta in H.
  destruct H as [H1 [H2 _]].
  destruct (H2 2 ltac:(cbn; lia)) as (Hc & _ & _ & He).
  destruct (He "Timeout 10000ms exceeded" eq_refl) as [He' _].
  destruct (H2 5 ltac:(cbn; lia)) as (_ & _ & Hl & _).
  split; [exact H1 | split; [exact Hc | split; [exact He'|]]].
  apply (Hl (Samples.pageWithBid (Some "NONE"))); reflexivity.
Defined.

(** C10: the three numeric fields of an emitted listing are the currency
    normalization of the minimum bid, current bid and assessed value texts;
    that normalization maps ["$1,234.56"] to [1234.56] and each of [""],
    [null] and ["N/A"] to [0]. *)
Theorem currency_normalization (id : Z) (d : pageData) :
  minimumBidNumeric (normalize id d) = parseAmount (minimumBid d)
  /\ currentBidNumeric (normalize id d) = parseAmount (currentBid d)
  /\ sevValueNumeric (normalize id d) = parseAmount (sevValue d)
  /\ number_eq (parseAmount (Some "$1,234.56")) (Num 1234.56)
  /\ parseAmount (Some "") = Num 0
  /\ parseAmount None = Num 0
  /\ parseAmount (Some "N/A") = Num 0.
Proof.
  repeat split; vm_compute; reflexivity.
Qed.

(** What the derived [hasBids] is, as a truth value: the current-bid text is
    present, not empty and not ["$0.00"]. *)
Lemma hasBids_truthy (id : Z) (d : pageData) :
  truthyValue (hasBids (normalize id d)) = true <->
  exists s, currentBid d = Some s /\ s <> "" /\ s <> "$0.00".
Proof.
  unfold normalize, deriveHasBids. cbn [hasBids].
  destruct (currentBid d) as [s|]; cbn.
  - unfold andAlso. cbn.
    destruct (String.eqb_spec s "") as [->|Hs]; cbn.
    + split; [discriminate|]. intros (s & [= <-] & H & _). congruence.
    + destruct (String.eqb_spec s "$0.00") as [->|Hz]; cbn.
      * split; [discriminate|]. intros (s & [= <-] & _ & H). congruence.
      * split; [|reflexivity]. intros _. exists s. auto.
  - split; [discriminate|]. intros (s & [=] & _).
Qed.

(** C2 at the input ["NONE"]: the listing is emitted with a true [hasBids]
    although its normalized current bid is 0 and the text is the sentinel. *)
Theorem hasBids_of_NONE (id : Z) :
  hasBids (normalize id (Samples.pageWithBid (Some "NONE"))) = Bool true
  /\ currentBidNumeric (normalize id (Samples.pageWithBid (Some "NONE"))) = Num 0
  /\ Result (normalize 1 (Samples.pageWithBid (Some "NONE")))
       ∈ runWorker Samples.job Samples.site.
Proof.
  split; [reflexivity|]. split; [reflexivity|].
  vm_compute. apply elem_of_cons. right. apply elem_of_cons. left. reflexivity.
Qed.

End WorkerFacts.

(** ** The update scheduler *)

Module SchedulerFacts.
Import Scheduler.

(** The comparison of the hours left with a whole number of hours, in
    milliseconds. *)
Lemma atMost_hours (now closing k : Z) :
  atMost (hoursUntilClosing now (Some closing)) (inject_Z k) = (closing - now <=? k * 3600000).
Proof.
  unfold atMost, hoursUntilClosing.
  apply eq_true_iff_eq. rewrite Qle_bool_iff, Z.leb_le.
  change (inject_Z (1000 * 60 * 60)) with (3600000 # 1)%Q.
  unfold Qle, Qdiv, Qmult, Qinv, inject_Z. cbn [Qnum Qden].
  rewrite !Z.mul_1_r, Pos.mul_1_l. reflexivity.
Qed.

Lemma priority_by_remaining (now closing : Z) :
  fst (getUpdatePriority now (Some closing)) =
  if closing - now <=? 0 then expired
  else if closing - now <=? 3600000 then immediate
  else if closing - now <=? 3 * 3600000 then urgent
  else if closing - now <=? 6 * 3600000 then regular
  else standard.
Proof.
  unfold getUpdatePriority.
  change 0%Q with (inject_Z 0). change 1%Q with (inject_Z 1).
  change 3%Q with (inject_Z 3). change 6%Q with (inject_Z 6).
  rewrite !atMost_hours.
  change (0 * 3600000) with 0. change (1 * 3600000) with 3600000.
  repeat case_match; reflexivity.
Qed.

(** C7: the class of a listing is [expired] when no time is left,
    [immediate] up to one hour, [urgent] up to three, [regular] up to six and
    [standard] beyond; 45 minutes, 2 hours, 5 hours and 10 hours ahead give
    [immediate], [urgent], [regular] and [standard], and one minute in the
    past gives [expired]. *)
Theorem urgency_classes (now closing : Z) :
  let remaining := closing - now in
  let class := fst (getUpdatePriority now (Some closing)) in
  (remaining <= 0 -> class = expired)
  /\ (0 < remaining <= 3600000 -> class = immediate)
  /\ (3600000 < remaining <= 3 * 3600000 -> class = urgent)
  /\ (3 * 3600000 < remaining <= 6 * 3600000 -> class = regular)
  /\ (6 * 3600000 < remaining -> class = standard)
  /\ fst (getUpdatePriority now (Some (now + 45 * 60000))) = immediate
  /\ fst (getUpdatePriority now (Some (now + 2 * 3600000))) = urgent
  /\ fst (getUpdatePriority now (Some (now + 5 * 3600000))) = regular
  /\ fst (getUpdatePriority now (Some (now + 10 * 3600000))) = standard
  /\ fst (getUpdatePriority now (Some (now - 60000))) = expired.
Proof.
  intros remaining class. unfold class, remaining.
  rewrite !priority_by_remaining.
  repeat split; intros; repeat case_match; try reflexivity; lia.
Qed.

(** Each class carries its polling interval; [expired] carries none. *)
Lemma interval_of_class (now : Z) (closing : option Z) :
  snd (getUpdatePriority now closing) = interval (fst (getUpdatePriority now closing)).
Proof. unfold getUpdatePriority. repeat case_match; reflexivity. Qed.

End SchedulerFacts.

(** ** The range partition *)

Module CoordinatorFacts.
Import Coordinator.

Lemma rangePerWorker_enough (s e w : Z) :
  s <= e -> 1 <= w ->
  1 <= rangePerWorker s e w /\ e - s + 1 <= w * rangePerWorker s e w.
Proof.
  intros Hse Hw. unfold rangePerWorker.
  set (n := e - s + 1). set (r := Qceiling (inject_Z n / inject_Z w)).
  assert (Hle : n <= w * r).
  { pose proof (Qle_ceiling (inject_Z n / inject_Z w)) as H. fold r in H.
    destruct w as [|p|p]; try lia.
    unfold Qle, Qdiv, Qmult, Qinv, inject_Z in H. cbn [Qnum Qden] in H.
    rewrite Pos.mul_1_l in H. lia. }
  split; [|exact Hle]. subst n. nia.
Qed.

Lemma launchFrom_past (s e r i : Z) n :
  e < s + i * r -> launchFrom s e r i n = [].
Proof.
  intros H. destruct n; [reflexivity|]. cbn [launchFrom].
  rewrite (proj2 (Z.ltb_lt _ _)) by lia. reflexivity.
Qed.

Lemma launchFrom_tiles (s e r : Z) :
  1 <= r -> forall n i,
  s + i * r <= e + 1 -> e < s + i * r + Z.of_nat n * r ->
  tiles (s + i * r) (launchFrom s e r i n) e.
Proof.
  intros Hr n. induction n as [|n IH]; intros i Hlo Hhi.
  - cbn. lia.
  - cbn [launchFrom]. destruct (Z.ltb_spec e (s + i * r)) as [Hpast|Hin].
    + cbn. lia.
    + cbn [tiles startId endId]. split; [reflexivity|]. split; [lia|].
      destruct (Z_lt_le_dec (s + i * r + r - 1) e) as [Hshort|Hlast].
      * rewrite Z.min_l by lia.
        replace (s + i * r + r - 1 + 1) with (s + (i + 1) * r) by lia.
        apply IH; lia.
      * rewrite Z.min_r by lia. rewrite launchFrom_past by lia. reflexivity.
Qed.

Lemma tiles_count (id : Z) js : forall a e,
  tiles a js e ->
  (a <= id <= e -> length (filter (fun j => covers j id = true) js) = 1%nat)
  /\ (~ a <= id <= e -> filter (fun j => covers j id = true) js = []).
Proof.
  induction js as [|j rest IH]; intros a e Ht.
  - cbn in Ht. split; [lia | reflexivity].
  - destruct Ht as (Hs & He & Hrest). destruct (IH _ _ Hrest) as [IH1 IH2].
    assert (Hend : endId j <= e).
    { clear -Hrest. revert Hrest. generalize (endId j). induction rest as [|k rest IHr]; cbn; intros x.
      - lia.
      - intros (Hk & Hk' & Hk''). apply IHr in Hk''. lia. }
    unfold covers in *. split; intros Hid.
    + destruct (decide (id <= endId j)) as [Hin|Hout].
      * rewrite filter_cons_True by (apply andb_true_iff; split; [apply Z.leb_le | apply Z.leb_le]; lia).
        cbn [length]. rewrite IH2 by lia. reflexivity.
      * rewrite filter_cons_False.
        { apply IH1. lia. }
        rewrite andb_true_iff, !Z.leb_le. lia.
    + rewrite filter_cons_False by (rewrite andb_true_iff, !Z.leb_le; lia).
      apply IH2. lia.
Qed.

(** C5: for [startId <= endId] and at least one worker, the launched ranges
    tile [startId..endId]: they are contiguous, every id of the range lies in
    exactly one of them and no id outside lies in any, and there are at most
    [workerCount] of them; [250900000..250900029] over 3 workers gives three
    ranges of ten ids. *)
Theorem partition_covers_once (s e w : Z) :
  s <= e -> 1 <= w ->
  tiles s (partition s e w) e
  /\ (forall id, s <= id <= e ->
        length (filter (fun j => covers j id = true) (partition s e w)) = 1%nat)
  /\ (forall id, ~ s <= id <= e ->
        filter (fun j => covers j id = true) (partition s e w) = [])
  /\ partition 250900000 250900029 3 =
       [Job 0 250900000 250900009; Job 1 250900010 250900019; Job 2 250900020 250900029].
Proof.
  intros Hse Hw.
  destruct (rangePerWorker_enough s e w Hse Hw) as [Hr Hn].
  assert (Ht : tiles s (partition s e w) e).
  { unfold partition. replace s with (s + 0 * rangePerWorker s e w) at 1 by lia.
    apply launchFrom_tiles; [exact Hr | lia |]. rewrite Z2Nat.id by lia. lia. }
  split; [exact Ht|]. split; [|split].
  - intros id Hid. apply (tiles_count id _ _ _ Ht). exact Hid.
  - intros id Hid. apply (tiles_count id _ _ _ Ht). exact Hid.
  - vm_compute. reflexivity.
Qed.

Lemma partition_covers_once_witness :
  tiles 0 (partition 0 9 4) 9
  /\ length (filter (fun j => covers j 9 = true) (partition 0 9 4)) = 1%nat.
Proof.
  destruct (partition_covers_once 0 9 4 ltac:(lia) ltac:(lia)) as (Ht & Hin & _).
  split; [exact Ht | apply Hin; lia].
Defined.

End CoordinatorFacts.

(** ** The bid tracker *)

Module BidTrackerFacts.
Import JS BidTracker.

(** *** Numbers *)

Lemma strictNeq_refl (a : option Q) : strictNeq a a = false.
Proof.
  destruct a as [q|]; [|reflexivity]. cbn.
  rewrite (proj2 (Qeq_bool_iff q q)) by reflexivity. reflexivity.
Qed.

Lemma orElse_spec (a b : option Q) :
  (forall q, a = Some q -> ~ q == 0 -> orElse a b = Some q)
  /\ (a = None -> orElse a b = b)
  /\ (forall q, a = Some q -> q == 0 -> orElse a b = b).
Proof.
  unfold orElse, truthyOpt. repeat split.
  - intros q -> Hq. destruct (Qeq_bool q 0) eqn:E; [|reflexivity].
    apply Qeq_bool_iff in E. contradiction.
  - intros ->. reflexivity.
  - intros q -> Hq. rewrite (proj2 (Qeq_bool_iff q 0) Hq). reflexivity.
Qed.

(** *** [updateMetrics] *)

Lemma updateMetrics_history now ph : history (updateMetrics now ph) = history ph.
Proof.
  unfold updateMetrics. destruct (history ph) as [|? [|? ?]] eqn:E; cbn; congruence.
Qed.

Lemma updateMetrics_firstBid now ph :
  firstBid (metrics (updateMetrics now ph)) = firstBid (metrics ph).
Proof. unfold updateMetrics. destruct (history ph) as [|? [|? ?]] eqn:E; reflexivity. Qed.

Lemma updateMetrics_short now ph :
  (length (history ph) < 2)%nat -> updateMetrics now ph = ph.
Proof.
  unfold updateMetrics. destruct (history ph) as [|? [|? ?]]; cbn; intros; try reflexivity; lia.
Qed.

Lemma updateMetrics_totalChanges now ph :
  (2 <= length (history ph))%nat ->
  totalChanges (metrics (updateMetrics now ph)) = countChanges (history ph).
Proof.
  unfold updateMetrics. destruct (history ph) as [|? [|? ?]]; cbn [length]; intros; try lia.
  reflexivity.
Qed.

Lemma updateMetrics_totalIncrease now ph first latest :
  (2 <= length (history ph))%nat ->
  head (history ph) = Some first -> last (history ph) = Some latest ->
  totalIncrease (metrics (updateMetrics now ph)) = sub (currentBid latest) (currentBid first).
Proof.
  unfold updateMetrics. destruct (history ph) as [|a [|b h]]; cbn [length]; intros Hlen Hf Hl; try lia.
  rewrite Hl. injection Hf as <-. reflexivity.
Qed.

Lemma updateMetrics_totalIncreasePercent now ph first latest :
  (2 <= length (history ph))%nat ->
  head (history ph) = Some first -> last (history ph) = Some latest ->
  totalIncreasePercent (metrics (updateMetrics now ph)) =
  Some (if positive (currentBid first) then percentOf (currentBid latest) (currentBid first)
        else Num 0).
Proof.
  unfold updateMetrics. destruct (history ph) as [|a [|b h]]; cbn [length]; intros Hlen Hf Hl; try lia.
  rewrite Hl. injection Hf as <-. reflexivity.
Qed.

Lemma updateMetrics_lastChangeHours now ph s :
  (2 <= length (history ph))%nat ->
  (0 < lastChangeIndex (history ph))%nat ->
  history ph !! lastChangeIndex (history ph) = Some s ->
  lastChangeHours (metrics (updateMetrics now ph)) =
  Some (inject_Z (now - timestamp s) / inject_Z msPerHour)%Q.
Proof.
  unfold updateMetrics. destruct (history ph) as [|a [|b h]]; cbn [length]; intros Hlen Hpos Hs; try lia.
  cbn [metrics lastChangeHours].
  rewrite (proj2 (Nat.ltb_lt _ _) Hpos), Hs. reflexivity.
Qed.

(** *** Counting changes *)

Lemma countAfter_snoc s rest : forall prev,
  countAfter prev (rest ++ [s]) =
  countAfter prev rest + (if differs s (default prev (last rest)) then 1 else 0).
Proof.
  induction rest as [|x rest IH]; intros prev.
  - cbn. lia.
  - cbn [app countAfter]. rewrite IH.
    replace (default prev (last (x :: rest))) with (default x (last rest)); [lia|].
    destruct rest as [|y rest]; [reflexivity|]. rewrite !last_cons_cons.
    destruct (last (y :: rest)) eqn:E; [reflexivity|].
    apply last_None in E. discriminate.
Qed.

Lemma countChanges_snoc h s l :
  last h = Some l ->
  countChanges (h ++ [s]) = countChanges h + (if differs s l then 1 else 0).
Proof.
  destruct h as [|x rest]; [discriminate|]. intros Hl.
  cbn [app countChanges]. rewrite countAfter_snoc.
  replace (default x (last rest)) with l; [reflexivity|].
  destruct rest as [|y rest]; [cbn in *; congruence|].
  rewrite last_cons_cons in Hl. rewrite Hl. reflexivity.
Qed.

(** *** The search for the last change *)

Lemma searchChange_none h : forall n,
  (forall i, differsAt h i = false) -> searchChange h n = None.
Proof.
  induction n as [|n IH]; intros H; [reflexivity|].
  cbn [searchChange]. rewrite H. apply IH, H.
Qed.

Lemma searchChange_found h i : forall n,
  (0 < i <= n)%nat -> differsAt h i = true ->
  (forall j, (i < j <= n)%nat -> differsAt h j = false) ->
  searchChange h n = Some i.
Proof.
  induction n as [|n IH]; intros Hi Hd Hafter; [lia|].
  cbn [searchChange].
  destruct (decide (i = S n)) as [->|Hne].
  - rewrite Hd. reflexivity.
  - rewrite Hafter by lia. apply IH; [lia | exact Hd | intros j Hj; apply Hafter; lia].
Qed.

(** With no change in the history, the index the search leaves is the last
    one, and [updateMetrics] stores the age of the latest snapshot. *)
Lemma lastChangeHours_without_change now ph latest :
  (2 <= length (history ph))%nat ->
  (forall i, differsAt (history ph) i = false) ->
  last (history ph) = Some latest ->
  lastChangeHours (metrics (updateMetrics now ph)) =
  Some (inject_Z (now - timestamp latest) / inject_Z msPerHour)%Q.
Proof.
  intros Hlen Hnone Hlast.
  assert (Hidx : lastChangeIndex (history ph) = (length (history ph) - 1)%nat).
  { unfold lastChangeIndex. rewrite searchChange_none by exact Hnone. reflexivity. }
  apply updateMetrics_lastChangeHours; [exact Hlen | lia |].
  rewrite Hidx. rewrite last_lookup in Hlast.
  replace (length (history ph) - 1)%nat with (Nat.pred (length (history ph))) by lia.
  exact Hlast.
Qed.

(** With a change in the history, [updateMetrics] stores the age of the most
    recent snapshot that differs from the one before it. *)
Lemma lastChangeHours_with_change now ph i s :
  history ph !! i = Some s -> (0 < i)%nat ->
  differsAt (history ph) i = true ->
  (forall j, (i < j)%nat -> differsAt (history ph) j = false) ->
  lastChangeHours (metrics (updateMetrics now ph)) =
  Some (inject_Z (now - timestamp s) / inject_Z msPerHour)%Q.
Proof.
  intros Hs Hi Hd Hafter.
  assert (Hlt : (i < length (history ph))%nat) by (eapply lookup_lt_Some; exact Hs).
  assert (Hidx : lastChangeIndex (history ph) = i).
  { unfold lastChangeIndex.
    rewrite (searchChange_found _ i) by (try exact Hd; try lia; intros j Hj; apply Hafter; lia).
    reflexivity. }
  apply updateMetrics_lastChangeHours; rewrite ?Hidx; [lia | exact Hi | exact Hs].
Qed.

(** *** One iteration of [recordSnapshot] *)

Lemma recordEntry_history stamp now p entry :
  exists s,
    history (recordEntry stamp now p entry).1 =
      history (default (initialHistory p) entry) ++ [s]
    /\ currentBid s = effectiveBid p /\ timestamp s = stamp.
Proof.
  unfold recordEntry.
  destruct (makeSnapshot stamp p (last (history (default (initialHistory p) entry)))) as [s c] eqn:E.
  exists s. cbn [fst]. rewrite updateMetrics_history. cbn [history].
  split; [reflexivity|].
  unfold makeSnapshot in E.
  destruct (last (history (default (initialHistory p) entry))) as [l|].
  - destruct (strictNeq (currentBid l) _); injection E as <- _; split; reflexivity.
  - injection E as <- _; split; reflexivity.
Qed.

Lemma recordEntry_hasChanged stamp now p entry :
  (recordEntry stamp now p entry).2 =
  match last (history (default (initialHistory p) entry)) with
  | Some l => strictNeq (currentBid l) (effectiveBid p)
  | None => true
  end.
Proof.
  unfold recordEntry, makeSnapshot.
  destruct (last (history (default (initialHistory p) entry))) as [l|]; [|reflexivity].
  fold (effectiveBid p). destruct (strictNeq (currentBid l) (effectiveBid p)); reflexivity.
Qed.

Lemma recordEntry_firstBid stamp now p entry :
  firstBid (metrics (recordEntry stamp now p entry).1) =
  match entry with
  | Some ph => firstBid (metrics ph)
  | None => effectiveBid p
  end.
Proof.
  unfold recordEntry.
  destruct (makeSnapshot stamp p (last (history (default (initialHistory p) entry)))) as [s c].
  cbn [fst]. rewrite updateMetrics_firstBid. cbn [metrics].
  destruct entry; reflexivity.
Qed.

(** A second recording of the same listing sees no change. *)
Lemma recordEntry_again stamp1 now1 stamp2 now2 p entry :
  (recordEntry stamp2 now2 p (Some (recordEntry stamp1 now1 p entry).1)).2 = false.
Proof.
  rewrite recordEntry_hasChanged. cbn [from_option id].
  destruct (recordEntry_history stamp1 now1 p entry) as (s & -> & Hs & _).
  rewrite last_snoc, Hs. apply strictNeq_refl.
Qed.

(** *** The loop of [recordSnapshot] *)

Lemma inheritedMember_plain hs id : inherited id = false -> inheritedMember hs id = false.
Proof. unfold inheritedMember. intros ->. destruct (hs !! id); reflexivity. Qed.

Lemma inheritedMember_stored hs id ph : hs !! id = Some ph -> inheritedMember hs id = false.
Proof. unfold inheritedMember. intros ->. reflexivity. Qed.

Lemma inheritedMember_true hs id :
  inheritedMember hs id = true <-> hs !! id = None /\ inherited id = true.
Proof.
  unfold inheritedMember. destruct (hs !! id); split; try intros [H1 H2]; try discriminate; auto.
Qed.

Lemma inheritedMember_insert hs k v id :
  inheritedMember hs id = false -> inheritedMember (<[k := v]> hs) id = false.
Proof.
  unfold inheritedMember. destruct (decide (k = id)) as [->|Hne].
  - rewrite lookup_insert_eq. reflexivity.
  - rewrite lookup_insert_ne by exact Hne. auto.
Qed.

Lemma plainIds_members hs props :
  plainIds props -> forall p, p ∈ props -> inheritedMember hs (auctionId p) = false.
Proof.
  intros H p Hp. apply inheritedMember_plain.
  unfold plainIds in H. rewrite Forall_forall in H. apply H, Hp.
Qed.

(** An iteration raises exactly when the lookup gives an inherited member. *)
Lemma recordProperty_TypeError stamp now p acc :
  recordProperty stamp now p acc = TypeError <-> inheritedMember acc.1.1 (auctionId p) = true.
Proof.
  destruct acc as [[hs c] k]. unfold recordProperty. cbn [fst].
  destruct (inheritedMember hs (auctionId p)); [split; reflexivity|].
  destruct (recordEntry stamp now p (hs !! auctionId p)) as [ph ch].
  split; discriminate.
Qed.

(** What an iteration that does not raise leaves. *)
Lemma recordProperty_Value stamp now p acc acc' :
  recordProperty stamp now p acc = Value acc' ->
  inheritedMember acc.1.1 (auctionId p) = false
  /\ acc'.1.1 = <[auctionId p := (recordEntry stamp now p (acc.1.1 !! auctionId p)).1]> acc.1.1
  /\ acc'.1.2 = (if (recordEntry stamp now p (acc.1.1 !! auctionId p)).2
                 then acc.1.2 + 1 else acc.1.2)
  /\ acc'.2 = acc.2 + 1.
Proof.
  destruct acc as [[hs c] k]. unfold recordProperty. cbn [fst snd].
  destruct (inheritedMember hs (auctionId p)); [discriminate|].
  destruct (recordEntry stamp now p (hs !! auctionId p)) as [ph ch].
  intros [= <-]. repeat split.
Qed.

Lemma recordProperty_other stamp now p acc acc' id :
  recordProperty stamp now p acc = Value acc' ->
  auctionId p <> id -> acc'.1.1 !! id = acc.1.1 !! id.
Proof.
  intros E Hne. destruct (recordProperty_Value _ _ _ _ _ E) as (_ & -> & _).
  apply lookup_insert_ne. exact Hne.
Qed.

Lemma recordProperty_same stamp now p acc acc' :
  recordProperty stamp now p acc = Value acc' ->
  acc'.1.1 !! auctionId p = Some (recordEntry stamp now p (acc.1.1 !! auctionId p)).1.
Proof.
  intros E. destruct (recordProperty_Value _ _ _ _ _ E) as (_ & -> & _).
  apply lookup_insert_eq.
Qed.

Lemma recordProperty_member stamp now p acc acc' id :
  recordProperty stamp now p acc = Value acc' ->
  inheritedMember acc'.1.1 id = inheritedMember acc.1.1 id.
Proof.
  intros E. destruct (recordProperty_Value _ _ _ _ _ E) as (Hp & -> & _).
  unfold inheritedMember in *. destruct (decide (auctionId p = id)) as [<-|Hne].
  - rewrite lookup_insert_eq. symmetry. exact Hp.
  - rewrite lookup_insert_ne by exact Hne. reflexivity.
Qed.

Lemma recordAll_other stamp clock props id : forall i acc,
  id ∉ auctionId <$> props ->
  (recordAll stamp clock i props acc).1.1.1 !! id = acc.1.1 !! id.
Proof.
  induction props as [|p rest IH]; intros i acc Hid; [reflexivity|].
  rewrite fmap_cons in Hid. apply not_elem_of_cons in Hid as [Hne Hrest].
  cbn [recordAll]. destruct (recordProperty stamp (clock i) p acc) as [acc'|] eqn:E; [|reflexivity].
  rewrite IH by exact Hrest. apply (recordProperty_other _ _ _ _ _ _ E). congruence.
Qed.

(** The loop stops early exactly when the lookup of some listing gives an
    inherited member. *)
Lemma recordAll_raises stamp clock props : forall i acc,
  (recordAll stamp clock i props acc).2 = false <->
  exists p, p ∈ props /\ inheritedMember acc.1.1 (auctionId p) = true.
Proof.
  induction props as [|p rest IH]; intros i acc.
  - split; [discriminate|]. intros (p & Hp & _). inversion Hp.
  - cbn [recordAll]. destruct (recordProperty stamp (clock i) p acc) as [acc'|] eqn:E.
    + rewrite IH. split.
      * intros (q & Hq & Hm). exists q. split; [right; exact Hq|].
        rewrite <- (recordProperty_member _ _ _ _ _ (auctionId q) E). exact Hm.
      * intros (q & Hq & Hm). exists q.
        rewrite (recordProperty_member _ _ _ _ _ (auctionId q) E). split; [|exact Hm].
        apply elem_of_cons in Hq as [->|Hq]; [|exact Hq].
        destruct (recordProperty_Value _ _ _ _ _ E) as (Hp & _). congruence.
    + split; [|reflexivity]. intros _. exists p. split; [left|].
      apply recordProperty_TypeError in E. exact E.
Qed.

Lemma recordAll_completes stamp clock props i acc :
  (forall p, p ∈ props -> inheritedMember acc.1.1 (auctionId p) = false) ->
  (recordAll stamp clock i props acc).2 = true.
Proof.
  intros H. destruct ((recordAll stamp clock i props acc).2) eqn:E; [reflexivity|].
  apply recordAll_raises in E as (p & Hp & Hm). rewrite (H p Hp) in Hm. discriminate.
Qed.

(** With distinct auction ids, the entry of the [j]-th listing after a loop
    that ran to its end is the one its own iteration wrote. *)
Lemma recordAll_lookup stamp clock props : forall i acc j p,
  NoDup (auctionId <$> props) -> props !! j = Some p ->
  (recordAll stamp clock i props acc).2 = true ->
  (recordAll stamp clock i props acc).1.1.1 !! auctionId p =
  Some (recordEntry stamp (clock (i + j)%nat) p (acc.1.1 !! auctionId p)).1.
Proof.
  induction props as [|q rest IH]; intros i acc j p Hnd Hj; [discriminate|].
  rewrite fmap_cons in Hnd. apply NoDup_cons in Hnd as [Hq Hnd].
  cbn [recordAll]. destruct (recordProperty stamp (clock i) q acc) as [acc'|] eqn:E;
    [|discriminate]. intros Hdone.
  destruct j as [|j].
  - injection Hj as ->. rewrite recordAll_other by exact Hq.
    rewrite Nat.add_0_r. apply (recordProperty_same _ _ _ _ _ E).
  - cbn in Hj. rewrite (IH (S i) _ j p Hnd Hj Hdone).
    assert (Hne : auctionId q <> auctionId p).
    { intros Heq. apply Hq. rewrite Heq. apply list_elem_of_fmap. exists p.
      split; [reflexivity|]. apply list_elem_of_lookup. eauto. }
    rewrite (recordProperty_other _ _ _ _ _ _ E Hne).
    replace (S i + j)%nat with (i + S j)%nat by lia. reflexivity.
Qed.

Lemma recordAll_tracked stamp clock props : forall i acc,
  (recordAll stamp clock i props acc).2 = true ->
  (recordAll stamp clock i props acc).1.2 = acc.2 + Z.of_nat (length props).
Proof.
  induction props as [|p rest IH]; intros i acc; [cbn; lia|].
  cbn [recordAll length]. destruct (recordProperty stamp (clock i) p acc) as [acc'|] eqn:E;
    [|discriminate]. intros Hdone. rewrite IH by exact Hdone.
  destruct (recordProperty_Value _ _ _ _ _ E) as (_ & _ & _ & ->). lia.
Qed.

(** When no listing differs from the latest snapshot stored for it, the
    counter of changes does not move. *)
Lemma recordAll_unchanged stamp clock props : forall i acc,
  NoDup (auctionId <$> props) ->
  (forall p now, p ∈ props -> (recordEntry stamp now p (acc.1.1 !! auctionId p)).2 = false) ->
  (recordAll stamp clock i props acc).1.1.2 = acc.1.2.
Proof.
  induction props as [|q rest IH]; intros i acc Hnd Hsame; [reflexivity|].
  rewrite fmap_cons in Hnd. apply NoDup_cons in Hnd as [Hq Hnd].
  cbn [recordAll]. destruct (recordProperty stamp (clock i) q acc) as [acc'|] eqn:E; [|reflexivity].
  rewrite IH.
  - destruct (recordProperty_Value _ _ _ _ _ E) as (_ & _ & -> & _).
    rewrite (Hsame q (clock i) ltac:(left)). reflexivity.
  - exact Hnd.
  - intros p now Hp. rewrite (recordProperty_other _ _ _ _ _ (auctionId p) E).
    + apply Hsame. right. exact Hp.
    + intros Heq. apply Hq. rewrite Heq. apply list_elem_of_fmap. eauto.
Qed.

Lemma recordAll_app stamp clock a b : forall i acc,
  recordAll stamp clock i (a ++ b) acc =
  if (recordAll stamp clock i a acc).2
  then recordAll stamp clock (i + length a) b (recordAll stamp clock i a acc).1
  else recordAll stamp clock i a acc.
Proof.
  induction a as [|p a IH]; intros i acc.
  - cbn. rewrite Nat.add_0_r. reflexivity.
  - cbn [app recordAll length].
    destruct (recordProperty stamp (clock i) p acc) as [acc'|]; [|reflexivity].
    rewrite IH. replace (S i + length a)%nat with (i + S (length a))%nat by lia. reflexivity.
Qed.

Lemma recordAll_firstBid stamp clock props id x : forall i acc,
  (exists ph, acc.1.1 !! id = Some ph /\ firstBid (metrics ph) = x) ->
  exists ph, (recordAll stamp clock i props acc).1.1.1 !! id = Some ph
             /\ firstBid (metrics ph) = x.
Proof.
  induction props as [|p rest IH]; intros i acc Hacc; [exact Hacc|].
  cbn [recordAll]. destruct (recordProperty stamp (clock i) p acc) as [acc'|] eqn:E; [|exact Hacc].
  apply IH. destruct Hacc as (ph & Hph & Hx).
  destruct (decide (auctionId p = id)) as [<-|Hne].
  - rewrite (recordProperty_same _ _ _ _ _ E), Hph. eexists. split; [reflexivity|].
    rewrite recordEntry_firstBid. exact Hx.
  - rewrite (recordProperty_other _ _ _ _ _ _ E Hne). eauto.
Qed.

(** What [recordSnapshot] returns when there is something to record. *)
Lemma recordSnapshot_nonempty stamp clock properties t :
  default (currentProperties t) properties <> [] ->
  let done := recordAll stamp clock 0 (default (currentProperties t) properties) (bidHistory t, 0, 0) in
  recordSnapshot stamp clock properties t =
  (Tracker done.1.1.1 (currentProperties t),
   if done.2 then Value (Some (SnapshotResult stamp done.1.2 done.1.1.2)) else TypeError).
Proof.
  intros Hne done. unfold recordSnapshot. fold done.
  destruct (default (currentProperties t) properties) as [|p rest] eqn:E; [congruence|].
  destruct done as [[[hs c] k] b]. reflexivity.
Qed.

(** C9, as the code has it: when the loop of [recordSnapshot] reaches a
    listing that has no history, and the auction id of the listing is not
    the name of an inherited member, the history created for it is seeded
    with [currentBidNumeric || minimumBidNumeric]: the current bid amount
    when it is present and not zero, and the minimum bid amount when the
    current bid is missing or zero.  (Under the name of an inherited member
    no history is created: the call raises.) *)
Theorem firstBid_of_new_history stamp clock properties t pre p post :
  default (currentProperties t) properties = pre ++ p :: post ->
  bidHistory t !! auctionId p = None ->
  (forall q, q ∈ pre ->
     auctionId q <> auctionId p /\ inheritedMember (bidHistory t) (auctionId q) = false) ->
  (inherited (auctionId p) = false ->
   exists m,
     metricsOf (recordSnapshot stamp clock properties t).1 (auctionId p) = Some m
     /\ (forall b, currentBidNumeric p = Some b -> ~ b == 0 -> firstBid m = Some b)
     /\ (currentBidNumeric p = None -> firstBid m = minimumBidNumeric p)
     /\ (forall b, currentBidNumeric p = Some b -> b == 0 -> firstBid m = minimumBidNumeric p))
  /\ (inherited (auctionId p) = true ->
      metricsOf (recordSnapshot stamp clock properties t).1 (auctionId p) = None
      /\ (recordSnapshot stamp clock properties t).2 = TypeError).
Proof.
  intros Hprops Hnew Hpre.
  rewrite recordSnapshot_nonempty by (rewrite Hprops; destruct pre; discriminate).
  cbv zeta. cbn [fst snd bidHistory]. unfold metricsOf. cbn [bidHistory].
  rewrite Hprops, recordAll_app.
  set (before := recordAll stamp clock 0 pre (bidHistory t, 0, 0)).
  assert (Hdone : before.2 = true).
  { apply recordAll_completes. intros q Hq. apply Hpre. exact Hq. }
  assert (Hlook : before.1.1.1 !! auctionId p = None).
  { unfold before. rewrite recordAll_other; [exact Hnew|].
    intros Hin. apply list_elem_of_fmap in Hin as (q & Hq & Hin).
    destruct (Hpre q Hin) as [Hne _]. congruence. }
  rewrite Hdone. cbn [recordAll].
  destruct (recordProperty stamp (clock (0 + length pre)%nat) p before.1) as [acc'|] eqn:E.
  - split.
    + intros _.
      destruct (recordAll_firstBid stamp clock post (auctionId p) (effectiveBid p)
                  (S (0 + length pre)) acc') as (ph & Hph & Hfirst).
      { rewrite (recordProperty_same _ _ _ _ _ E). eexists. split; [reflexivity|].
        rewrite recordEntry_firstBid, Hlook. reflexivity. }
      exists (metrics ph). rewrite Hph. split; [reflexivity|].
      rewrite Hfirst. unfold effectiveBid.
      destruct (orElse_spec (currentBidNumeric p) (minimumBidNumeric p)) as (H1 & H2 & H3).
      split; [exact H1 | split; [exact H2 | exact H3]].
    + intros Hinh. destruct (recordProperty_Value _ _ _ _ _ E) as (Hm & _).
      unfold inheritedMember in Hm. rewrite Hlook in Hm. congruence.
  - split.
    + intros Hplain. apply recordProperty_TypeError, inheritedMember_true in E as [_ E].
      congruence.
    + intros _. cbn [fst snd]. rewrite Hlook. split; reflexivity.
Qed.

Lemma firstBid_of_new_history_witness :
  exists m,
    metricsOf (recordSnapshot 0 (fun _ => 0) (Some [Samples.unbid]) newTracker).1 "250900001" = Some m
    /\ firstBid m = Some 500%Q.
Proof.
  destruct (firstBid_of_new_history 0 (fun _ => 0) (Some [Samples.unbid]) newTracker
              [] Samples.unbid [] eq_refl eq_refl
              ltac:(intros q Hq; inversion Hq)) as [Hplain _].
  destruct (Hplain eq_refl) as (m & Hm & _ & _ & Hzero).
  exists m. split; [exact Hm|]. apply (Hzero 0%Q); reflexivity.
Defined.

(** C9 as stated fails for a current bid of 0: the listing has a current bid
    amount (0, not missing), and the new history starts at the minimum bid. *)
Lemma firstBid_zero_bid_counterexample :
  currentBidNumeric Samples.unbid = Some 0%Q
  /\ bidHistory newTracker !! auctionId Samples.unbid = None
  /\ (firstBid <$> metricsOf (recordSnapshot 0 (fun _ => 0) (Some [Samples.unbid]) newTracker).1
                      (auctionId Samples.unbid)) = Some (Some 500%Q)
  /\ ~ (500 == 0)%Q.
Proof.
  split; [reflexivity|]. split; [reflexivity|]. split; [vm_compute; reflexivity|].
  intros H. discriminate H.
Qed.

(** *** Recording the same listings twice *)

Lemma number_eq_refl (x : number) : number_eq x x.
Proof. destruct x; cbn; [exact I | reflexivity | reflexivity]. Qed.

Lemma recordEntry_unfold stamp now p entry :
  let ph := default (initialHistory p) entry in
  exists s,
    (recordEntry stamp now p entry).1 =
      updateMetrics now
        (PropertyHistory (historyAuctionId ph) (historyAddress ph) (historyCity ph)
           (history ph ++ [s]) (metrics ph))
    /\ currentBid s = effectiveBid p.
Proof.
  intros ph. unfold recordEntry. fold ph.
  destruct (makeSnapshot stamp p (last (history ph))) as [s c] eqn:E.
  exists s. split; [reflexivity|].
  unfold makeSnapshot in E. destruct (last (history ph)) as [l|].
  - destruct (strictNeq (currentBid l) _); injection E as <- _; reflexivity.
  - injection E as <- _; reflexivity.
Qed.

Lemma recordEntry_twice stamp1 now1 stamp2 now2 p entry :
  (forall ph, entry = Some ph -> history ph <> []) ->
  let e1 := (recordEntry stamp1 now1 p entry).1 in
  let e2 := (recordEntry stamp2 now2 p (Some e1)).1 in
  totalChanges (metrics e2) = totalChanges (metrics e1)
  /\ (is_Some (effectiveBid p) ->
      number_eq (totalIncrease (metrics e2)) (totalIncrease (metrics e1)))
  /\ firstBid (metrics e2) = firstBid (metrics e1).
Proof.
  intros Hwf e1 e2.
  assert (Hfirst : firstBid (metrics e2) = firstBid (metrics e1)).
  { unfold e2. rewrite recordEntry_firstBid. reflexivity. }
  destruct (recordEntry_unfold stamp2 now2 p (Some e1)) as (s2 & He2 & Hs2).
  fold e2 in He2. cbn [from_option id] in He2.
  destruct (recordEntry_unfold stamp1 now1 p entry) as (s1 & He1 & Hs1).
  fold e1 in He1.
  set (ph := default (initialHistory p) entry) in *.
  assert (Hh1 : history e1 = history ph ++ [s1])
    by (rewrite He1, updateMetrics_history; reflexivity).
  rewrite Hh1 in He2.
  assert (Hsame : differs s2 s1 = false)
    by (unfold differs; rewrite Hs1, Hs2; apply strictNeq_refl).
  assert (Hlen2 : (2 <= length ((history ph ++ [s1]) ++ [s2]))%nat)
    by (rewrite !length_app; cbn; lia).
  split; [|split; [|exact Hfirst]].
  - rewrite He2, updateMetrics_totalChanges by exact Hlen2.
    cbn [history]. rewrite (countChanges_snoc _ s2 s1), Hsame, Z.add_0_r by apply last_snoc.
    rewrite He1. destruct (history ph) as [|x xs] eqn:Hph.
    + (* a new history: one snapshot after the first pass *)
      rewrite updateMetrics_short by (cbn; lia). cbn [metrics].
      destruct entry as [ph0|]; [exfalso; apply (Hwf ph0 eq_refl); exact Hph|].
      reflexivity.
    + rewrite updateMetrics_totalChanges by (cbn [history]; rewrite length_app; cbn; lia).
      reflexivity.
  - intros [b Hb]. destruct (history ph) as [|x xs] eqn:Hph.
    + rewrite He2, (updateMetrics_totalIncrease _ _ s1 s2)
        by (try exact Hlen2; try reflexivity; cbn [history]; apply last_snoc).
      rewrite He1, updateMetrics_short by (cbn; lia). cbn [metrics].
      destruct entry as [ph0|]; [exfalso; apply (Hwf ph0 eq_refl); exact Hph|].
      cbn [ph from_option id initialHistory metrics totalIncrease].
      rewrite Hs1, Hs2, Hb. cbn. ring.
    + rewrite He2, (updateMetrics_totalIncrease _ _ x s2)
        by (try exact Hlen2; try reflexivity; exact (last_snoc s2 ((x :: xs) ++ [s1]))).
      rewrite He1, (updateMetrics_totalIncrease _ _ x s1)
        by (try reflexivity; try exact (last_snoc s1 (x :: xs));
            cbn [history]; rewrite length_app; cbn; lia).
      rewrite Hs1, Hs2. apply number_eq_refl.
Qed.

(** For a listing that already had a snapshot, the increase since its first
    snapshot, as an amount and as a percentage, is the same after both
    recordings. *)
Lemma recordEntry_twice_tracked stamp1 now1 stamp2 now2 p ph0 :
  history ph0 <> [] ->
  let e1 := (recordEntry stamp1 now1 p (Some ph0)).1 in
  let e2 := (recordEntry stamp2 now2 p (Some e1)).1 in
  number_eq (totalIncrease (metrics e2)) (totalIncrease (metrics e1))
  /\ exists x1 x2,
       totalIncreasePercent (metrics e1) = Some x1
       /\ totalIncreasePercent (metrics e2) = Some x2
       /\ number_eq x2 x1.
Proof.
  intros Hne e1 e2.
  destruct (recordEntry_unfold stamp2 now2 p (Some e1)) as (s2 & He2 & Hs2).
  fold e2 in He2. cbn [from_option id] in He2.
  destruct (recordEntry_unfold stamp1 now1 p (Some ph0)) as (s1 & He1 & Hs1).
  fold e1 in He1. cbn [from_option id] in He1.
  assert (Hh1 : history e1 = history ph0 ++ [s1])
    by (rewrite He1, updateMetrics_history; reflexivity).
  rewrite Hh1 in He2.
  destruct (history ph0) as [|x xs] eqn:Hph; [congruence|].
  assert (Hlen1 : (2 <= length ((x :: xs) ++ [s1]))%nat) by (rewrite length_app; cbn; lia).
  assert (Hlen2 : (2 <= length (((x :: xs) ++ [s1]) ++ [s2]))%nat)
    by (rewrite !length_app; cbn; lia).
  split.
  - rewrite He2, (updateMetrics_totalIncrease _ _ x s2)
      by (try exact Hlen2; try reflexivity; exact (last_snoc s2 ((x :: xs) ++ [s1]))).
    rewrite He1, (updateMetrics_totalIncrease _ _ x s1)
      by (try exact Hlen1; try reflexivity; exact (last_snoc s1 (x :: xs))).
    rewrite Hs1, Hs2. apply number_eq_refl.
  - eexists _, _. split; [|split].
    + rewrite He1. apply (updateMetrics_totalIncreasePercent _ _ x s1);
        [exact Hlen1 | reflexivity | exact (last_snoc s1 (x :: xs))].
    + rewrite He2. apply (updateMetrics_totalIncreasePercent _ _ x s2);
        [exact Hlen2 | reflexivity | exact (last_snoc s2 ((x :: xs) ++ [s1]))].
    + rewrite Hs1, Hs2. apply number_eq_refl.
Qed.

Lemma recordAll_wellFormed stamp clock props : forall i acc,
  (forall id ph, acc.1.1 !! id = Some ph -> history ph <> []) ->
  forall id ph, (recordAll stamp clock i props acc).1.1.1 !! id = Some ph -> history ph <> [].
Proof.
  induction props as [|p rest IH]; intros i acc Hacc; [exact Hacc|].
  cbn [recordAll]. destruct (recordProperty stamp (clock i) p acc) as [acc'|] eqn:E;
    [|exact Hacc].
  apply IH. intros id ph.
  destruct (decide (auctionId p = id)) as [<-|Hne].
  - rewrite (recordProperty_same _ _ _ _ _ E). intros [= <-].
    destruct (recordEntry_history stamp (clock i) p (acc.1.1 !! auctionId p)) as (s & -> & _).
    intros H. apply app_eq_nil in H as [_ H]. discriminate.
  - rewrite (recordProperty_other _ _ _ _ _ _ E Hne). apply Hacc.
Qed.

Lemma wellFormed_new : wellFormed newTracker.
Proof. intros id ph H. cbn in H. rewrite lookup_empty in H. discriminate. Qed.

Lemma wellFormed_recordSnapshot stamp clock properties t :
  wellFormed t -> wellFormed (recordSnapshot stamp clock properties t).1.
Proof.
  intros Hwf. destruct (decide (default (currentProperties t) properties = [])) as [E|E].
  - unfold recordSnapshot. rewrite E. exact Hwf.
  - rewrite recordSnapshot_nonempty by exact E. cbv zeta. cbn [fst].
    intros id ph. cbn [bidHistory]. apply recordAll_wellFormed. exact Hwf.
Qed.

Lemma wellFormed_run ops : forall t, wellFormed t -> wellFormed (run ops t).
Proof.
  induction ops as [|op rest IH]; intros t Hwf; [exact Hwf|].
  unfold run. cbn [fold_left]. apply IH.
  destruct op as [file|stamp clock properties]; cbn [step].
  - destruct file; exact Hwf.
  - apply wellFormed_recordSnapshot. exact Hwf.
Qed.

(** C1, as the code has it: on a tracker whose stored histories are not
    empty, recording a non-empty set of listings with distinct auction ids,
    none of them the name of an inherited member, twice gives
    [newChanges = 0] on the second call, and for every listing of the set
    the second call leaves [totalChanges] and the seed [firstBid] as the
    first call left them, and [totalIncrease] too when the listing carries a
    bid amount.  For a listing that had a history before the first call,
    [totalIncrease] and [totalIncreasePercent] are left as well.  The
    metrics computed from the clock ([bidVelocity], [lastChangeHours],
    [competitionScore]) are not covered, and neither is
    [totalIncreasePercent] of a listing first seen by the first call: the
    second call is the one that sets it. *)
Theorem second_snapshot_no_new_changes stamp1 clock1 stamp2 clock2 properties t :
  wellFormed t ->
  default (currentProperties t) properties <> [] ->
  NoDup (auctionId <$> default (currentProperties t) properties) ->
  plainIds (default (currentProperties t) properties) ->
  let first := recordSnapshot stamp1 clock1 properties t in
  let second := recordSnapshot stamp2 clock2 properties first.1 in
  (exists res, second.2 = Value (Some res) /\ newChanges res = 0
               /\ totalTracked res = Z.of_nat (length (default (currentProperties t) properties)))
  /\ (forall p, p ∈ default (currentProperties t) properties ->
        exists m1 m2,
          metricsOf first.1 (auctionId p) = Some m1
          /\ metricsOf second.1 (auctionId p) = Some m2
          /\ totalChanges m2 = totalChanges m1
          /\ firstBid m2 = firstBid m1
          /\ (is_Some (effectiveBid p) -> number_eq (totalIncrease m2) (totalIncrease m1))
          /\ (is_Some (bidHistory t !! auctionId p) ->
              number_eq (totalIncrease m2) (totalIncrease m1)
              /\ exists x1 x2,
                   totalIncreasePercent m1 = Some x1 /\ totalIncreasePercent m2 = Some x2
                   /\ number_eq x2 x1)).
Proof.
  intros Hwf Hne Hnd Hplain first second.
  set (props := default (currentProperties t) properties) in *.
  set (done1 := recordAll stamp1 clock1 0 props (bidHistory t, 0, 0)).
  assert (Hc1 : done1.2 = true).
  { apply recordAll_completes. apply plainIds_members. exact Hplain. }
  assert (Hfirst : first = (Tracker done1.1.1.1 (currentProperties t),
                            Value (Some (SnapshotResult stamp1 done1.1.2 done1.1.1.2)))).
  { unfold first. rewrite recordSnapshot_nonempty by exact Hne. cbv zeta.
    fold props done1. rewrite Hc1. reflexivity. }
  assert (Hprops : default (currentProperties first.1) properties = props).
  { rewrite Hfirst. reflexivity. }
  set (done2 := recordAll stamp2 clock2 0 props (done1.1.1.1, 0, 0)).
  assert (Hc2 : done2.2 = true).
  { apply recordAll_completes. apply plainIds_members. exact Hplain. }
  assert (Hsecond : second = (Tracker done2.1.1.1 (currentProperties t),
                              Value (Some (SnapshotResult stamp2 done2.1.2 done2.1.1.2)))).
  { unfold second. rewrite recordSnapshot_nonempty by (rewrite Hprops; exact Hne).
    cbv zeta. rewrite Hprops, Hfirst. cbn [fst bidHistory currentProperties].
    fold done2. rewrite Hc2. reflexivity. }
  assert (Hlook1 : forall j p, props !! j = Some p ->
            done1.1.1.1 !! auctionId p =
            Some (recordEntry stamp1 (clock1 j) p (bidHistory t !! auctionId p)).1).
  { intros j p Hj. unfold done1.
    rewrite (recordAll_lookup _ _ _ 0 _ j p Hnd Hj Hc1). reflexivity. }
  split.
  - eexists. rewrite Hsecond. split; [reflexivity|]. cbn [newChanges totalTracked]. split.
    + unfold done2. rewrite recordAll_unchanged; [reflexivity | exact Hnd |].
      intros p now Hp. apply list_elem_of_lookup in Hp as [j Hj]. cbn [fst].
      rewrite (Hlook1 j p Hj). apply recordEntry_again.
    + unfold done2. rewrite recordAll_tracked by exact Hc2. cbn [snd]. lia.
  - intros p Hp. apply list_elem_of_lookup in Hp as [j Hj].
    destruct (recordEntry_twice stamp1 (clock1 j) stamp2 (clock2 j) p (bidHistory t !! auctionId p))
      as (Hc & Hi & Hf).
    { intros ph Hph. apply (Hwf (auctionId p)). exact Hph. }
    eexists _, _. rewrite Hfirst, Hsecond. unfold metricsOf. cbn [fst bidHistory].
    unfold done2. rewrite (recordAll_lookup _ _ _ 0 _ j p Hnd Hj Hc2). cbn [fst].
    rewrite (Hlook1 j p Hj). cbn [fmap option_fmap option_map].
    split; [reflexivity|]. split; [reflexivity|].
    split; [exact Hc|]. split; [exact Hf|]. split; [exact Hi|].
    intros [ph0 Hph0]. rewrite Hph0.
    apply recordEntry_twice_tracked. apply (Hwf (auctionId p)). exact Hph0.
Qed.

Lemma second_snapshot_no_new_changes_witness :
  (exists res, Samples.thirdPass.2 = Value (Some res) /\ newChanges res = 0
               /\ totalTracked res = 1)
  /\ exists m1 m2 x1 x2,
       metricsOf Samples.secondPass.1 "250900001" = Some m1
       /\ metricsOf Samples.thirdPass.1 "250900001" = Some m2
       /\ totalChanges m2 = totalChanges m1
       /\ totalIncreasePercent m1 = Some x1 /\ totalIncreasePercent m2 = Some x2
       /\ number_eq x2 x1.
Proof.
  destruct (second_snapshot_no_new_changes Samples.day (fun _ => Samples.day)
              (2 * Samples.day) (fun _ => 2 * Samples.day) (Some [Samples.bid200])
              Samples.afterFirst
              (wellFormed_recordSnapshot _ _ _ _ wellFormed_new)
              ltac:(discriminate)
              ltac:(apply NoDup_singleton)
              ltac:(repeat constructor)) as [Hres Hmetrics].
  split; [exact Hres|].
  destruct (Hmetrics Samples.bid200 ltac:(left)) as (m1 & m2 & H1 & H2 & Hc & _ & _ & Hp).
  destruct Hp as (_ & x1 & x2 & Hx1 & Hx2 & Hx); [vm_compute; eauto|].
  exists m1, m2, x1, x2. repeat (split; [assumption|]). exact Hx.
Defined.

(** C1 as stated fails: between two recordings of the same listing set, one
    day apart, [bidVelocity] falls from 1 change a day to 1 change in 2 days,
    [lastChangeHours] moves with the clock and [competitionScore] follows
    them, although the second call reports no new change.  And for a listing
    first seen by the first call, [totalIncreasePercent] is missing after
    the first call and a number after the second. *)
Lemma second_snapshot_metrics_counterexample :
  (exists res m1 m2,
     Samples.thirdPass.2 = Value (Some res) /\ newChanges res = 0
     /\ metricsOf Samples.secondPass.1 "250900001" = Some m1
     /\ metricsOf Samples.thirdPass.1 "250900001" = Some m2
     /\ bidVelocity m1 == 1 /\ bidVelocity m2 == 1 # 2
     /\ ~ bidVelocity m2 == bidVelocity m1
     /\ lastChangeHours m1 <> lastChangeHours m2
     /\ competitionScore m1 <> competitionScore m2)
  /\ (exists n1 n2 x,
        metricsOf (recordSnapshot 0 (fun _ => 1000) (Some [Samples.bid100]) newTracker).1
          "250900001" = Some n1
        /\ metricsOf Samples.quiet "250900001" = Some n2
        /\ totalIncreasePercent n1 = None
        /\ totalIncreasePercent n2 = Some x).
Proof.
  split.
  - eexists _, _, _. split; [vm_compute; reflexivity|]. split; [reflexivity|].
    split; [vm_compute; reflexivity|]. split; [vm_compute; reflexivity|].
    cbn [bidVelocity lastChangeHours competitionScore].
    split; [reflexivity|]. split; [reflexivity|]. split; [intros H; discriminate H|].
    split; intros H; discriminate H.
  - eexists _, _, _. split; [vm_compute; reflexivity|]. split; [vm_compute; reflexivity|].
    split; reflexivity.
Qed.

(** *** The competition score *)

Lemma competitionScore_updateMetrics now ph :
  (2 <= length (history ph))%nat ->
  competitionScore (metrics (updateMetrics now ph)) =
  calculateCompetitionScore
    (PropertyHistory (historyAuctionId ph) (historyAddress ph) (historyCity ph) (history ph)
       (Metrics (totalChanges (metrics (updateMetrics now ph)))
          (bidVelocity (metrics (updateMetrics now ph)))
          (lastChangeHours (metrics (updateMetrics now ph)))
          (totalIncrease (metrics (updateMetrics now ph)))
          (totalIncreasePercent (metrics (updateMetrics now ph)))
          (firstBid (metrics ph)) (competitionScore (metrics ph)))).
Proof.
  unfold updateMetrics. destruct (history ph) as [|a [|b h]] eqn:E; cbn [length]; intros; try lia.
  reflexivity.
Qed.

Lemma updateMetrics_bidVelocity now ph first latest :
  (2 <= length (history ph))%nat ->
  head (history ph) = Some first -> last (history ph) = Some latest ->
  bidVelocity (metrics (updateMetrics now ph)) =
  let daysDiff := (inject_Z (timestamp latest - timestamp first) / inject_Z msPerDay)%Q in
  if negb (Qle_bool daysDiff 0) then (inject_Z (countChanges (history ph)) / daysDiff)%Q else 0%Q.
Proof.
  unfold updateMetrics. destruct (history ph) as [|a [|b h]]; cbn [length]; intros Hlen Hf Hl; try lia.
  rewrite Hl. injection Hf as <-. reflexivity.
Qed.

(** C4: a history with 12 changes over a span of 2 days, whose most recent
    change is 30 minutes old, whose latest bid is 60 percent above its first bid and
    which holds a snapshot recorded with a 25 percent change, gets the score
    30 + 25 + 20 + 15 + 10 = 100. *)
Theorem competitionScore_active_listing now ph first latest recent spike i b0 b1 c :
  countChanges (history ph) = 12 ->
  head (history ph) = Some first -> last (history ph) = Some latest ->
  timestamp latest - timestamp first = 2 * msPerDay ->
  history ph !! i = Some recent -> (0 < i)%nat ->
  differsAt (history ph) i = true ->
  (forall j, (i < j)%nat -> differsAt (history ph) j = false) ->
  now - timestamp recent = 30 * 60 * 1000 ->
  currentBid first = Some b0 -> currentBid latest = Some b1 ->
  (0 < b0)%Q -> ((b1 - b0) / b0 * 100 == 60)%Q ->
  spike ∈ tail (history ph) -> changePercent spike = Some (Num c) -> (c == 25)%Q ->
  competitionScore (metrics (updateMetrics now ph)) = 100.
Proof.
  intros Hcount Hfirst Hlast Hspan Hrecent Hi Hdiff Hafter Hago Hb0 Hb1 Hpos Hinc Hspike Hpct Hc.
  assert (Hlt : (i < length (history ph))%nat) by (eapply lookup_lt_Some; exact Hrecent).
  assert (Hlen : (2 <= length (history ph))%nat) by lia.
  rewrite competitionScore_updateMetrics by exact Hlen.
  rewrite updateMetrics_totalChanges by exact Hlen.
  rewrite (updateMetrics_bidVelocity now ph first latest Hlen Hfirst Hlast).
  rewrite (lastChangeHours_with_change now ph i recent Hrecent Hi Hdiff Hafter).
  rewrite (updateMetrics_totalIncreasePercent now ph first latest Hlen Hfirst Hlast).
  rewrite Hcount, Hspan, Hago, Hb0, Hb1.
  unfold calculateCompetitionScore. cbn [metrics totalChanges bidVelocity lastChangeHours totalIncreasePercent history].
  assert (Hvelocity :
    Qle_bool 5
      (if negb (Qle_bool (inject_Z (2 * msPerDay) / inject_Z msPerDay) 0)
       then (inject_Z 12 / (inject_Z (2 * msPerDay) / inject_Z msPerDay))%Q
       else 0%Q) = true) by (vm_compute; reflexivity).
  assert (Hrecency : Qle_bool (inject_Z (30 * 60 * 1000) / inject_Z msPerHour) 1 = true)
    by (vm_compute; reflexivity).
  assert (Hincrease :
    geqOpt (Some (if positive (Some b0) then percentOf (Some b1) (Some b0) else Num 0)) 50 = true).
  { cbn [positive]. destruct (Qle_bool b0 0) eqn:E.
    - apply Qle_bool_iff in E. exfalso. apply (Qlt_not_le _ _ Hpos E).
    - cbn. apply Qle_bool_iff. rewrite Hinc. discriminate. }
  assert (Hjump :
    existsb (fun s => geq (changePercentOrZero s) 20) (tail (history ph)) = true).
  { apply existsb_exists. exists spike. split; [apply list_elem_of_In; exact Hspike|].
    unfold changePercentOrZero. rewrite Hpct. unfold orZero, truthy.
    destruct (Qeq_bool c 0) eqn:E.
    - apply Qeq_bool_iff in E. rewrite Hc in E. discriminate E.
    - cbn. apply Qle_bool_iff. rewrite Hc. discriminate. }
  rewrite Hvelocity, Hrecency, Hincrease, Hjump. reflexivity.
Qed.

Lemma differsAt_beyond h j : (length h <= j)%nat -> differsAt h j = false.
Proof. intros H. unfold differsAt. rewrite (lookup_ge_None_2 h j H). reflexivity. Qed.

Lemma competitionScore_active_listing_witness :
  competitionScore (metrics (updateMetrics (48 * Samples.hour + 30 * 60 * 1000) Samples.busy)) = 100.
Proof.
  eapply (competitionScore_active_listing _ Samples.busy _ _ _ _ 12%nat).
  - vm_compute. reflexivity.
  - vm_compute. reflexivity.
  - vm_compute. reflexivity.
  - vm_compute. reflexivity.
  - vm_compute. reflexivity.
  - lia.
  - vm_compute. reflexivity.
  - intros j Hj. apply differsAt_beyond.
    replace (length (history Samples.busy)) with 13%nat by (vm_compute; reflexivity). lia.
  - vm_compute. reflexivity.
  - vm_compute. reflexivity.
  - vm_compute. reflexivity.
  - reflexivity.
  - reflexivity.
  - apply list_elem_of_lookup. exists 0%nat. vm_compute. reflexivity.
  - reflexivity.
  - reflexivity.
Defined.

(** C3 at a listing recorded twice with the same bid: no adjacent pair of
    snapshots differs, and [lastChangeHours] is the age of the latest
    snapshot, not [null]; the recency tier then adds 20 points to a listing
    without any change. *)
Theorem lastChangeHours_of_quiet_listing :
  exists ph q,
    bidHistory Samples.quiet !! "250900001" = Some ph
    /\ length (history ph) = 2%nat
    /\ countChanges (history ph) = 0
    /\ totalChanges (metrics ph) = 0
    /\ lastChangeHours (metrics ph) = Some q
    /\ q == 1 # 3600
    /\ competitionScore (metrics ph) = 20.
Proof.
  eexists _, _. split; [vm_compute; reflexivity|].
  repeat split; reflexivity.
Qed.

(** *** Bundles *)

Lemma isIndividual_bundle (b : property) :
  biddingCloses b = None \/ biddingCloses b = Some "N/A" -> isIndividual b = false.
Proof. unfold isIndividual. intros [-> | ->]; reflexivity. Qed.

Lemma loadCurrentProperties_individual file t :
  Forall (fun p => isIndividual p = true) (currentProperties (loadCurrentProperties file t)).
Proof.
  destruct file as [allProperties|]; cbn; [|constructor].
  apply Forall_forall. intros p Hp. apply list_elem_of_filter in Hp as [Hp _]. exact Hp.
Qed.

Lemma recordSnapshot_currentProperties stamp clock properties t :
  currentProperties (recordSnapshot stamp clock properties t).1 = currentProperties t.
Proof.
  unfold recordSnapshot. destruct (default (currentProperties t) properties); [reflexivity|].
  destruct (recordAll _ _ _ _ _) as [[[hs c] k] b]. reflexivity.
Qed.

Lemma recordSnapshot_other stamp clock properties t id :
  id ∉ auctionId <$> default (currentProperties t) properties ->
  bidHistory (recordSnapshot stamp clock properties t).1 !! id = bidHistory t !! id.
Proof.
  intros Hid. destruct (decide (default (currentProperties t) properties = [])) as [E|E].
  - unfold recordSnapshot. rewrite E. reflexivity.
  - rewrite recordSnapshot_nonempty by exact E. cbv zeta. cbn [fst bidHistory].
    rewrite recordAll_other by exact Hid. reflexivity.
Qed.

Lemma inputs_individual ops : forall t,
  forallb defaultArgument ops = true ->
  Forall (fun p => isIndividual p = true) (currentProperties t) ->
  Forall (fun p => isIndividual p = true) (inputs ops t).
Proof.
  induction ops as [|op rest IH]; intros t Hops Ht; [constructor|].
  cbn [forallb] in Hops. apply andb_true_iff in Hops as [Hop Hrest].
  cbn [inputs]. apply Forall_app. split.
  - destruct op as [file|stamp clock [props|]]; [constructor | discriminate | exact Ht].
  - apply IH; [exact Hrest|].
    destruct op as [file|stamp clock properties]; cbn [step].
    + apply loadCurrentProperties_individual.
    + rewrite recordSnapshot_currentProperties. exact Ht.
Qed.

Lemma run_other ops id : forall t,
  id ∉ auctionId <$> inputs ops t ->
  bidHistory (run ops t) !! id = bidHistory t !! id.
Proof.
  induction ops as [|op rest IH]; intros t Hid; [reflexivity|].
  cbn [inputs] in Hid. rewrite fmap_app in Hid. apply not_elem_of_app in Hid as [Hop Hrest].
  unfold run. cbn [fold_left]. fold (run rest (step t op)). rewrite IH by exact Hrest.
  destruct op as [file|stamp clock properties]; cbn [step].
  - destruct file; reflexivity.
  - apply recordSnapshot_other. exact Hop.
Qed.

(** C6: in every sequence of loads and recordings, [recordSnapshot] being
    called without a listing array as everywhere in the repository (so that
    it reads the loaded listings), no listing whose closing time is missing
    or ["N/A"] is among the listings recorded, every history entry that the
    sequence creates or updates is keyed by the auction id of a recorded
    listing with a closing time, and the entry under a bundle's auction id
    is left as it was unless a recorded listing carries the same id. *)
Theorem bundles_never_recorded (ops : list operation) (t : tracker) :
  forallb defaultArgument ops = true ->
  Forall (fun p => isIndividual p = true) (currentProperties t) ->
  (forall b, biddingCloses b = None \/ biddingCloses b = Some "N/A" -> b ∉ inputs ops t)
  /\ (forall id, bidHistory (run ops t) !! id <> bidHistory t !! id ->
        exists p, p ∈ inputs ops t /\ auctionId p = id /\ isIndividual p = true)
  /\ (forall b, biddingCloses b = None \/ biddingCloses b = Some "N/A" ->
        (forall p, p ∈ inputs ops t -> auctionId p <> auctionId b) ->
        bidHistory (run ops t) !! auctionId b = bidHistory t !! auctionId b).
Proof.
  intros Hops Ht. pose proof (inputs_individual ops t Hops Ht) as Hind.
  rewrite Forall_forall in Hind. split; [|split].
  - intros b Hb Hin. apply Hind in Hin. rewrite (isIndividual_bundle b Hb) in Hin. discriminate.
  - intros id Hid. destruct (decide (id ∈ auctionId <$> inputs ops t)) as [Hin|Hout].
    + apply list_elem_of_fmap in Hin as (p & -> & Hp). exists p. auto.
    + exfalso. apply Hid. apply run_other. exact Hout.
  - intros b _ Hfresh. apply run_other. intros Hin.
    apply list_elem_of_fmap in Hin as (p & Heq & Hp). apply (Hfresh p Hp). congruence.
Qed.

Lemma bundles_never_recorded_witness :
  (Samples.bundle ∉ inputs Samples.calls newTracker)
  /\ bidHistory (run Samples.calls newTracker) !! "250900500" = None.
Proof.
  destruct (bundles_never_recorded Samples.calls newTracker eq_refl ltac:(constructor))
    as (Hin & _ & Hkeep).
  split; [apply Hin; right; reflexivity|].
  apply (Hkeep Samples.bundle); [right; reflexivity|].
  intros p Hp. vm_compute in Hp. apply list_elem_of_In in Hp.
  destruct Hp as [<- | []]. discriminate.
Defined.

End BidTrackerFacts.

(** * Further properties *)

(** ** The worker's results *)

Module WorkerResults.
Import JS Worker WorkerView.

Lemma results_scrapeOne site total id :
  results (scrapeOne site total id) = option_list (listed site id).
Proof.
  unfold scrapeOne, listed.
  destruct (site id) as [msg| |d]; try reflexivity.
  destruct (negb (truthyText (auctionId d)) && negb (truthyText (address d))); [reflexivity|].
  destruct (isRemoved (status d)); reflexivity.
Qed.

Lemma results_scrapeFrom site total n : forall id,
  results (scrapeFrom site total id n) = omap (listed site) (seqZ id (Z.of_nat n)).
Proof.
  induction n as [|n IH]; intros id; [reflexivity|].
  cbn [scrapeFrom]. unfold results in *. rewrite omap_app.
  fold (results (scrapeOne site total id)). rewrite results_scrapeOne, IH.
  rewrite Nat2Z.inj_succ, (seqZ_cons id), Z.pred_succ by lia.
  cbn [omap list_omap]. destruct (listed site id); reflexivity.
Qed.

Lemma listed_Some site id l :
  listed site id = Some l ->
  exists d, site id = Loaded d /\ l = normalize id d
            /\ isRemoved (status d) = false
            /\ (truthyText (auctionId d) = true \/ truthyText (address d) = true).
Proof.
  unfold listed. destruct (site id) as [msg| |d]; try discriminate.
  destruct (truthyText (auctionId d)) eqn:Ea, (truthyText (address d)) eqn:Eb; cbn;
    destruct (isRemoved (status d)) eqn:Er; try discriminate;
    intros [= <-]; exists d; auto.
Qed.

Lemma omap_length_le {A B} (f : A -> option B) (l : list A) :
  (length (omap f l) <= length l)%nat.
Proof.
  induction l as [|x l IH]; [reflexivity|].
  cbn [omap list_omap]. destruct (f x); cbn [length]; lia.
Qed.

(** The listings a worker posts are, in ascending order of id, those of the
    ids whose page loads, shows an auction id or an address and is not marked
    removed; each carries the requested id as its [auctionId], whatever the
    page shows, and there are at most as many listings as ids. *)
Theorem results_of_run (wd : workerData) (site : Z -> pageOutcome) :
  let total := endId wd - startId wd + 1 in
  let out := runWorker wd site in
  results out = omap (listed site) (seqZ (startId wd) total)
  /\ (forall l, l ∈ results out ->
        exists id d, startId wd <= id <= endId wd /\ site id = Loaded d
                     /\ l = normalize id d
                     /\ auctionId (fields l) = Some (pretty id)
                     /\ isRemoved (status d) = false)
  /\ (length (results out) <= Z.to_nat total)%nat.
Proof.
  intros total out.
  assert (Hres : results out = omap (listed site) (seqZ (startId wd) total)).
  { unfold out, runWorker, results. cbn [omap list_omap resultOf].
    rewrite omap_app. cbn [omap list_omap resultOf]. rewrite app_nil_r.
    apply (eq_trans (results_scrapeFrom site _ _ _)).
    rewrite WorkerFacts.seqZ_to_nat. reflexivity. }
  split; [exact Hres|]. split.
  - intros l Hl. rewrite Hres in Hl.
    apply list_elem_of_omap in Hl as (id & Hid & Hlisted).
    apply elem_of_seqZ in Hid.
    apply listed_Some in Hlisted as (d & Hd & -> & Hr & _).
    exists id, d. repeat split; try assumption; unfold total in Hid; lia.
  - rewrite Hres. etransitivity; [apply omap_length_le|].
    rewrite length_seqZ. reflexivity.
Qed.

Lemma startsWith_app p rest : startsWith p (p +:+ rest) = true.
Proof.
  unfold startsWith. induction p as [|c p IH].
  - destruct rest; reflexivity.
  - change (String c p +:+ rest) with (String c (p +:+ rest)).
    cbn [String.prefix]. destruct (ascii_dec c c); [exact IH | congruence].
Qed.

Lemma includes_app pre p post : includes (pre +:+ p +:+ post) p = true.
Proof.
  induction pre as [|c pre IH].
  - change ("" +:+ p +:+ post) with (p +:+ post).
    destruct (p +:+ post) eqn:E; cbn [includes]; rewrite <- E, startsWith_app; reflexivity.
  - change (String c pre +:+ p +:+ post) with (String c (pre +:+ p +:+ post)).
    cbn [includes]. rewrite IH. apply orb_true_r.
Qed.

Lemma toLowerCase_app a b : toLowerCase (a +:+ b) = toLowerCase a +:+ toLowerCase b.
Proof.
  induction a as [|c a IH]; [reflexivity|].
  change (String c a +:+ b) with (String c (a +:+ b)).
  cbn [toLowerCase]. rewrite IH. reflexivity.
Qed.

(** A page whose status text contains the word "removed", in any mix of
    upper and lower case, yields no listing: only the progress message of its
    id is posted. *)
Theorem removed_listing_skipped site total id d pre word post :
  site id = Loaded d ->
  status d = Some (pre +:+ word +:+ post) ->
  toLowerCase word = "removed" ->
  scrapeOne site total id = [Progress id total].
Proof.
  intros Hsite Hstatus Hword. unfold scrapeOne. rewrite Hsite.
  destruct (negb (truthyText (auctionId d)) && negb (truthyText (address d))); [reflexivity|].
  assert (Hrem : isRemoved (status d) = true).
  { rewrite Hstatus. unfold isRemoved.
    rewrite !toLowerCase_app, Hword, includes_app. cbn [orb]. rewrite andb_true_r.
    destruct word as [|c word]; [discriminate Hword|].
    destruct pre; reflexivity. }
  rewrite Hrem. reflexivity.
Qed.

Lemma removed_listing_skipped_witness :
  scrapeOne (fun _ => Loaded (Cases.pageWithStatus "Property REMOVED from sale")) 5 3
  = [Progress 3 5].
Proof.
  apply (removed_listing_skipped _ 5 3 (Cases.pageWithStatus "Property REMOVED from sale")
           "Property " "REMOVED" " from sale"); reflexivity.
Defined.

End WorkerResults.

(** ** The shape of the partition and the progress counters *)

Module CoordinatorShape.
Import Coordinator Aggregation.

Lemma launchFrom_lookup (s e r : Z) n : forall i k j,
  launchFrom s e r i n !! k = Some j ->
  workerId j = i + Z.of_nat k
  /\ startId j = s + (i + Z.of_nat k) * r
  /\ endId j = Z.min (startId j + r - 1) e
  /\ startId j <= e.
Proof.
  induction n as [|n IH]; intros i k j Hk; [discriminate|].
  cbn [launchFrom] in Hk. destruct (Z.ltb_spec e (s + i * r)) as [Hpast|Hin]; [discriminate|].
  destruct k as [|k].
  - injection Hk as <-. cbn [workerId startId endId].
    rewrite Z.add_0_r. repeat split; lia.
  - cbn in Hk. destruct (IH (i + 1) k j Hk) as (Hw & Hs & He & Hle).
    rewrite Nat2Z.inj_succ. replace (i + Z.succ (Z.of_nat k)) with (i + 1 + Z.of_nat k) by lia.
    auto.
Qed.

Lemma launchFrom_length (s e r : Z) n : forall i,
  (length (launchFrom s e r i n) <= n)%nat.
Proof.
  induction n as [|n IH]; intros i; [reflexivity|].
  cbn [launchFrom]. destruct (e <? s + i * r); cbn [length]; [lia|].
  specialize (IH (i + 1)). lia.
Qed.

(** For [startId <= endId] and at least one worker: at most [workerCount]
    workers are launched, the [k]-th has index [k] and starts at
    [startId + k * rangePerWorker], none gets more than [rangePerWorker] ids,
    and every worker but the last gets exactly that many. *)
Theorem partition_balance (s e w : Z) :
  s <= e -> 1 <= w ->
  let r := rangePerWorker s e w in
  let js := partition s e w in
  (1 <= length js <= Z.to_nat w)%nat
  /\ (forall k j, js !! k = Some j ->
        workerId j = Z.of_nat k
        /\ startId j = s + Z.of_nat k * r
        /\ 1 <= endId j - startId j + 1 <= r
        /\ ((S k < length js)%nat -> endId j - startId j + 1 = r)).
Proof.
  intros Hse Hw r js.
  destruct (CoordinatorFacts.rangePerWorker_enough s e w Hse Hw) as [Hr Hn]. fold r in Hr, Hn.
  split.
  - split; [|apply launchFrom_length].
    unfold js, partition. fold r. destruct (Z.to_nat w) as [|n] eqn:E; [lia|].
    cbn [launchFrom]. rewrite (proj2 (Z.ltb_ge _ _)) by lia. cbn [length]. lia.
  - intros k j Hk. unfold js, partition in Hk. fold r in Hk.
    destruct (launchFrom_lookup _ _ _ _ _ _ _ Hk) as (Hid & Hstart & Hend & Hle).
    rewrite Z.add_0_l in Hid, Hstart.
    split; [exact Hid|]. split; [exact Hstart|]. split; [lia|].
    intros Hnext. unfold js, partition in Hnext. fold r in Hnext.
    destruct (lookup_lt_is_Some_2 _ _ Hnext) as [j' Hk'].
    destruct (launchFrom_lookup _ _ _ _ _ _ _ Hk') as (_ & Hstart' & _ & Hle').
    rewrite Nat2Z.inj_succ in Hstart'. lia.
Qed.

Lemma partition_balance_witness :
  (1 <= length (partition 0 9 4) <= 4)%nat
  /\ (forall k j, partition 0 9 4 !! k = Some j ->
        1 <= endId j - startId j + 1 <= 3).
Proof.
  destruct (partition_balance 0 9 4 ltac:(lia) ltac:(lia)) as [Hlen Hjobs].
  split; [exact Hlen|]. intros k j Hk. apply (Hjobs k j Hk).
Defined.

(** *** Sums over the workers *)

Lemma sumOver_cons {A} (f : A -> Z) x l : sumOver f (x :: l) = f x + sumOver f l.
Proof. reflexivity. Qed.

Lemma sumOver_ext {A} (f g : A -> Z) l :
  (forall x, x ∈ l -> f x = g x) -> sumOver f l = sumOver g l.
Proof.
  induction l as [|x l IH]; intros H; [reflexivity|].
  rewrite !sumOver_cons, (H x), IH; [reflexivity | | left].
  intros y Hy. apply H. right. exact Hy.
Qed.

Lemma sumCurrent_delete (m : gmap Z workerProgress) k v :
  m !! k = Some v -> sumCurrent m = sumCurrent (delete k m) + current v.
Proof.
  intros Hk. unfold sumCurrent.
  rewrite (map_fold_delete_L _ _ k v m); [reflexivity | | exact Hk].
  intros; lia.
Qed.

(** The sum of the counters of a map that holds exactly the workers of
    [js]. *)
Lemma sumCurrent_jobs (c : job -> Z) (js : list job) : forall m : gmap Z workerProgress,
  NoDup (workerId <$> js) ->
  (forall j, j ∈ js -> exists t, m !! workerId j = Some (WorkerProgress (c j) t)) ->
  (forall k, is_Some (m !! k) -> k ∈ workerId <$> js) ->
  sumCurrent m = sumOver c js.
Proof.
  induction js as [|j js IH]; intros m Hnd Hin Hdom.
  - assert (m = ∅) as ->.
    { apply map_eq. intros k. rewrite lookup_empty.
      destruct (m !! k) eqn:E; [|reflexivity].
      exfalso. pose proof (Hdom k (mk_is_Some _ _ E)) as H.
      rewrite fmap_nil in H. apply elem_of_nil in H. exact H. }
    reflexivity.
  - rewrite fmap_cons in Hnd. apply NoDup_cons in Hnd as [Hj Hnd].
    destruct (Hin j ltac:(left)) as [t Ht].
    rewrite (sumCurrent_delete m _ _ Ht), sumOver_cons. cbn [current].
    rewrite (IH (delete (workerId j) m) Hnd); [lia | |].
    + intros j' Hj'. destruct (Hin j' ltac:(right; exact Hj')) as [t' Ht'].
      exists t'. rewrite lookup_delete_ne; [exact Ht'|].
      intros Heq. apply Hj. rewrite Heq. apply list_elem_of_fmap. eauto.
    + intros k [v Hk]. destruct (decide (k = workerId j)) as [->|Hne].
      * rewrite lookup_delete_eq in Hk. discriminate.
      * rewrite lookup_delete_ne in Hk by congruence.
        pose proof (Hdom k (mk_is_Some _ _ Hk)) as H.
        rewrite fmap_cons in H. apply elem_of_cons in H as [H|H]; [congruence | exact H].
Qed.

Lemma tiles_total js : forall a e,
  tiles a js e -> sumOver (fun j => endId j - startId j + 1) js = e - a + 1.
Proof.
  induction js as [|j js IH]; intros a e Ht.
  - cbn in Ht. cbn. lia.
  - destruct Ht as (Hs & Hle & Hrest). rewrite sumOver_cons, (IH _ _ Hrest). lia.
Qed.

Lemma sumOver_le {A} (f g : A -> Z) l :
  (forall x, x ∈ l -> f x <= g x) -> sumOver f l <= sumOver g l.
Proof.
  induction l as [|x l IH]; intros H; [reflexivity|].
  rewrite !sumOver_cons. pose proof (H x ltac:(left)) as Hx.
  assert (sumOver f l <= sumOver g l) by (apply IH; intros y Hy; apply H; right; exact Hy).
  lia.
Qed.

(** *** The workers of a partition *)

Lemma partition_tiles (s e w : Z) : s <= e -> 1 <= w -> tiles s (partition s e w) e.
Proof.
  intros Hse Hw. destruct (CoordinatorFacts.rangePerWorker_enough s e w Hse Hw) as [Hr Hn].
  unfold partition. replace s with (s + 0 * rangePerWorker s e w) at 1 by lia.
  apply CoordinatorFacts.launchFrom_tiles; [exact Hr | lia |]. rewrite Z2Nat.id by lia. lia.
Qed.

Lemma partition_ids_NoDup (s e w : Z) : NoDup (workerId <$> partition s e w).
Proof.
  apply NoDup_alt. intros a b x Ha Hb.
  apply list_lookup_fmap_Some in Ha as (ja & -> & Hja).
  apply list_lookup_fmap_Some in Hb as (jb & Heq & Hjb).
  unfold partition in Hja, Hjb.
  destruct (launchFrom_lookup _ _ _ _ _ _ _ Hja) as (Hwa & _).
  destruct (launchFrom_lookup _ _ _ _ _ _ _ Hjb) as (Hwb & _).
  lia.
Qed.

Lemma same_worker (js : list job) j j' :
  NoDup (workerId <$> js) -> j ∈ js -> j' ∈ js -> workerId j = workerId j' -> j = j'.
Proof.
  intros Hnd Hj Hj' Heq.
  apply list_elem_of_lookup in Hj as [a Ha]. apply list_elem_of_lookup in Hj' as [b Hb].
  assert (a = b) as ->.
  { apply (proj1 (NoDup_alt _) Hnd a b (workerId j)); rewrite list_lookup_fmap.
    - rewrite Ha. reflexivity.
    - rewrite Hb, Heq. reflexivity. }
  congruence.
Qed.

(** *** Registration and delivery *)

Lemma register_all_total (js : list job) : forall p,
  progressTotal (fold_left register js p) = progressTotal p
  /\ completed (fold_left register js p) = completed p.
Proof.
  induction js as [|j js IH]; intros p; [split; reflexivity|].
  cbn [fold_left]. destruct (IH (register p j)) as [-> ->]. split; reflexivity.
Qed.

Lemma register_all_lookup (js : list job) : forall p,
  NoDup (workerId <$> js) ->
  (forall j, j ∈ js ->
     workersProgress (fold_left register js p) !! workerId j
     = Some (WorkerProgress 0 (endId j - startId j + 1)))
  /\ (forall k, k ∉ workerId <$> js ->
        workersProgress (fold_left register js p) !! k = workersProgress p !! k).
Proof.
  induction js as [|j js IH]; intros p Hnd.
  - split; [intros j Hj; apply elem_of_nil in Hj; contradiction | reflexivity].
  - rewrite fmap_cons in Hnd. apply NoDup_cons in Hnd as [Hj Hnd].
    destruct (IH (register p j) Hnd) as [IHin IHout]. cbn [fold_left]. split.
    + intros j' Hj'. apply elem_of_cons in Hj' as [->|Hj']; [|apply IHin; exact Hj'].
      rewrite IHout by exact Hj. cbn. apply lookup_insert_eq.
    + intros k Hk. rewrite fmap_cons in Hk. apply not_elem_of_cons in Hk as [Hne Hk].
      rewrite IHout by exact Hk. cbn. apply lookup_insert_ne. congruence.
Qed.

Lemma lastReport_snoc_same j evs j0 c :
  workerId j0 = workerId j -> lastReport j (evs ++ [(j0, c)]) = Some c.
Proof.
  intros Heq. unfold lastReport. rewrite omap_app. cbn [omap list_omap fst snd].
  rewrite decide_True by exact Heq. apply last_snoc.
Qed.

Lemma lastReport_snoc_other j evs j0 c :
  workerId j0 <> workerId j -> lastReport j (evs ++ [(j0, c)]) = lastReport j evs.
Proof.
  intros Hne. unfold lastReport. rewrite omap_app. cbn [omap list_omap fst snd].
  rewrite decide_False by exact Hne. rewrite app_nil_r. reflexivity.
Qed.

Lemma lastReport_Some j evs c :
  lastReport j evs = Some c ->
  exists j0, (j0, c) ∈ evs /\ workerId j0 = workerId j.
Proof.
  unfold lastReport. intros H.
  assert (Hin : c ∈ omap (fun ev : job * Z =>
                   if decide (workerId ev.1 = workerId j) then Some ev.2 else None) evs).
  { rewrite last_lookup in H. apply list_elem_of_lookup. eauto. }
  apply list_elem_of_omap in Hin as ([j0 c0] & Hev & Hc). cbn [fst snd] in Hc.
  destruct (decide (workerId j0 = workerId j)) as [Heq|]; [|discriminate].
  injection Hc as ->. eauto.
Qed.

(** The counters after the messages [evs], all from launched workers: each
    worker's entry holds what its last message reported, no other entry
    exists, and [completed] is the sum of the entries once a message has
    arrived. *)
Lemma deliver_state (s e w : Z) (evs : list (job * Z)) :
  (forall ev, ev ∈ evs -> ev.1 ∈ partition s e w) ->
  let p := deliver evs (launched s e w newProgress) in
  progressTotal p = e - s + 1
  /\ (forall j, j ∈ partition s e w ->
        exists t, workersProgress p !! workerId j = Some (WorkerProgress (reported j evs) t))
  /\ (forall k, is_Some (workersProgress p !! k) -> k ∈ workerId <$> partition s e w)
  /\ completed p = match evs with
                   | [] => 0
                   | _ => sumOver (fun j => reported j evs) (partition s e w)
                   end.
Proof.
  pose proof (partition_ids_NoDup s e w) as Hnd.
  induction evs as [|[j0 c] evs IH] using rev_ind; intros Hfrom p.
  - unfold p, deliver, launched. cbn [fold_left].
    destruct (register_all_total (partition s e w) (beginRange s e newProgress)) as [Ht Hc].
    destruct (register_all_lookup (partition s e w) (beginRange s e newProgress) Hnd) as [Hin Hout].
    split; [rewrite Ht; reflexivity|]. split; [|split; [|rewrite Hc; reflexivity]].
    + intros j Hj. eexists. rewrite (Hin j Hj). reflexivity.
    + intros k [v Hk]. destruct (decide (k ∈ workerId <$> partition s e w)) as [|Hout']; [assumption|].
      rewrite (Hout k Hout') in Hk. cbn in Hk. rewrite lookup_empty in Hk. discriminate.
  - assert (Hfrom' : forall ev, ev ∈ evs -> ev.1 ∈ partition s e w).
    { intros ev Hev. apply Hfrom. apply elem_of_app. left. exact Hev. }
    assert (Hj0 : j0 ∈ partition s e w).
    { apply (Hfrom (j0, c)). apply elem_of_app. right. left. }
    destruct (IH Hfrom') as (IHt & IHin & IHdom & _). clear IH.
    unfold p, deliver. rewrite fold_left_app. cbn [fold_left].
    fold (deliver evs (launched s e w newProgress)).
    set (q := deliver evs (launched s e w newProgress)) in *.
    unfold onProgress. cbn [progressTotal workersProgress completed].
    set (ws := alter _ (workerId j0) (workersProgress q)).
    assert (Hin : forall j, j ∈ partition s e w ->
              exists t, ws !! workerId j = Some (WorkerProgress (reported j (evs ++ [(j0, c)])) t)).
    { intros j Hj. destruct (IHin j Hj) as [t Ht]. unfold ws.
      destruct (decide (workerId j0 = workerId j)) as [Heq|Hne].
      - assert (j0 = j) as -> by (apply (same_worker _ _ _ Hnd Hj0 Hj Heq)).
        rewrite lookup_alter_eq, Ht. cbn. eexists.
        unfold reported. rewrite lastReport_snoc_same by reflexivity. reflexivity.
      - rewrite lookup_alter_ne by exact Hne. exists t. rewrite Ht.
        unfold reported. rewrite lastReport_snoc_other by exact Hne. reflexivity. }
    assert (Hdom : forall k, is_Some (ws !! k) -> k ∈ workerId <$> partition s e w).
    { intros k Hk. apply IHdom. unfold ws in Hk. rewrite lookup_alter in Hk.
      destruct (decide (workerId j0 = k)) as [<-|]; [|exact Hk].
      destruct (workersProgress q !! workerId j0); [eauto | destruct Hk; discriminate]. }
    split; [exact IHt|]. split; [exact Hin|]. split; [exact Hdom|].
    rewrite (sumCurrent_jobs _ _ ws Hnd Hin Hdom).
    destruct evs; reflexivity.
Qed.

(** On a new scraper, once the last progress message of every launched
    worker is the one for the last id of its range, [completed] equals
    [total], in whatever order the workers' messages were interleaved. *)
Theorem progress_complete (s e w : Z) (evs : list (job * Z)) :
  s <= e -> 1 <= w ->
  (forall ev, ev ∈ evs -> ev.1 ∈ partition s e w) ->
  (forall j, j ∈ partition s e w -> lastReport j evs = Some (endId j)) ->
  let p := deliver evs (launched s e w newProgress) in
  completed p = e - s + 1 /\ progressTotal p = e - s + 1.
Proof.
  intros Hse Hw Hfrom Hlast p.
  destruct (deliver_state s e w evs Hfrom) as (Ht & _ & _ & Hc). fold p in Ht, Hc.
  split; [|exact Ht]. rewrite Hc.
  pose proof (partition_tiles s e w Hse Hw) as Htiles.
  destruct evs as [|ev evs].
  - destruct (partition s e w) as [|j js] eqn:E; [cbn in Htiles; lia|].
    specialize (Hlast j ltac:(left)). discriminate Hlast.
  - rewrite (sumOver_ext _ (fun j => endId j - startId j + 1)).
    + rewrite (tiles_total _ _ _ Htiles). lia.
    + intros j Hj. unfold reported. rewrite (Hlast j Hj). reflexivity.
Qed.

Lemma progress_complete_witness :
  completed (deliver Cases.reports (launched 0 9 2 newProgress)) = 10
  /\ progressTotal (deliver Cases.reports (launched 0 9 2 newProgress)) = 10.
Proof.
  apply (progress_complete 0 9 2 Cases.reports); try lia.
  - intros ev Hev. apply list_elem_of_In in Hev. apply list_elem_of_In.
    vm_compute in Hev |- *. intuition (subst; auto).
  - intros j Hj. apply list_elem_of_In in Hj. vm_compute in Hj.
    destruct Hj as [<- | [<- | []]]; reflexivity.
Defined.

Lemma sumOver_zero {A} (l : list A) : sumOver (fun _ => 0) l = 0.
Proof. induction l as [|x l IH]; [reflexivity|]. rewrite sumOver_cons, IH. reflexivity. Qed.

Lemma tiles_member js : forall a e j, tiles a js e -> j ∈ js -> startId j <= endId j.
Proof.
  induction js as [|x js IH]; intros a e j Ht Hj; [apply elem_of_nil in Hj; contradiction|].
  destruct Ht as (Hs & Hle & Hrest).
  apply elem_of_cons in Hj as [->|Hj]; [lia | exact (IH _ _ _ Hrest Hj)].
Qed.

(** On a new scraper, as long as every progress message names an id of the
    range of the worker it is from, [completed] stays between 0 and
    [total]. *)
Theorem progress_bounded (s e w : Z) (evs : list (job * Z)) :
  s <= e -> 1 <= w ->
  (forall ev, ev ∈ evs -> ev.1 ∈ partition s e w /\ startId ev.1 <= ev.2 <= endId ev.1) ->
  let p := deliver evs (launched s e w newProgress) in
  0 <= completed p <= progressTotal p.
Proof.
  intros Hse Hw Hevs p.
  destruct (deliver_state s e w evs (fun ev Hev => proj1 (Hevs ev Hev))) as (Ht & _ & _ & Hc).
  fold p in Ht, Hc. rewrite Ht, Hc.
  pose proof (partition_tiles s e w Hse Hw) as Htiles.
  pose proof (partition_ids_NoDup s e w) as Hnd.
  destruct evs as [|ev evs]; [lia|].
  assert (Hrep : forall j, j ∈ partition s e w ->
            0 <= reported j (ev :: evs) <= endId j - startId j + 1).
  { intros j Hj. unfold reported. destruct (lastReport j (ev :: evs)) as [c|] eqn:E.
    - apply lastReport_Some in E as (j0 & Hin & Heq).
      destruct (Hevs _ Hin) as [Hj0 Hrange]. cbn [fst snd] in Hj0, Hrange.
      assert (j0 = j) as -> by (apply (same_worker _ _ _ Hnd Hj0 Hj Heq)). lia.
    - pose proof (tiles_member _ _ _ j Htiles Hj). lia. }
  split.
  - rewrite <- (sumOver_zero (partition s e w)). apply sumOver_le. intros j Hj. apply Hrep, Hj.
  - rewrite <- (tiles_total _ _ _ Htiles). apply sumOver_le. intros j Hj. apply Hrep, Hj.
Qed.

Lemma progress_bounded_witness :
  0 <= completed (deliver (take 4 Cases.reports) (launched 0 9 2 newProgress)) <= 10.
Proof.
  apply (progress_bounded 0 9 2 (take 4 Cases.reports)); try lia.
  intros ev Hev. apply list_elem_of_In in Hev. vm_compute in Hev.
  repeat (destruct Hev as [<- | Hev];
          [split; [apply list_elem_of_In; vm_compute; auto | cbn; lia] |]).
  destruct Hev.
Defined.

End CoordinatorShape.

(** ** Stable sorting *)

Module SortingFacts.
Import Sorting.

Section Comparator.
Context {A : Type} (before : A -> A -> bool).

Hypothesis before_asym : forall a b, before a b = true -> before b a = false.
Hypothesis notAfter_trans :
  forall a b c, notAfter before a b -> notAfter before b c -> notAfter before a c.

Lemma insertBy_perm x l : insertBy before x l ≡ₚ x :: l.
Proof.
  induction l as [|y l IH]; [reflexivity|].
  cbn [insertBy]. destruct (before y x); [|reflexivity].
  rewrite IH. apply Permutation_swap.
Qed.

Lemma sortBy_perm l : sortBy before l ≡ₚ l.
Proof.
  induction l as [|x l IH]; [reflexivity|].
  cbn [sortBy foldr]. fold (sortBy before l). rewrite insertBy_perm, IH. reflexivity.
Qed.

Lemma insertBy_sorted x l :
  StronglySorted (notAfter before) l -> StronglySorted (notAfter before) (insertBy before x l).
Proof.
  induction l as [|y l IH]; intros Hs.
  - repeat constructor.
  - apply StronglySorted_inv in Hs as [Hl Hy]. cbn [insertBy].
    destruct (before y x) eqn:E.
    + constructor; [apply IH, Hl|].
      rewrite insertBy_perm. constructor; [apply before_asym, E | exact Hy].
    + constructor; [constructor; assumption|].
      constructor; [exact E|].
      eapply Forall_impl; [exact Hy|]. intros z Hz. eapply notAfter_trans; [exact E | exact Hz].
Qed.

Lemma sortBy_sorted l : StronglySorted (notAfter before) (sortBy before l).
Proof.
  induction l as [|x l IH]; [constructor|].
  cbn [sortBy foldr]. apply insertBy_sorted, IH.
Qed.

(** The first [n] elements of the sorted list come, in the order of the
    comparator, before all the others. *)
Lemma sortBy_take_drop n l a b :
  a ∈ take n (sortBy before l) -> b ∈ drop n (sortBy before l) -> notAfter before a b.
Proof.
  intros Ha Hb. pose proof (sortBy_sorted l) as Hs.
  rewrite <- (take_drop n (sortBy before l)) in Hs.
  exact (StronglySorted_app_1_elem_of _ _ _ _ _ Hs Ha Hb).
Qed.

End Comparator.

Lemma filter_not_in_take {A} `{EqDecision A} (l : list A) n :
  NoDup l -> filter (fun x => x ∉ take n l) l = drop n l.
Proof.
  intros Hnd. rewrite <- (take_drop n l) in Hnd.
  apply NoDup_app in Hnd as (_ & Hdisj & _).
  generalize (take n l) (drop n l) (take_drop n l) Hdisj. clear.
  intros front back <- Hdisj. rewrite filter_app.
  assert (Hl : filter (fun x => x ∉ front) front = []).
  { assert (H : forall k, (forall x, x ∈ k -> x ∈ front) -> filter (fun x => x ∉ front) k = []).
    { induction k as [|y k IH]; intros Hk; [reflexivity|].
      rewrite filter_cons_False; [apply IH; intros x Hx; apply Hk; right; exact Hx|].
      intros Hy. apply Hy, Hk. left. }
    apply H. auto. }
  assert (Hr : filter (fun x => x ∉ front) back = back).
  { clear Hl. induction back as [|y r IH]; [reflexivity|].
    rewrite filter_cons_True.
    - f_equal. apply IH. intros x Hx Hr. apply (Hdisj x Hx). right. exact Hr.
    - intros Hin. apply (Hdisj y Hin). left. }
  rewrite Hl, Hr. reflexivity.
Qed.

End SortingFacts.

(** ** Pruning the snapshot files *)

Module SnapshotFiles.
Import JS Sorting Queries SortingFacts.

Lemma ltb_asym (a b : string) : String.ltb a b = true -> String.ltb b a = false.
Proof.
  unfold String.ltb. rewrite (String.compare_antisym b a).
  destruct (String.compare a b); cbn; congruence.
Qed.

Lemma notAfter_le (a b : string) : notAfter String.ltb a b <-> String.le a b.
Proof.
  unfold notAfter, String.le, String.ltb, String.leb.
  rewrite (String.compare_antisym b a).
  destruct (String.compare a b); cbn; intuition (try congruence; try exact I; try contradiction).
Qed.

Lemma notAfter_ltb_trans (a b c : string) :
  notAfter String.ltb a b -> notAfter String.ltb b c -> notAfter String.ltb a c.
Proof. rewrite !notAfter_le. intros H1 H2. etransitivity; eassumption. Qed.

Lemma sorted_snapshots files :
  sortBy String.ltb (filter (fun f => isSnapshot f = true) files)
  ≡ₚ filter (fun f => isSnapshot f = true) files.
Proof. apply sortBy_perm. Qed.

Lemma toDelete_spec files :
  let sorted := sortBy String.ltb (filter (fun f => isSnapshot f = true) files) in
  (length sorted <= 100 /\ toDelete files = [])%nat
  \/ (100 < length sorted /\ toDelete files = take (length sorted - 100) sorted)%nat.
Proof.
  intros sorted. unfold toDelete. fold sorted.
  destruct (Nat.ltb_spec 100 (length sorted)); [right | left]; auto.
Qed.

Lemma toDelete_snapshot files d :
  d ∈ toDelete files -> isSnapshot d = true /\ d ∈ files.
Proof.
  intros Hd.
  assert (Hin : d ∈ sortBy String.ltb (filter (fun f => isSnapshot f = true) files)).
  { destruct (toDelete_spec files) as [[_ H]|[_ H]]; rewrite H in Hd.
    - apply elem_of_nil in Hd. contradiction.
    - exact (subseteq_take _ _ _ Hd). }
  rewrite sorted_snapshots in Hin. apply list_elem_of_filter in Hin. exact Hin.
Qed.

Lemma filter_not_in_nil {A} `{EqDecision A} (l : list A) : filter (fun x => x ∉ []) l = l.
Proof.
  induction l as [|x l IH]; [reflexivity|].
  rewrite filter_cons_True by apply not_elem_of_nil. rewrite IH. reflexivity.
Qed.

(** In a directory of distinct names, [cleanOldSnapshots] leaves every file
    whose name does not start with ["snapshot-"], removes nothing when there
    are at most 100 snapshot files, and otherwise leaves exactly 100 of them:
    every removed name is a snapshot name that sorts before each snapshot
    name left. *)
Theorem cleanOldSnapshots_keeps_newest (files : list string) :
  NoDup files ->
  let kept := cleanOldSnapshots files in
  let n := length (filter (fun f => isSnapshot f = true) files) in
  (forall f, isSnapshot f = false -> f ∈ files -> f ∈ kept)
  /\ (forall f, f ∈ kept -> f ∈ files)
  /\ length (filter (fun f => isSnapshot f = true) kept) = Nat.min n 100
  /\ (forall d k, d ∈ files -> d ∉ kept -> k ∈ kept -> isSnapshot k = true ->
        isSnapshot d = true /\ String.le d k)
  /\ ((n <= 100)%nat -> kept = files).
Proof.
  intros Hnd kept n.
  set (sorted := sortBy String.ltb (filter (fun f => isSnapshot f = true) files)).
  assert (Hperm : sorted ≡ₚ filter (fun f => isSnapshot f = true) files) by apply sorted_snapshots.
  assert (Hlen : length sorted = n) by (unfold n; rewrite Hperm; reflexivity).
  assert (Hnds : NoDup sorted) by (rewrite Hperm; apply NoDup_filter, Hnd).
  assert (Hkept : filter (fun f => isSnapshot f = true) kept
                  ≡ₚ filter (fun f => f ∉ toDelete files) sorted).
  { unfold kept, cleanOldSnapshots. rewrite Hperm.
    rewrite !list_filter_filter.
    erewrite list_filter_iff; [reflexivity|]. intros x. cbn. tauto. }
  pose proof (toDelete_spec files) as Hspec. cbv zeta in Hspec. fold sorted in Hspec.
  split; [|split; [|split; [|split]]].
  - intros f Hf Hin. unfold kept, cleanOldSnapshots. apply list_elem_of_filter. split; [|exact Hin].
    intros Hd. apply toDelete_snapshot in Hd as [Hs _]. congruence.
  - intros f Hf. unfold kept, cleanOldSnapshots in Hf. apply list_elem_of_filter in Hf. tauto.
  - rewrite Hkept. destruct Hspec as [[Hle ->]|[Hgt ->]].
    + rewrite filter_not_in_nil. lia.
    + rewrite filter_not_in_take by exact Hnds. rewrite length_drop. lia.
  - intros d k Hd Hdk Hk Hks.
    assert (Hdel : d ∈ toDelete files).
    { destruct (decide (d ∈ toDelete files)) as [|Hno]; [assumption|].
      exfalso. apply Hdk. unfold kept, cleanOldSnapshots. apply list_elem_of_filter. auto. }
    split; [apply (toDelete_snapshot files d Hdel)|].
    unfold kept, cleanOldSnapshots in Hk. apply list_elem_of_filter in Hk as [Hnk Hkf].
    destruct Hspec as [[_ H]|[_ H]]; rewrite H in Hdel, Hnk.
    + apply elem_of_nil in Hdel. contradiction.
    + assert (Hks' : k ∈ sorted) by (rewrite Hperm; apply list_elem_of_filter; auto).
      rewrite <- (take_drop (length sorted - 100) sorted) in Hks'.
      apply elem_of_app in Hks' as [Hk'|Hk']; [contradiction|].
      apply notAfter_le.
      exact (sortBy_take_drop String.ltb ltb_asym notAfter_ltb_trans _ _ d k Hdel Hk').
  - intros Hn. unfold kept, cleanOldSnapshots.
    destruct Hspec as [[_ ->]|[Hgt _]]; [|lia].
    apply filter_not_in_nil.
Qed.

Lemma cleanOldSnapshots_keeps_newest_witness :
  length (filter (fun f => isSnapshot f = true) (cleanOldSnapshots Cases.directory))
  = Nat.min (length (filter (fun f => isSnapshot f = true) Cases.directory)) 100
  /\ "bid-history.json" ∈ cleanOldSnapshots Cases.directory.
Proof.
  destruct (cleanOldSnapshots_keeps_newest Cases.directory) as (Hother & _ & Hcount & _).
  - apply (bool_decide_unpack (NoDup Cases.directory)). vm_compute. exact I.
  - split; [exact Hcount | apply Hother; [reflexivity | left]].
Defined.

End SnapshotFiles.

(** ** What the tracker maintains *)

Module TrackerInvariants.
Import JS BidTracker Invariants.

Section Preservation.
Variable P : propertyHistory -> Prop.
Hypothesis P_recordEntry :
  forall stamp now p entry,
    (forall ph, entry = Some ph -> P ph) -> P (recordEntry stamp now p entry).1.

Lemma recordAll_preserves stamp clock props : forall i acc,
  (forall id ph, acc.1.1 !! id = Some ph -> P ph) ->
  forall id ph, (recordAll stamp clock i props acc).1.1.1 !! id = Some ph -> P ph.
Proof.
  induction props as [|p rest IH]; intros i acc Hacc; [exact Hacc|].
  cbn [recordAll]. destruct (recordProperty stamp (clock i) p acc) as [acc'|] eqn:E;
    [|exact Hacc].
  apply IH. intros id ph.
  destruct (decide (auctionId p = id)) as [<-|Hne].
  - rewrite (BidTrackerFacts.recordProperty_same _ _ _ _ _ E). intros [= <-].
    apply P_recordEntry. intros ph0 Hph0. exact (Hacc _ _ Hph0).
  - rewrite (BidTrackerFacts.recordProperty_other _ _ _ _ _ _ E Hne). apply Hacc.
Qed.

Lemma recordSnapshot_preserves stamp clock properties t :
  (forall id ph, bidHistory t !! id = Some ph -> P ph) ->
  forall id ph, bidHistory (recordSnapshot stamp clock properties t).1 !! id = Some ph -> P ph.
Proof.
  intros Ht. destruct (decide (default (currentProperties t) properties = [])) as [E|E].
  - unfold recordSnapshot. rewrite E. exact Ht.
  - rewrite BidTrackerFacts.recordSnapshot_nonempty by exact E. cbv zeta. cbn [fst bidHistory].
    apply recordAll_preserves. exact Ht.
Qed.

Lemma run_preserves ops : forall t,
  (forall id ph, bidHistory t !! id = Some ph -> P ph) ->
  forall id ph, bidHistory (run ops t) !! id = Some ph -> P ph.
Proof.
  induction ops as [|op rest IH]; intros t Ht; [exact Ht|].
  unfold run. cbn [fold_left]. apply IH.
  destruct op as [file|stamp clock properties]; cbn [step].
  - destruct file; exact Ht.
  - apply recordSnapshot_preserves. exact Ht.
Qed.

End Preservation.

Lemma recordEntry_maintained stamp now p entry :
  (forall ph, entry = Some ph -> maintained ph) -> maintained (recordEntry stamp now p entry).1.
Proof.
  intros Hentry.
  destruct (BidTrackerFacts.recordEntry_unfold stamp now p entry) as (s & He & Hs).
  cbv zeta in He. set (ph := default (initialHistory p) entry) in *.
  assert (Hh : history (recordEntry stamp now p entry).1 = history ph ++ [s])
    by (rewrite He, BidTrackerFacts.updateMetrics_history; reflexivity).
  unfold maintained. rewrite Hh. split; [|split].
  - intros H. apply app_eq_nil in H as [_ H]. discriminate.
  - rewrite length_app. cbn [length]. intros Hlen.
    assert (Hnil : history ph = []) by (destruct (history ph); [reflexivity | cbn in Hlen; lia]).
    destruct entry as [ph0|].
    + exfalso. apply (proj1 (Hentry ph0 eq_refl)). exact Hnil.
    + rewrite He. rewrite BidTrackerFacts.updateMetrics_short by (cbn [history]; rewrite Hnil; cbn; lia).
      reflexivity.
  - intros _. eexists _, _. exact He.
Qed.

Lemma run_maintained ops : allMaintained (run ops newTracker).
Proof.
  unfold allMaintained. apply (run_preserves maintained recordEntry_maintained).
  intros id ph H. cbn in H. rewrite lookup_empty in H. discriminate.
Qed.

(** *** Bounds *)

Lemma countAfter_bounds rest : forall prev,
  0 <= countAfter prev rest <= Z.of_nat (length rest).
Proof.
  induction rest as [|s rest IH]; intros prev; [cbn; lia|].
  cbn [countAfter length]. specialize (IH s). destruct (differs s prev); lia.
Qed.

Lemma countChanges_bounds h :
  h <> [] -> 0 <= countChanges h <= Z.of_nat (length h) - 1.
Proof.
  destruct h as [|s rest]; [congruence|]. intros _.
  cbn [countChanges length]. pose proof (countAfter_bounds rest s). lia.
Qed.

Lemma calculateCompetitionScore_bounds ph : 0 <= calculateCompetitionScore ph <= 100.
Proof.
  unfold calculateCompetitionScore. cbv zeta.
  match goal with
  | |- 0 <= Z.min (?a + ?b + ?c + ?d + ?e) 100 <= 100 =>
      assert (0 <= a <= 30) by (repeat case_match; lia);
      assert (0 <= b <= 25) by (repeat case_match; lia);
      assert (0 <= c <= 20) by (repeat case_match; lia);
      assert (0 <= d <= 15) by (repeat case_match; lia);
      assert (0 <= e <= 10) by (repeat case_match; lia)
  end.
  lia.
Qed.

Lemma velocity_nonneg (changes : Z) (daysDiff : Q) :
  0 <= changes ->
  (0 <= (if negb (Qle_bool daysDiff 0) then inject_Z changes / daysDiff else 0))%Q.
Proof.
  intros Hc. destruct (Qle_bool daysDiff 0) eqn:E; cbn [negb]; [apply Qle_refl|].
  assert (Hd : (0 < daysDiff)%Q).
  { apply Qnot_le_lt. intros H. apply Qle_bool_iff in H. congruence. }
  apply Qle_shift_div_l; [exact Hd|]. rewrite Qmult_0_l.
  change (inject_Z 0 <= inject_Z changes)%Q. rewrite <- Zle_Qle. exact Hc.
Qed.

(** What follows for a maintained history. *)
Lemma maintained_metrics ph :
  maintained ph ->
  totalChanges (metrics ph) = countChanges (history ph)
  /\ 0 <= totalChanges (metrics ph) <= Z.of_nat (length (history ph)) - 1
  /\ 0 <= competitionScore (metrics ph) <= 100
  /\ (0 <= bidVelocity (metrics ph))%Q.
Proof.
  intros (Hne & Hone & Hmore).
  assert (Hcount : totalChanges (metrics ph) = countChanges (history ph)
                   /\ 0 <= competitionScore (metrics ph) <= 100
                   /\ (0 <= bidVelocity (metrics ph))%Q).
  { destruct (history ph) as [|a [|b h]] eqn:Eh; [congruence | |].
    - rewrite (Hone eq_refl). cbn. repeat split; try lia. apply Qle_refl.
    - destruct (Hmore ltac:(cbn; lia)) as (now & ph0 & Hph).
      assert (Hh0 : history ph0 = a :: b :: h)
        by (rewrite <- Eh, Hph, BidTrackerFacts.updateMetrics_history; reflexivity).
      assert (Hlen : (2 <= length (history ph0))%nat) by (rewrite Hh0; cbn; lia).
      rewrite Hph. split; [|split].
      + rewrite BidTrackerFacts.updateMetrics_totalChanges by exact Hlen.
        rewrite Hh0. reflexivity.
      + rewrite BidTrackerFacts.competitionScore_updateMetrics by exact Hlen.
        apply calculateCompetitionScore_bounds.
      + destruct (last (history ph0)) as [l|] eqn:El;
          [|apply last_None in El; rewrite Hh0 in El; discriminate].
        rewrite (BidTrackerFacts.updateMetrics_bidVelocity now ph0 a l Hlen
                   ltac:(rewrite Hh0; reflexivity) El).
        apply velocity_nonneg. apply countChanges_bounds. rewrite Hh0. discriminate. }
  destruct Hcount as (Hc & Hs & Hv).
  split; [exact Hc|]. split; [|split; assumption].
  rewrite Hc. apply countChanges_bounds, Hne.
Qed.

(** Whatever sequence of loads and recordings a new tracker goes through,
    every history it stores holds at least one snapshot, its [totalChanges]
    is the number of adjacent snapshots with different bids (so it lies
    between 0 and the number of snapshots minus one), its [competitionScore]
    lies between 0 and 100, and its [bidVelocity] is not negative. *)
Theorem stored_metrics_bounds (ops : list operation) (id : string) :
  match bidHistory (run ops newTracker) !! id with
  | Some ph =>
      history ph <> []
      /\ totalChanges (metrics ph) = countChanges (history ph)
      /\ 0 <= totalChanges (metrics ph) <= Z.of_nat (length (history ph)) - 1
      /\ 0 <= competitionScore (metrics ph) <= 100
      /\ (0 <= bidVelocity (metrics ph))%Q
  | None => True
  end.
Proof.
  destruct (bidHistory (run ops newTracker) !! id) as [ph|] eqn:E; [|exact I].
  pose proof (run_maintained ops id ph E) as Hm.
  split; [exact (proj1 Hm) | exact (maintained_metrics ph Hm)].
Qed.

(** *** Histories only grow *)

Lemma updateMetrics_identity now ph :
  historyAuctionId (updateMetrics now ph) = historyAuctionId ph
  /\ historyAddress (updateMetrics now ph) = historyAddress ph
  /\ historyCity (updateMetrics now ph) = historyCity ph.
Proof. unfold updateMetrics. destruct (history ph) as [|? [|? ?]]; repeat split. Qed.

Lemma extends_refl ph : extends ph ph.
Proof. repeat split; reflexivity. Qed.

Lemma extends_trans a b c : extends a b -> extends b c -> extends a c.
Proof.
  intros (H1 & H2 & H3 & H4 & H5) (K1 & K2 & K3 & K4 & K5).
  repeat split; try congruence. etransitivity; eassumption.
Qed.

Lemma recordEntry_extends stamp now p ph :
  extends ph (recordEntry stamp now p (Some ph)).1.
Proof.
  destruct (BidTrackerFacts.recordEntry_unfold stamp now p (Some ph)) as (s & He & _).
  cbv zeta in He. cbn [from_option id] in He.
  destruct (updateMetrics_identity now
              (PropertyHistory (historyAuctionId ph) (historyAddress ph) (historyCity ph)
                 (history ph ++ [s]) (metrics ph))) as (Hi & Ha & Hc).
  unfold extends. rewrite BidTrackerFacts.recordEntry_firstBid.
  rewrite He, BidTrackerFacts.updateMetrics_history, Hi, Ha, Hc. cbn.
  repeat split. apply prefix_app_r. reflexivity.
Qed.

Lemma recordAll_extends stamp clock props : forall i acc id ph,
  acc.1.1 !! id = Some ph ->
  exists ph', (recordAll stamp clock i props acc).1.1.1 !! id = Some ph' /\ extends ph ph'.
Proof.
  induction props as [|p rest IH]; intros i acc id ph Hph.
  - exists ph. split; [exact Hph | apply extends_refl].
  - cbn [recordAll]. destruct (recordProperty stamp (clock i) p acc) as [acc'|] eqn:E.
    + destruct (decide (auctionId p = id)) as [<-|Hne].
      * destruct (IH (S i) acc' (auctionId p)
                    (recordEntry stamp (clock i) p (Some ph)).1) as (ph' & Hph' & Hext).
        { rewrite (BidTrackerFacts.recordProperty_same _ _ _ _ _ E), Hph. reflexivity. }
        exists ph'. split; [exact Hph'|].
        eapply extends_trans; [apply recordEntry_extends | exact Hext].
      * apply IH. rewrite (BidTrackerFacts.recordProperty_other _ _ _ _ _ _ E Hne). exact Hph.
    + exists ph. split; [exact Hph | apply extends_refl].
Qed.

(** A stored history is never dropped or rewritten: after any sequence of
    loads and recordings the history of the same auction id starts with the
    snapshots it held before, in the same order, and keeps its address, city
    and seed [firstBid]. *)
Theorem histories_append_only (ops : list operation) (t : tracker) (id : string) ph :
  bidHistory t !! id = Some ph ->
  exists ph', bidHistory (run ops t) !! id = Some ph'
              /\ history ph `prefix_of` history ph'
              /\ firstBid (metrics ph') = firstBid (metrics ph)
              /\ historyAddress ph' = historyAddress ph
              /\ historyCity ph' = historyCity ph.
Proof.
  intros Hph.
  assert (H : exists ph', bidHistory (run ops t) !! id = Some ph' /\ extends ph ph').
  { revert t ph Hph. induction ops as [|op rest IH]; intros t ph Hph.
    - exists ph. split; [exact Hph | apply extends_refl].
    - unfold run. cbn [fold_left]. fold (run rest (step t op)).
      assert (Hstep : exists ph1, bidHistory (step t op) !! id = Some ph1 /\ extends ph ph1).
      { destruct op as [file|stamp clock properties]; cbn [step].
        - exists ph. split; [destruct file; exact Hph | apply extends_refl].
        - destruct (decide (default (currentProperties t) properties = [])) as [E|E].
          + unfold recordSnapshot. rewrite E. exists ph. split; [exact Hph | apply extends_refl].
          + rewrite BidTrackerFacts.recordSnapshot_nonempty by exact E. cbv zeta. cbn [fst bidHistory].
            apply recordAll_extends. exact Hph. }
      destruct Hstep as (ph1 & Hph1 & Hext1).
      destruct (IH _ _ Hph1) as (ph' & Hph' & Hext').
      exists ph'. split; [exact Hph' | eapply extends_trans; eassumption]. }
  destruct H as (ph' & Hph' & Hp & Hf & _ & Ha & Hc). exists ph'. auto.
Qed.

Lemma histories_append_only_witness :
  exists ph ph',
    bidHistory Samples.afterFirst !! "250900001" = Some ph
    /\ bidHistory Samples.thirdPass.1 !! "250900001" = Some ph'
    /\ history ph `prefix_of` history ph'.
Proof.
  assert (H : exists ph, bidHistory Samples.afterFirst !! "250900001" = Some ph)
    by (vm_compute; eexists; reflexivity).
  destruct H as [ph Hph].
  destruct (histories_append_only
              [RecordSnapshot Samples.day (fun _ => Samples.day) (Some [Samples.bid200]);
               RecordSnapshot (2 * Samples.day) (fun _ => 2 * Samples.day) (Some [Samples.bid200])]
              Samples.afterFirst "250900001" ph Hph) as (ph' & Hph' & Hprefix & _).
  exists ph, ph'. split; [exact Hph | split; [exact Hph' | exact Hprefix]].
Defined.

(** *** What [recordSnapshot] returns *)

Lemma recordAll_changed_bounds stamp clock props : forall i acc,
  acc.1.2 <= (recordAll stamp clock i props acc).1.1.2 <= acc.1.2 + Z.of_nat (length props).
Proof.
  induction props as [|p rest IH]; intros i acc; [cbn; lia|].
  cbn [recordAll length]. destruct (recordProperty stamp (clock i) p acc) as [acc'|] eqn:E;
    [|cbn [fst]; lia].
  specialize (IH (S i) acc').
  destruct (BidTrackerFacts.recordProperty_Value _ _ _ _ _ E) as (_ & _ & Hc & _).
  destruct (recordEntry stamp (clock i) p (acc.1.1 !! auctionId p)).2; lia.
Qed.

Lemma recordAll_all_new stamp clock props : forall i acc,
  NoDup (auctionId <$> props) ->
  (forall p, p ∈ props -> acc.1.1 !! auctionId p = None) ->
  (recordAll stamp clock i props acc).2 = true ->
  (recordAll stamp clock i props acc).1.1.2 = acc.1.2 + Z.of_nat (length props).
Proof.
  induction props as [|p rest IH]; intros i acc Hnd Hnew; [cbn; lia|].
  rewrite fmap_cons in Hnd. apply NoDup_cons in Hnd as [Hp Hnd].
  cbn [recordAll length]. destruct (recordProperty stamp (clock i) p acc) as [acc'|] eqn:E;
    [|discriminate]. intros Hdone.
  rewrite IH; [|exact Hnd| |exact Hdone].
  - destruct (BidTrackerFacts.recordProperty_Value _ _ _ _ _ E) as (_ & _ & -> & _).
    rewrite (Hnew p ltac:(left)), BidTrackerFacts.recordEntry_hasChanged. cbn [from_option id].
    cbn. lia.
  - intros q Hq. rewrite (BidTrackerFacts.recordProperty_other _ _ _ _ _ (auctionId q) E).
    + apply Hnew. right. exact Hq.
    + intros Heq. apply Hp. rewrite Heq. apply list_elem_of_fmap. eauto.
Qed.

(** [recordSnapshot] returns nothing and changes nothing when it has no
    listing to record.  Otherwise it raises exactly when the lookup of the
    auction id of some listing gives an inherited member (no history is
    stored under the id, and the id is a name such as [constructor]); when
    no lookup does, it returns the instant of the call, the number of
    listings as [totalTracked], and a [newChanges] between 0 and
    [totalTracked]; on listings with distinct auction ids none of which has
    a history yet, every listing counts as a change. *)
Theorem recordSnapshot_counts stamp clock properties (t : tracker) :
  let props := default (currentProperties t) properties in
  let out := recordSnapshot stamp clock properties t in
  (props = [] -> out = (t, Value None))
  /\ (props <> [] ->
      (out.2 = TypeError <->
       exists p, p ∈ props /\ inheritedMember (bidHistory t) (auctionId p) = true)
      /\ ((forall p, p ∈ props -> inheritedMember (bidHistory t) (auctionId p) = false) ->
          exists res, out.2 = Value (Some res) /\ resultTimestamp res = stamp
                      /\ totalTracked res = Z.of_nat (length props)
                      /\ 0 <= newChanges res <= totalTracked res
                      /\ (NoDup (auctionId <$> props) ->
                          (forall p, p ∈ props -> bidHistory t !! auctionId p = None) ->
                          newChanges res = totalTracked res))).
Proof.
  intros props out. split.
  - intros E. unfold out, recordSnapshot. fold props. rewrite E. reflexivity.
  - intros E. unfold out. rewrite BidTrackerFacts.recordSnapshot_nonempty by exact E.
    cbv zeta. fold props. cbn [snd].
    pose proof (BidTrackerFacts.recordAll_raises stamp clock props 0 (bidHistory t, 0, 0)) as Hr.
    cbn [fst] in Hr. split.
    + rewrite <- Hr.
      destruct (recordAll stamp clock 0 props (bidHistory t, 0, 0)).2;
        split; intros H; congruence.
    + intros Hplain.
      assert (Hdone : (recordAll stamp clock 0 props (bidHistory t, 0, 0)).2 = true)
        by (apply BidTrackerFacts.recordAll_completes; exact Hplain).
      rewrite Hdone. eexists. split; [reflexivity|].
      cbn [resultTimestamp totalTracked newChanges].
      pose proof (recordAll_changed_bounds stamp clock props 0 (bidHistory t, 0, 0)) as Hb.
      rewrite BidTrackerFacts.recordAll_tracked by exact Hdone. cbn [fst snd] in *.
      split; [reflexivity|]. split; [lia|]. split; [lia|].
      intros Hnd Hnew. rewrite recordAll_all_new by assumption. cbn. lia.
Qed.

End TrackerInvariants.

(** ** The queries *)

Module QueryFacts.
Import JS BidTracker Sorting Queries Invariants TrackerInvariants.

Lemma positive_true (q : Q) : negb (Qle_bool q 0) = true -> (0 < q)%Q.
Proof.
  intros H. apply Qnot_le_lt. intros Hle. apply Qle_bool_iff in Hle.
  rewrite Hle in H. discriminate.
Qed.

Lemma round_bid (b : Q) : round (ofBid (Some b)) = Num (inject_Z (Qfloor (b + (1 # 2)))).
Proof. reflexivity. Qed.

(** The projection of [predictFutureActivity] adds a non-negative amount to
    the latest bid. *)
Lemma projection_nonneg (b f v : Q) (k : Z) :
  (0 < f)%Q -> (0 < (b - f) / f * 100)%Q -> (0 < v)%Q -> 1 <= k ->
  (b + (1 # 2) <= b + (b - f) * / inject_Z k * v * 3 + (1 # 2))%Q.
Proof.
  intros Hf Hp Hv Hk.
  assert (Hd : (0 <= b - f)%Q).
  { destruct (Qlt_le_dec (b - f) 0) as [Hneg|]; [|assumption].
    exfalso. pose proof (Qinv_lt_0_compat f Hf) as Hi.
    unfold Qdiv in Hp. set (d := (b - f)%Q) in *. set (i := (/ f)%Q) in *.
    nra. }
  assert (Hik : (0 <= / inject_Z k)%Q).
  { apply Qinv_le_0_compat. change 0%Q with (inject_Z 0). rewrite <- Zle_Qle. lia. }
  assert (Hx : (0 <= (b - f) * / inject_Z k * v * 3)%Q).
  { repeat apply Qmult_le_0_compat; try assumption; [apply Qlt_le_weak, Hv | discriminate]. }
  lra.
Qed.

Lemma lastN_suffix {A} n (l : list A) :
  lastN n l `suffix_of` l /\ length (lastN n l) = Nat.min n (length l).
Proof.
  unfold lastN. split; [apply suffix_drop|]. rewrite length_drop. lia.
Qed.

(** On a maintained history [predictFutureActivity] returns, and its
    estimate is the rounding of an amount that is at least the latest bid. *)
Lemma prediction_of_maintained ph :
  maintained ph ->
  exists pr latest,
    predictFutureActivity ph = Value pr /\ last (history ph) = Some latest
    /\ riskOfBiddingWar pr = (60 <=? competitionScore (metrics ph))
    /\ (forall b, currentBid latest = Some b ->
          exists z, estimatedFinalPrice pr = Num (inject_Z z) /\ Qfloor (b + (1 # 2)) <= z).
Proof.
  intros (Hne & Hone & Hmore).
  destruct (last (history ph)) as [latest|] eqn:El; [|apply last_None in El; congruence].
  unfold predictFutureActivity. rewrite El. eexists _, latest.
  split; [reflexivity|]. split; [reflexivity|]. split; [reflexivity|].
  intros b Hb. cbn [estimatedFinalPrice]. rewrite Hb.
  destruct (negb (Qle_bool (bidVelocity (metrics ph)) 0)
            && positiveOpt (totalIncreasePercent (metrics ph))) eqn:Econd;
    [|eexists; split; [apply round_bid | reflexivity]].
  apply andb_true_iff in Econd as [Hv Hp]. apply positive_true in Hv.
  destruct (history ph) as [|a [|c h]] eqn:Eh; [congruence | |].
  - exfalso. rewrite (Hone eq_refl) in Hp. discriminate Hp.
  - destruct (Hmore ltac:(cbn; lia)) as (now & ph0 & Hph).
    assert (Hh0 : history ph0 = a :: c :: h)
      by (rewrite <- Eh, Hph, BidTrackerFacts.updateMetrics_history; reflexivity).
    assert (Hlen : (2 <= length (history ph0))%nat) by (rewrite Hh0; cbn; lia).
    assert (Hl0 : last (history ph0) = Some latest) by (rewrite Hh0; exact El).
    assert (Hf0 : head (history ph0) = Some a) by (rewrite Hh0; reflexivity).
    assert (Hinc : totalIncrease (metrics ph) = sub (Some b) (currentBid a)).
    { rewrite Hph, (BidTrackerFacts.updateMetrics_totalIncrease now ph0 a latest Hlen Hf0 Hl0), Hb.
      reflexivity. }
    assert (Hpct : totalIncreasePercent (metrics ph) =
                   Some (if positive (currentBid a) then percentOf (Some b) (currentBid a) else Num 0)).
    { rewrite Hph, (BidTrackerFacts.updateMetrics_totalIncreasePercent now ph0 a latest Hlen Hf0 Hl0), Hb.
      reflexivity. }
    rewrite Hpct in Hp. rewrite Hinc.
    destruct (currentBid a) as [f|]; [|discriminate Hp].
    cbn [positive] in Hp. destruct (negb (Qle_bool f 0)) eqn:Ef; [|discriminate Hp].
    apply positive_true in Ef. cbn [percentOf positiveOpt] in Hp. apply positive_true in Hp.
    cbn [sub times plus round]. eexists. split; [reflexivity|].
    apply Qfloor_resp_le. apply projection_nonneg; try assumption. lia.
Qed.

(** A tracker that started empty stores nothing under the name of an
    inherited member: an iteration of [recordSnapshot] for such an id raises
    before it writes. *)
Lemma recordAll_no_inherited stamp clock props : forall i acc,
  (forall id, inherited id = true -> acc.1.1 !! id = None) ->
  forall id, inherited id = true -> (recordAll stamp clock i props acc).1.1.1 !! id = None.
Proof.
  induction props as [|p rest IH]; intros i acc Hacc; [exact Hacc|].
  cbn [recordAll]. destruct (recordProperty stamp (clock i) p acc) as [acc'|] eqn:E;
    [|exact Hacc].
  apply IH. intros id Hid.
  destruct (BidTrackerFacts.recordProperty_Value _ _ _ _ _ E) as (Hm & _).
  destruct (decide (auctionId p = id)) as [Heq|Hne].
  - exfalso. subst id. unfold inheritedMember in Hm.
    rewrite (Hacc _ Hid), Hid in Hm. discriminate.
  - rewrite (BidTrackerFacts.recordProperty_other _ _ _ _ _ _ E Hne). apply Hacc, Hid.
Qed.

Lemma run_no_inherited ops : forall t,
  (forall id, inherited id = true -> bidHistory t !! id = None) ->
  forall id, inherited id = true -> bidHistory (run ops t) !! id = None.
Proof.
  induction ops as [|op rest IH]; intros t Ht; [exact Ht|].
  unfold run. cbn [fold_left]. apply IH.
  destruct op as [file|stamp clock properties]; cbn [step].
  - destruct file; exact Ht.
  - destruct (decide (default (currentProperties t) properties = [])) as [E|E].
    + unfold recordSnapshot. rewrite E. exact Ht.
    + rewrite BidTrackerFacts.recordSnapshot_nonempty by exact E. cbv zeta. cbn [fst bidHistory].
      apply recordAll_no_inherited. exact Ht.
Qed.

(** On a tracker that started empty, [getPropertyCompetition] raises exactly
    for the names of inherited members (under which nothing is ever stored):
    it returns [null] for any other id without history, and for a tracked id
    a record whose level is cut from the stored score, whose recent history
    is the last 10 snapshots (all of them when there are fewer), and whose
    estimated final price is never below the rounding of the latest bid. *)
Theorem competition_of_tracked (ops : list operation) (id : string) :
  let t := run ops newTracker in
  (getPropertyCompetition id t = TypeError <-> inherited id = true)
  /\ (bidHistory t !! id = None -> inherited id = false ->
      getPropertyCompetition id t = Value None)
  /\ (forall ph, bidHistory t !! id = Some ph ->
        exists c latest,
          getPropertyCompetition id t = Value (Some c)
          /\ last (history ph) = Some latest
          /\ compScore c = competitionScore (metrics ph)
          /\ level c = levelOf (competitionScore (metrics ph))
          /\ recentHistory c `suffix_of` history ph
          /\ length (recentHistory c) = Nat.min 10 (length (history ph))
          /\ (forall b, currentBid latest = Some b ->
                exists z, estimatedFinalPrice (compPrediction c) = Num (inject_Z z)
                          /\ Qfloor (b + (1 # 2)) <= z)).
Proof.
  intros t.
  assert (Hstored : forall ph, bidHistory t !! id = Some ph ->
            exists c latest,
              getPropertyCompetition id t = Value (Some c)
              /\ last (history ph) = Some latest
              /\ compScore c = competitionScore (metrics ph)
              /\ level c = levelOf (competitionScore (metrics ph))
              /\ recentHistory c `suffix_of` history ph
              /\ length (recentHistory c) = Nat.min 10 (length (history ph))
              /\ (forall b, currentBid latest = Some b ->
                    exists z, estimatedFinalPrice (compPrediction c) = Num (inject_Z z)
                              /\ Qfloor (b + (1 # 2)) <= z)).
  { intros ph Hph.
    destruct (prediction_of_maintained ph (run_maintained ops id ph Hph))
      as (pr & latest & Hpr & Hlast & _ & Hest).
    unfold getPropertyCompetition. rewrite Hph, Hpr. eexists _, latest.
    split; [reflexivity|]. split; [exact Hlast|]. cbn.
    split; [reflexivity|]. split; [reflexivity|].
    destruct (lastN_suffix 10 (history ph)) as [Hs Hl].
    split; [exact Hs|]. split; [exact Hl | exact Hest]. }
  assert (Hnone : forall k, inherited k = true -> bidHistory t !! k = None).
  { apply run_no_inherited. intros k _. apply lookup_empty. }
  split; [|split; [|exact Hstored]].
  - split.
    + intros Hraise. destruct (bidHistory t !! id) as [ph|] eqn:Hid.
      * destruct (Hstored ph eq_refl) as (c & latest & Hc & _). congruence.
      * unfold getPropertyCompetition in Hraise. rewrite Hid in Hraise.
        destruct (inherited id); [reflexivity | discriminate].
    + intros Hinh. unfold getPropertyCompetition. rewrite (Hnone id Hinh), Hinh. reflexivity.
  - intros Hid Hplain. unfold getPropertyCompetition. rewrite Hid, Hplain. reflexivity.
Qed.

(** *** The enumeration of the histories *)

Lemma enumerated objectValues (m : gmap string propertyHistory) ph :
  enumerates objectValues ->
  ph ∈ objectValues m <-> exists id, m !! id = Some ph.
Proof.
  intros Henum. rewrite (Henum m), list_elem_of_fmap. split.
  - intros ([id ph'] & -> & Hin). exists id. apply elem_of_map_to_list. exact Hin.
  - intros [id Hid]. exists (id, ph). split; [reflexivity|]. apply elem_of_map_to_list. exact Hid.
Qed.


Lemma mapResult_Value {A B} (f : A -> result B) (l : list A) :
  (forall x, x ∈ l -> exists y, f x = Value y) ->
  exists ys, mapResult f l = Value ys /\ Forall2 (fun x y => f x = Value y) l ys.
Proof.
  induction l as [|x l IH]; intros H.
  - exists []. split; [reflexivity | constructor].
  - destruct (H x ltac:(left)) as [y Hy].
    destruct IH as (ys & Hys & Hall); [intros z Hz; apply H; right; exact Hz|].
    exists (y :: ys). cbn [mapResult]. rewrite Hy, Hys. split; [reflexivity|].
    constructor; assumption.
Qed.

Lemma hotView_maintained ph : maintained ph -> exists v, hotView ph = Value v.
Proof.
  intros (Hne & _). unfold hotView.
  destruct (last (history ph)) eqn:El; [eauto | apply last_None in El; congruence].
Qed.

Lemma quietView_maintained ph : maintained ph -> exists v, quietView ph = Value v.
Proof.
  intros (Hne & _). unfold quietView.
  destruct (last (history ph)) eqn:El; [eauto | apply last_None in El; congruence].
Qed.

(** *** The order of [getHotProperties] *)

Lemma hotter_asym a b : hotter a b = true -> hotter b a = false.
Proof.
  unfold hotter. intros H.
  destruct (Qle_bool (activity b) (activity a)) eqn:E; [reflexivity|].
  destruct (Qle_bool (activity a) (activity b)) eqn:E'; [discriminate H|].
  exfalso. destruct (Qlt_le_dec (activity a) (activity b)) as [Hlt|Hle].
  - apply Qlt_le_weak, Qle_bool_iff in Hlt. congruence.
  - apply Qle_bool_iff in Hle. congruence.
Qed.

Lemma notAfter_hotter a b : notAfter hotter a b <-> (activity b <= activity a)%Q.
Proof.
  unfold notAfter, hotter. rewrite negb_false_iff. apply Qle_bool_iff.
Qed.

Lemma notAfter_hotter_trans a b c :
  notAfter hotter a b -> notAfter hotter b c -> notAfter hotter a c.
Proof. rewrite !notAfter_hotter. intros H1 H2. eapply Qle_trans; eassumption. Qed.

(** On a tracker that started empty, and however the engine enumerates the
    histories, [getHotProperties] never raises and returns at most [limit]
    entries; they come from stored histories with at least one change, in
    descending order of activity (the score plus 100 over the hours since the
    last change), and no stored history with a change that is left out is
    more active than one that is returned. *)
Theorem hot_properties_ranked objectValues (ops : list operation) (limit : nat) :
  enumerates objectValues ->
  let t := run ops newTracker in
  let chosen := hottest objectValues limit t in
  exists views,
    getHotProperties objectValues limit t = Value views
    /\ Forall2 (fun ph v => hotView ph = Value v) chosen views
    /\ (length views <= limit)%nat
    /\ (forall ph, ph ∈ chosen ->
          0 < totalChanges (metrics ph) /\ exists id, bidHistory t !! id = Some ph)
    /\ StronglySorted (fun a b => (activity b <= activity a)%Q) chosen
    /\ (forall id ph r, bidHistory t !! id = Some ph -> 0 < totalChanges (metrics ph) ->
          ph ∉ chosen -> r ∈ chosen -> (activity ph <= activity r)%Q).
Proof.
  intros Henum t chosen.
  set (hot := filter (fun ph => 0 < totalChanges (metrics ph)) (objectValues (bidHistory t))).
  set (sorted := sortBy hotter hot).
  assert (Hperm : sorted ≡ₚ hot) by apply SortingFacts.sortBy_perm.
  assert (Hchosen : chosen = take limit sorted) by reflexivity.
  assert (Hin : forall ph, ph ∈ sorted <->
            0 < totalChanges (metrics ph) /\ exists id, bidHistory t !! id = Some ph).
  { intros ph. rewrite Hperm. unfold hot. rewrite list_elem_of_filter.
    rewrite (enumerated objectValues _ ph Henum). reflexivity. }
  assert (Hstored : forall ph, ph ∈ chosen ->
            0 < totalChanges (metrics ph) /\ exists id, bidHistory t !! id = Some ph).
  { intros ph Hph. apply Hin. rewrite Hchosen in Hph. exact (subseteq_take _ _ _ Hph). }
  destruct (mapResult_Value hotView chosen) as (views & Hviews & Hall).
  { intros ph Hph. destruct (Hstored ph Hph) as (_ & id & Hid).
    apply hotView_maintained. exact (run_maintained ops id ph Hid). }
  exists views. split; [exact Hviews|]. split; [exact Hall|]. split; [|split; [exact Hstored|split]].
  - rewrite <- (Forall2_length _ _ _ Hall), Hchosen, length_take. lia.
  - rewrite Hchosen.
    pose proof (SortingFacts.sortBy_sorted hotter hotter_asym notAfter_hotter_trans hot) as Hs.
    fold sorted in Hs. rewrite <- (take_drop limit sorted) in Hs.
    apply StronglySorted_app_1_l in Hs.
    clear -Hs. induction Hs as [|x l Hs IH Hx]; constructor; [exact IH|].
    eapply Forall_impl; [exact Hx|]. intros y Hy. apply notAfter_hotter. exact Hy.
  - intros id ph r Hid Hchanged Hout Hr.
    assert (Hsorted : ph ∈ sorted) by (apply Hin; eauto).
    rewrite <- (take_drop limit sorted) in Hsorted.
    apply elem_of_app in Hsorted as [Hin'|Hdrop]; [rewrite Hchosen in Hout; contradiction|].
    apply notAfter_hotter. rewrite Hchosen in Hr.
    exact (SortingFacts.sortBy_take_drop hotter hotter_asym notAfter_hotter_trans _ _ r ph Hr Hdrop).
Qed.

Lemma hot_properties_ranked_witness :
  exists views,
    getHotProperties (fun m => (map_to_list m).*2) 5 Samples.thirdPass.1 = Value views
    /\ (length views <= 5)%nat.
Proof.
  destruct (hot_properties_ranked (fun m => (map_to_list m).*2)
              [RecordSnapshot 0 (fun _ => 0) (Some [Samples.bid100]);
               RecordSnapshot Samples.day (fun _ => Samples.day) (Some [Samples.bid200]);
               RecordSnapshot (2 * Samples.day) (fun _ => 2 * Samples.day) (Some [Samples.bid200])]
              5 ltac:(intros m; reflexivity)) as (views & Hviews & _ & Hlen & _).
  exists views. split; [exact Hviews | exact Hlen].
Defined.

(** *** The summary *)







End QueryFacts.

(** ** Scheduling *)

Module SchedulingFacts.
Import Scheduler Scheduling.

Lemma sameClass_eq a b : sameClass a b = true <-> a = b.
Proof. destruct a, b; cbn; split; intros H; congruence. Qed.

Lemma name_inj a b : name a = name b -> a = b.
Proof. destruct a, b; cbn; intros H; congruence. Qed.

Section Grouping.

Variable A : Type.
Variable biddingCloses : A -> closes.
Variable parse : string -> option Z.

Lemma group_push c c' (p : A) g :
  group c (push c' p g) = group c g ++ (if sameClass c' c then [p] else []).
Proof. destruct c, c'; cbn; rewrite ?app_nil_r; reflexivity. Qed.

Lemma groupFrom_selected c clock props : forall i g,
  group c (groupFrom A biddingCloses parse clock i props g) =
  group c g ++ selected biddingCloses parse c clock i props.
Proof.
  induction props as [|p rest IH]; intros i g; cbn [groupFrom selected].
  - rewrite app_nil_r. reflexivity.
  - rewrite IH, group_push, <- app_assoc. reflexivity.
Qed.

Lemma selected_sublist c clock props : forall i,
  selected biddingCloses parse c clock i props `sublist_of` props.
Proof.
  induction props as [|p rest IH]; intros i; cbn [selected]; [constructor|].
  destruct (sameClass _ c); cbn [app].
  - apply sublist_skip, IH.
  - apply sublist_cons, IH.
Qed.

Lemma selected_elem c clock props p : forall i,
  p ∈ selected biddingCloses parse c clock i props <->
  exists j, props !! j = Some p /\ classOf A biddingCloses parse (clock (i + j)%nat) p = c.
Proof.
  induction props as [|q rest IH]; intros i; cbn [selected].
  - split; [intros H; inversion H | intros (j & Hj & _); discriminate].
  - rewrite elem_of_app, IH. split.
    + intros [H|(j & Hj & Hc)].
      * destruct (sameClass _ c) eqn:E; [|inversion H].
        apply list_elem_of_singleton in H as ->. exists 0%nat. rewrite Nat.add_0_r.
        split; [reflexivity | apply sameClass_eq; exact E].
      * exists (S j). replace (i + S j)%nat with (S i + j)%nat by lia. split; assumption.
    + intros ([|j] & Hj & Hc).
      * injection Hj as ->. rewrite Nat.add_0_r in Hc. left.
        apply sameClass_eq in Hc. rewrite Hc. left.
      * right. exists j. replace (S i + j)%nat with (i + S j)%nat by lia. split; assumption.
Qed.

Lemma selected_all clock props : forall i,
  selected biddingCloses parse immediate clock i props
  ++ selected biddingCloses parse urgent clock i props
  ++ selected biddingCloses parse regular clock i props
  ++ selected biddingCloses parse standard clock i props
  ++ selected biddingCloses parse expired clock i props ≡ₚ props.
Proof.
  induction props as [|p rest IH]; intros i; cbn [selected]; [reflexivity|].
  specialize (IH (S i)). revert IH.
  generalize (selected biddingCloses parse immediate clock (S i) rest)
             (selected biddingCloses parse urgent clock (S i) rest)
             (selected biddingCloses parse regular clock (S i) rest)
             (selected biddingCloses parse standard clock (S i) rest)
             (selected biddingCloses parse expired clock (S i) rest).
  intros a b c d e IH.
  destruct (classOf A biddingCloses parse (clock i) p); cbn [sameClass app];
    rewrite <- IH.
  - rewrite !app_assoc. symmetry. apply Permutation_middle.
  - reflexivity.
  - symmetry. apply Permutation_middle.
  - rewrite (app_assoc a b). symmetry. rewrite (app_assoc a b). apply Permutation_middle.
  - rewrite (app_assoc a b), (app_assoc (a ++ b) c). symmetry.
    rewrite (app_assoc a b), (app_assoc (a ++ b) c). apply Permutation_middle.
Qed.

End Grouping.

(** X13.  [scheduleUpdates] puts every entry of [properties.json] in exactly
    one group: the five groups together are a rearrangement of the file,
    each group keeps the order of the file, and an entry is in a group
    exactly when [getUpdatePriority] gave that class at the time the entry
    was visited.  An entry whose closing time is absent or cannot be read as
    a date is grouped as [standard], and one whose closing time is [null] as
    [expired]. *)
Theorem listings_grouped A (biddingCloses : A -> closes) parse clock jobClock
    (props : list A) (m : jobs) :
  let g := (scheduleUpdates A biddingCloses parse clock jobClock props m).1 in
  immediateGroup g ++ urgentGroup g ++ regularGroup g ++ standardGroup g ++ expiredGroup g
    ≡ₚ props
  /\ (forall c, group c g `sublist_of` props)
  /\ (forall c p, p ∈ group c g <->
        exists i, props !! i = Some p /\ classOf A biddingCloses parse (clock i) p = c)
  /\ (forall i p, props !! i = Some p -> newDate parse (biddingCloses p) = None ->
        p ∈ standardGroup g)
  /\ (forall i p, props !! i = Some p -> biddingCloses p = Null -> 0 <= clock i ->
        p ∈ expiredGroup g).
Proof.
  intros g.
  assert (Hg : forall c, group c g = selected biddingCloses parse c clock 0 props).
  { intros c. unfold g, scheduleUpdates. cbn [fst].
    rewrite groupFrom_selected. destruct c; reflexivity. }
  assert (Hin : forall c p, p ∈ group c g <->
            exists i, props !! i = Some p /\ classOf A biddingCloses parse (clock i) p = c).
  { intros c p. rewrite Hg. apply (selected_elem A biddingCloses parse c clock props p 0). }
  split; [|split; [|split; [exact Hin|split]]].
  - etransitivity; [|apply (selected_all A biddingCloses parse clock props 0)].
    rewrite <- !Hg. reflexivity.
  - intros c. rewrite Hg. apply selected_sublist.
  - intros i p Hi Hnone. apply (Hin standard p). exists i. split; [exact Hi|].
    unfold classOf. rewrite Hnone. reflexivity.
  - intros i p Hi Hnull Hclock. apply (Hin expired p). exists i. split; [exact Hi|].
    unfold classOf. rewrite Hnull. cbn [newDate]. unfold getUpdatePriority, hoursUntilClosing.
    assert (H : atMost (Some (inject_Z (0 - clock i) / inject_Z (1000 * 60 * 60))%Q) 0 = true).
    { cbn [atMost]. apply Qle_bool_iff. change (1000 * 60 * 60) with 3600000.
      unfold Qle, Qdiv, Qmult, Qinv, inject_Z. cbn. lia. }
    rewrite H. reflexivity.
Qed.

(** *** The map of active jobs *)

Lemma mapHas_get k m : mapHas k m = true <-> is_Some (mapGet k m).
Proof.
  induction m as [|[k' v] rest IH]; cbn [mapHas existsb mapGet fst].
  - split; [discriminate | intros [x H]; discriminate].
  - destruct (String.eqb k' k); cbn [orb]; [split; eauto | exact IH].
Qed.

Lemma mapHas_false k m : mapHas k m = false <-> mapGet k m = None.
Proof.
  rewrite <- not_true_iff_false, mapHas_get, eq_None_not_Some. reflexivity.
Qed.

Lemma mapGet_set k k' v m :
  mapGet k (mapSet k' v m) = if String.eqb k' k then Some v else mapGet k m.
Proof.
  induction m as [|[k0 v0] rest IH]; cbn [mapSet mapGet].
  - destruct (String.eqb k' k); reflexivity.
  - destruct (String.eqb k0 k') eqn:E0; cbn [mapGet].
    + apply String.eqb_eq in E0. subst k0. destruct (String.eqb k' k); reflexivity.
    + rewrite IH. destruct (String.eqb k0 k) eqn:E1; [|reflexivity].
      apply String.eqb_eq in E1. subst k0.
      rewrite String.eqb_sym, E0. reflexivity.
Qed.

Lemma mapSet_new k v m : mapHas k m = false -> mapSet k v m = m ++ [(k, v)].
Proof.
  induction m as [|[k0 v0] rest IH]; cbn [mapHas existsb mapSet fst app]; [reflexivity|].
  intros H. apply orb_false_iff in H as [H0 H]. rewrite H0, (IH H). reflexivity.
Qed.

(** The job [scheduleUpdates] creates for class [c]. *)
Lemma scheduleJob_get c iv now m k :
  mapGet k (scheduleJob (name c) iv now m) =
  if String.eqb (name c) k
  then Some (Job (name c) iv
               (match c with immediate | urgent => "quick" | _ => "full" end) (now + iv))
  else mapGet k m.
Proof.
  unfold scheduleJob. rewrite mapGet_set. destruct c; reflexivity.
Qed.

Section Jobs.

Variable A : Type.
Variable g : priorityGroups A.
Variable jobClock : priority -> Z.

Lemma consider_get m c iv k :
  mapGet k (consider A g jobClock m (c, iv)) =
  match mapGet k m with
  | Some j => Some j
  | None =>
      if String.eqb (name c) k && (0 <? length (group c g))%nat
      then Some (Job (name c) iv
                   (match c with immediate | urgent => "quick" | _ => "full" end)
                   (jobClock c + iv))
      else None
  end.
Proof.
  unfold consider.
  destruct (mapHas (name c) m) eqn:Hhas; cbn [negb].
  - rewrite andb_false_r.
    destruct (mapGet k m) eqn:Hk; [reflexivity|].
    destruct (String.eqb (name c) k) eqn:E; [|reflexivity].
    apply String.eqb_eq in E as <-. apply mapHas_get in Hhas as [j Hj]. congruence.
  - rewrite andb_true_r. destruct (0 <? length (group c g))%nat eqn:Hlen.
    + rewrite scheduleJob_get. destruct (String.eqb (name c) k) eqn:E; cbn [andb].
      * apply String.eqb_eq in E as <-. apply mapHas_false in Hhas. rewrite Hhas. reflexivity.
      * destruct (mapGet k m); reflexivity.
    + rewrite andb_false_r. destruct (mapGet k m); reflexivity.
Qed.

Lemma consider_prefix m e : m `prefix_of` consider A g jobClock m e.
Proof.
  destruct e as [c iv]. unfold consider.
  destruct ((0 <? length (group c g))%nat && negb (mapHas (name c) m)) eqn:E; [|reflexivity].
  apply andb_true_iff in E as [_ E]. apply negb_true_iff in E.
  unfold scheduleJob. rewrite mapSet_new by exact E. apply prefix_app_r. reflexivity.
Qed.

Lemma schedule_prefix es : forall m, m `prefix_of` fold_left (consider A g jobClock) es m.
Proof.
  induction es as [|e es IH]; intros m; cbn [fold_left]; [reflexivity|].
  etransitivity; [apply consider_prefix | apply IH].
Qed.

(** Nothing is scheduled when every class with listings has its job. *)
Lemma schedule_nothing es : forall m,
  (forall c iv, (c, iv) ∈ es -> group c g <> [] -> mapHas (name c) m = true) ->
  fold_left (consider A g jobClock) es m = m.
Proof.
  induction es as [|[c iv] es IH]; intros m H; cbn [fold_left]; [reflexivity|].
  assert (Hc : consider A g jobClock m (c, iv) = m).
  { unfold consider. destruct (group c g) as [|x l] eqn:Eg; [reflexivity|].
    rewrite (H c iv); [reflexivity | left | rewrite Eg; discriminate]. }
  rewrite Hc. apply IH. intros c' iv' Hin Hne.
  apply (H c' iv'); [right; exact Hin | exact Hne].
Qed.

End Jobs.

(** X14.  What [scheduleUpdates] leaves in [activeJobs]: the jobs that were
    there stay as they are, also for a class that has no listing any more,
    and new jobs are added after them.  A class of [this.intervals] without
    a job gets one exactly when its group is not empty: it polls at the
    interval of the class, with quick updates for [immediate] and [urgent]
    and full updates for [regular] and [standard], first after one
    interval.  No job is created under any other key, so none for expired
    listings.  A later call, whatever the clock reads and the file holds
    then, changes nothing when every class in which it finds listings is
    [expired] or has its job already; so does a call that reads the same
    listings at the same clock readings.  (A later call that finds a listing
    in a class without a job, as when a closing time has come nearer, adds
    that job.) *)
Theorem jobs_scheduled A (biddingCloses : A -> closes) parse clock jobClock
    (props : list A) (m : jobs) :
  let out := scheduleUpdates A biddingCloses parse clock jobClock props m in
  m `prefix_of` out.2
  /\ (forall k j, mapGet k m = Some j -> mapGet k out.2 = Some j)
  /\ (forall c iv, interval c = Some iv -> mapGet (name c) m = None ->
        mapGet (name c) out.2 =
        if (0 <? length (group c out.1))%nat
        then Some (Job (name c) iv
                     (match c with immediate | urgent => "quick" | _ => "full" end)
                     (jobClock c + iv))
        else None)
  /\ (forall k, mapGet k m = None -> is_Some (mapGet k out.2) ->
        exists c, k = name c /\ c <> expired /\ group c out.1 <> [])
  /\ (forall clock2 jobClock2 (props2 : list A),
        (forall c, group c (scheduleUpdates A biddingCloses parse clock2 jobClock2 props2 out.2).1
                   <> [] ->
                   c = expired \/ is_Some (mapGet (name c) out.2)) ->
        (scheduleUpdates A biddingCloses parse clock2 jobClock2 props2 out.2).2 = out.2)
  /\ (forall jobClock2,
        (scheduleUpdates A biddingCloses parse clock jobClock2 props out.2).2 = out.2).
Proof.
  intros out.
  set (g := groupFrom A biddingCloses parse clock 0 props noGroups).
  assert (Hout : out = (g, fold_left (consider A g jobClock) intervalEntries m)) by reflexivity.
  assert (Hget : forall k, mapGet k out.2 =
            match mapGet k m with
            | Some j => Some j
            | None =>
                if String.eqb "immediate" k && (0 <? length (group immediate g))%nat
                then Some (Job "immediate" (1 * 60 * 1000) "quick" (jobClock immediate + 1 * 60 * 1000))
                else if String.eqb "urgent" k && (0 <? length (group urgent g))%nat
                then Some (Job "urgent" (5 * 60 * 1000) "quick" (jobClock urgent + 5 * 60 * 1000))
                else if String.eqb "regular" k && (0 <? length (group regular g))%nat
                then Some (Job "regular" (10 * 60 * 1000) "full" (jobClock regular + 10 * 60 * 1000))
                else if String.eqb "standard" k && (0 <? length (group standard g))%nat
                then Some (Job "standard" (60 * 60 * 1000) "full" (jobClock standard + 60 * 60 * 1000))
                else None
            end).
  { intros k. rewrite Hout. cbn [snd intervalEntries fold_left].
    rewrite !consider_get. cbn [name].
    destruct (mapGet k m); [reflexivity|].
    repeat match goal with
           | |- context [(String.eqb ?a k && ?b)%bool] => destruct (String.eqb a k && b)%bool
           end; reflexivity. }
  assert (Hkeep : forall k j, mapGet k m = Some j -> mapGet k out.2 = Some j).
  { intros k j Hk. rewrite Hget, Hk. reflexivity. }
  assert (Hnew : forall c iv, interval c = Some iv -> mapGet (name c) m = None ->
            mapGet (name c) out.2 =
            if (0 <? length (group c out.1))%nat
            then Some (Job (name c) iv
                         (match c with immediate | urgent => "quick" | _ => "full" end)
                         (jobClock c + iv))
            else None).
  { intros c iv Hiv Hm. rewrite Hget, Hm, Hout. cbn [fst].
    destruct c; cbn [interval] in Hiv; [discriminate| | | |]; injection Hiv as <-;
      cbn [name String.eqb Ascii.eqb Bool.eqb andb];
      repeat match goal with
             | |- context [(0 <? length ?l)%nat] => destruct (0 <? length l)%nat
             end; reflexivity. }
  assert (Hentry : forall c iv, (c, iv) ∈ intervalEntries -> interval c = Some iv).
  { intros c iv Hin. unfold intervalEntries in Hin.
    repeat (apply elem_of_cons in Hin as [Hin|Hin]);
      try (injection Hin as -> ->; reflexivity). inversion Hin. }
  split; [|split; [exact Hkeep|split; [exact Hnew|split; [|split]]]].
  - rewrite Hout. apply schedule_prefix.
  - intros k Hm [j Hj]. rewrite Hget, Hm in Hj. rewrite Hout. cbn [fst].
    assert (Hlen : forall c, (0 <? length (group c g))%nat = true -> group c g <> []).
    { intros c H E. rewrite E in H. discriminate. }
    destruct (String.eqb "immediate" k && (0 <? length (group immediate g))%nat) eqn:E1.
    { apply andb_true_iff in E1 as [E1 L]. apply String.eqb_eq in E1.
      exists immediate. split; [symmetry; exact E1|]. split; [discriminate | apply Hlen, L]. }
    destruct (String.eqb "urgent" k && (0 <? length (group urgent g))%nat) eqn:E2.
    { apply andb_true_iff in E2 as [E2 L]. apply String.eqb_eq in E2.
      exists urgent. split; [symmetry; exact E2|]. split; [discriminate | apply Hlen, L]. }
    destruct (String.eqb "regular" k && (0 <? length (group regular g))%nat) eqn:E3.
    { apply andb_true_iff in E3 as [E3 L]. apply String.eqb_eq in E3.
      exists regular. split; [symmetry; exact E3|]. split; [discriminate | apply Hlen, L]. }
    destruct (String.eqb "standard" k && (0 <? length (group standard g))%nat) eqn:E4.
    { apply andb_true_iff in E4 as [E4 L]. apply String.eqb_eq in E4.
      exists standard. split; [symmetry; exact E4|]. split; [discriminate | apply Hlen, L]. }
    discriminate.
  - intros clock2 jobClock2 props2 Hcovered. unfold scheduleUpdates at 1. cbn [snd].
    apply schedule_nothing. intros c iv Hin Hne. apply mapHas_get.
    destruct (Hcovered c Hne) as [->|Hjob]; [|exact Hjob].
    apply Hentry in Hin. discriminate.
  - intros jobClock2. unfold scheduleUpdates at 1. cbn [snd]. fold g.
    apply schedule_nothing. intros c iv Hin Hne.
    pose proof (Hentry c iv Hin) as Hiv.
    apply mapHas_get. destruct (mapGet (name c) m) as [j|] eqn:Hm.
    + exists j. apply Hkeep. exact Hm.
    + rewrite (Hnew c iv Hiv Hm), Hout. cbn [fst].
      destruct (group c g) as [|x l]; [congruence|]. cbn. eauto.
Qed.

End SchedulingFacts.

(** ** The update cycles *)

Module CycleFacts.
Import JS BidTracker Sorting Queries Cycles.

Lemma scrape_done code : scrapeAuctionData code = Done <-> code = Some 0.
Proof.
  unfold scrapeAuctionData. destruct code as [[|p|p]|]; split; intros H; congruence.
Qed.

Lemma scrape_failed code :
  code <> Some 0 -> scrapeAuctionData code = Failed (scraperMessage code).
Proof.
  unfold scrapeAuctionData. destruct code as [[|p|p]|]; intros H; congruence.
Qed.

Lemma lastN_app {A} n (l1 l2 : list A) :
  (n <= length l2)%nat -> lastN n (l1 ++ l2) = lastN n l2.
Proof.
  intros H. unfold lastN. rewrite length_app, drop_app.
  replace (length l1 + length l2 - n - length l1)%nat with (length l2 - n)%nat by lia.
  rewrite drop_ge by lia. reflexivity.
Qed.

(** *** Listings whose latest snapshot is up to date *)

Lemma recordSnapshot_Some stamp clock t res :
  (recordSnapshot stamp clock None t).2 = Value (Some res) ->
  let done := recordAll stamp clock 0 (currentProperties t) (bidHistory t, 0, 0) in
  currentProperties t <> [] /\ done.2 = true
  /\ res = SnapshotResult stamp done.1.2 done.1.1.2.
Proof.
  intros Hres done.
  destruct (decide (currentProperties t = [])) as [E|E].
  { unfold recordSnapshot in Hres. cbn [from_option id] in Hres. rewrite E in Hres. discriminate. }
  rewrite BidTrackerFacts.recordSnapshot_nonempty in Hres by exact E.
  cbv zeta in Hres. cbn [from_option id snd] in Hres. fold done in Hres.
  destruct done.2; [|discriminate]. injection Hres as <-. auto.
Qed.

Lemma recordSnapshot_settles stamp clock t :
  NoDup (auctionId <$> currentProperties t) -> plainIds (currentProperties t) ->
  currentProperties t <> [] ->
  settled (recordSnapshot stamp clock None t).1.
Proof.
  intros Hnd Hplain Hne.
  rewrite BidTrackerFacts.recordSnapshot_nonempty by exact Hne. cbv zeta. cbn [from_option id fst].
  intros p Hp. cbn [currentProperties bidHistory] in *.
  apply list_elem_of_lookup in Hp as [j Hj].
  rewrite (BidTrackerFacts.recordAll_lookup _ _ _ 0 _ j p Hnd Hj)
    by (apply BidTrackerFacts.recordAll_completes, BidTrackerFacts.plainIds_members, Hplain).
  cbn [fst].
  destruct (BidTrackerFacts.recordEntry_history stamp (clock (0 + j)%nat) p
              (bidHistory t !! auctionId p)) as (s & Hs & Hbid & _).
  eexists _, s. split; [reflexivity|]. rewrite Hs, last_snoc. split; [reflexivity | exact Hbid].
Qed.

Lemma recordSnapshot_quiet stamp clock t res :
  NoDup (auctionId <$> currentProperties t) -> settled t ->
  (recordSnapshot stamp clock None t).2 = Value (Some res) ->
  newChanges res = 0 /\ totalTracked res = Z.of_nat (length (currentProperties t)).
Proof.
  intros Hnd Hset Hres. destruct (recordSnapshot_Some _ _ _ _ Hres) as (_ & Hdone & ->).
  cbn [newChanges totalTracked]. split.
  - rewrite BidTrackerFacts.recordAll_unchanged; [reflexivity | exact Hnd |].
    intros p now Hp. cbn [fst].
    destruct (Hset p Hp) as (ph & s & Hph & Hlast & Hbid).
    rewrite BidTrackerFacts.recordEntry_hasChanged, Hph. cbn [from_option id].
    rewrite Hlast, Hbid. apply BidTrackerFacts.strictNeq_refl.
  - rewrite BidTrackerFacts.recordAll_tracked by exact Hdone. cbn [snd]. lia.
Qed.

Lemma recordSnapshot_tracked stamp clock t res :
  (recordSnapshot stamp clock None t).2 = Value (Some res) ->
  totalTracked res = Z.of_nat (length (currentProperties t)).
Proof.
  intros Hres. destruct (recordSnapshot_Some _ _ _ _ Hres) as (_ & Hdone & ->).
  cbn [totalTracked]. rewrite BidTrackerFacts.recordAll_tracked by exact Hdone. cbn [snd]. lia.
Qed.

Lemma recordSnapshot_keeps_settled stamp clock t :
  NoDup (auctionId <$> currentProperties t) -> plainIds (currentProperties t) -> settled t ->
  settled (recordSnapshot stamp clock None t).1.
Proof.
  intros Hnd Hplain Hset. destruct (decide (currentProperties t = [])) as [E|E].
  - unfold recordSnapshot. cbn [from_option id]. rewrite E. exact Hset.
  - apply recordSnapshot_settles; assumption.
Qed.

Section Tracking.

Variable objectValues : gmap string propertyHistory -> list propertyHistory.

(** *** [updateBidTracking] *)

Lemma updateBidTracking_tracker stamp clock t :
  (updateBidTracking objectValues stamp clock t).1 = (recordSnapshot stamp clock None t).1.
Proof.
  unfold updateBidTracking. destruct (recordSnapshot stamp clock None t) as [t' [snap|]];
    [|reflexivity].
  destruct (getHotProperties objectValues 10 t'); [destruct snap|]; reflexivity.
Qed.

Lemma updateBidTracking_snapshot stamp clock t b :
  (updateBidTracking objectValues stamp clock t).2 = Value b ->
  (recordSnapshot stamp clock None t).2 = Value (Some (updateSnapshot b)).
Proof.
  unfold updateBidTracking. destruct (recordSnapshot stamp clock None t) as [t' [snap|]];
    [|discriminate].
  destruct (getHotProperties objectValues 10 t'); [destruct snap|]; cbn [snd]; intros H;
    try discriminate. injection H as <-. reflexivity.
Qed.

Lemma updateBidTracking_empty stamp clock t :
  currentProperties t = [] ->
  updateBidTracking objectValues stamp clock t = (t, TypeError).
Proof.
  intros E. unfold updateBidTracking, recordSnapshot. cbn [from_option id]. rewrite E.
  destruct (getHotProperties objectValues 10 t); reflexivity.
Qed.

Lemma getHotProperties_returns limit t :
  enumerates objectValues -> wellFormed t ->
  exists hot, getHotProperties objectValues limit t = Value hot.
Proof.
  intros Henum Hwf. unfold getHotProperties.
  destruct (QueryFacts.mapResult_Value hotView (hottest objectValues limit t)) as (views & Hv & _);
    [|eauto].
  intros ph Hph. unfold hottest in Hph. apply subseteq_take in Hph.
  rewrite SortingFacts.sortBy_perm in Hph. apply list_elem_of_filter in Hph as [_ Hph].
  apply (QueryFacts.enumerated objectValues _ ph Henum) in Hph as [id Hid].
  unfold hotView. destruct (last (history ph)) eqn:El; [eauto|].
  apply last_None in El. exfalso. exact (Hwf id ph Hid El).
Qed.

Lemma updateBidTracking_returns stamp clock t :
  enumerates objectValues -> wellFormed t -> currentProperties t <> [] ->
  plainIds (currentProperties t) ->
  exists b, (updateBidTracking objectValues stamp clock t).2 = Value b.
Proof.
  intros Henum Hwf Hne Hplain.
  pose proof (BidTrackerFacts.wellFormed_recordSnapshot stamp clock None t Hwf) as Hwf'.
  unfold updateBidTracking.
  rewrite BidTrackerFacts.recordSnapshot_nonempty in * by exact Hne. cbv zeta in *.
  cbn [from_option id] in *.
  rewrite (BidTrackerFacts.recordAll_completes stamp clock (currentProperties t) 0 (bidHistory t, 0, 0))
    in * by (apply BidTrackerFacts.plainIds_members, Hplain).
  cbn [fst] in Hwf'.
  destruct (getHotProperties_returns 10 _ Henum Hwf') as [hot ->]. cbn [snd]. eauto.
Qed.

(** *** One cycle *)

Lemma perform_failed_scrape sch c :
  codeOf c <> Some 0 ->
  perform objectValues sch c =
  conclude (timesOf c) (kindOf c) (bidTracker sch) (lastFullUpdate sch) false None
    (Some (Rejected (scraperMessage (codeOf c)))) sch.
Proof.
  intros H. destruct c as [at_ code|at_ code analytics cleaning];
    cbn [perform codeOf timesOf kindOf] in *;
    unfold performQuickUpdate, performFullUpdate; rewrite (scrape_failed code H); reflexivity.
Qed.

Lemma perform_raises sch c t :
  codeOf c = Some 0 ->
  updateBidTracking objectValues (snapshotTime (timesOf c)) (metricsTime (timesOf c))
    (bidTracker sch) = (t, TypeError) ->
  perform objectValues sch c =
  conclude (timesOf c) (kindOf c) t (lastFullUpdate sch) false None (Some TypeErrorRaised) sch.
Proof.
  intros Hcode Hu. destruct c as [at_ code|at_ code analytics cleaning];
    cbn [perform codeOf timesOf kindOf] in *; subst code;
    unfold performQuickUpdate, performFullUpdate; cbn [scrapeAuctionData]; rewrite Hu;
    reflexivity.
Qed.

(** What every cycle does, whatever its outcome. *)
Lemma perform_result sch c :
  let out := perform objectValues sch c in
  updateHistory out.1 = updateHistory sch ++ [out.2]
  /\ activeJobs out.1 = activeJobs sch
  /\ updateType out.2 = kindOf c
  /\ (success out.2 = true <-> error out.2 = None)
  /\ (success out.2 = true -> is_Some (bids out.2) /\ codeOf c = Some 0)
  /\ (success out.2 = false \/ updateType out.2 = "quick" ->
      lastFullUpdate out.1 = lastFullUpdate sch)
  /\ bidTracker out.1 =
     (if decide (codeOf c = Some 0)
      then (recordSnapshot (snapshotTime (timesOf c)) (metricsTime (timesOf c)) None
              (bidTracker sch)).1
      else bidTracker sch)
  /\ (forall b, bids out.2 = Some b ->
        codeOf c = Some 0
        /\ (recordSnapshot (snapshotTime (timesOf c)) (metricsTime (timesOf c)) None
              (bidTracker sch)).2 = Value (Some (updateSnapshot b))).
Proof.
  intros out. destruct (decide (codeOf c = Some 0)) as [Hcode|Hcode].
  - pose proof (updateBidTracking_tracker (snapshotTime (timesOf c)) (metricsTime (timesOf c))
                  (bidTracker sch)) as Ht.
    pose proof (updateBidTracking_snapshot (snapshotTime (timesOf c)) (metricsTime (timesOf c))
                  (bidTracker sch)) as Hs.
    rewrite <- Ht. clear Ht. subst out.
    destruct c as [at_ code|at_ code analytics cleaning];
      cbn [perform codeOf timesOf kindOf] in *; subst code;
      unfold performQuickUpdate, performFullUpdate; cbn [scrapeAuctionData];
      destruct (updateBidTracking objectValues (snapshotTime at_) (metricsTime at_)
                  (bidTracker sch)) as [t [b|]];
      try destruct analytics; try destruct cleaning;
      cbn [conclude fst snd updateHistory activeJobs updateType success error bids
             lastFullUpdate bidTracker] in *;
      (repeat split; intros; try reflexivity; try discriminate; eauto;
       try (match goal with H : _ \/ _ |- _ => destruct H; discriminate end);
       try (match goal with
            | H : Some _ = Some _ |- _ => injection H as <-; apply Hs; reflexivity
            end)).
  - subst out. rewrite (perform_failed_scrape sch c Hcode).
    cbn [conclude fst snd updateHistory activeJobs updateType success error bids
           lastFullUpdate bidTracker].
    repeat split; try reflexivity; try discriminate; intros; discriminate.
Qed.

Lemma perform_tracks sch c b :
  codeOf c = Some 0 ->
  (updateBidTracking objectValues (snapshotTime (timesOf c)) (metricsTime (timesOf c))
     (bidTracker sch)).2 = Value b ->
  bids (perform objectValues sch c).2 = Some b.
Proof.
  intros Hcode Hu. destruct c as [at_ code|at_ code analytics cleaning];
    cbn [perform codeOf timesOf kindOf] in *; subst code;
    unfold performQuickUpdate, performFullUpdate; cbn [scrapeAuctionData];
    destruct (updateBidTracking objectValues (snapshotTime at_) (metricsTime at_)
                (bidTracker sch)) as [t [b'|]]; cbn [snd] in Hu; try discriminate;
    injection Hu as ->; try destruct analytics; try destruct cleaning; reflexivity.
Qed.

Lemma perform_currentProperties sch c :
  currentProperties (bidTracker (perform objectValues sch c).1) =
  currentProperties (bidTracker sch).
Proof.
  destruct (perform_result sch c) as (_ & _ & _ & _ & _ & _ & Ht & _). rewrite Ht.
  destruct (decide (codeOf c = Some 0)); [|reflexivity].
  apply BidTrackerFacts.recordSnapshot_currentProperties.
Qed.

Lemma perform_wellFormed sch c :
  wellFormed (bidTracker sch) -> wellFormed (bidTracker (perform objectValues sch c).1).
Proof.
  intros Hwf. destruct (perform_result sch c) as (_ & _ & _ & _ & _ & _ & Ht & _). rewrite Ht.
  destruct (decide (codeOf c = Some 0)); [|exact Hwf].
  apply BidTrackerFacts.wellFormed_recordSnapshot. exact Hwf.
Qed.

(** *** Sequences of cycles *)

Lemma runCycles_cons c rest sch :
  runCycles objectValues (c :: rest) sch =
  ((runCycles objectValues rest (perform objectValues sch c).1).1,
   (perform objectValues sch c).2 :: (runCycles objectValues rest (perform objectValues sch c).1).2).
Proof.
  cbn [runCycles]. destruct (perform objectValues sch c) as [sch1 r]. cbn [fst snd].
  destruct (runCycles objectValues rest sch1) as [sch2 rs]. reflexivity.
Qed.

Lemma runCycles_length cs : forall sch, length (runCycles objectValues cs sch).2 = length cs.
Proof.
  induction cs as [|c rest IH]; intros sch; [reflexivity|].
  rewrite runCycles_cons. cbn [snd length]. rewrite IH. reflexivity.
Qed.

End Tracking.

(** X15.  Every update cycle, whether it succeeds or fails at any step,
    appends exactly one entry to [updateHistory], in the order the cycles
    ran, and leaves the scheduled jobs alone.  The entry has the type of the
    cycle; it is marked successful exactly when it stores no error, and then
    the scraper had exited with code 0 and the entry carries the bid update.
    A cycle whose scraper exits with another code stores the message of
    that exit and no bid update.  [lastFullUpdate] does not move unless a
    full update succeeded, the tracker is untouched when every scrape
    failed, and once ten cycles ran [getStatus] reports the last ten of
    them, as the saved schedule holds the last hundred once a hundred
    ran. *)
Theorem cycles_recorded objectValues (cs : list cycle) (sch : scheduler) :
  let out := runCycles objectValues cs sch in
  updateHistory out.1 = updateHistory sch ++ out.2
  /\ activeJobs out.1 = activeJobs sch
  /\ Forall2 (fun c r =>
               updateType r = kindOf c
               /\ (success r = true <-> error r = None)
               /\ (success r = true -> is_Some (bids r) /\ codeOf c = Some 0)
               /\ (codeOf c <> Some 0 ->
                   error r = Some (Rejected (scraperMessage (codeOf c))) /\ bids r = None))
       cs out.2
  /\ ((forall r, r ∈ out.2 -> updateType r = "full" -> success r = false) ->
      lastFullUpdate out.1 = lastFullUpdate sch)
  /\ ((forall c, c ∈ cs -> codeOf c <> Some 0) -> bidTracker out.1 = bidTracker sch)
  /\ ((10 <= length cs)%nat -> recentUpdates out.1 = lastN 10 out.2)
  /\ ((100 <= length cs)%nat -> savedHistory out.1 = lastN 100 out.2).
Proof.
  intros out.
  assert (Hmain : updateHistory out.1 = updateHistory sch ++ out.2
            /\ activeJobs out.1 = activeJobs sch
            /\ Forall2 (fun c r =>
                 updateType r = kindOf c
                 /\ (success r = true <-> error r = None)
                 /\ (success r = true -> is_Some (bids r) /\ codeOf c = Some 0)
                 /\ (codeOf c <> Some 0 ->
                     error r = Some (Rejected (scraperMessage (codeOf c))) /\ bids r = None))
                 cs out.2
            /\ ((forall r, r ∈ out.2 -> updateType r = "full" -> success r = false) ->
                lastFullUpdate out.1 = lastFullUpdate sch)
            /\ ((forall c, c ∈ cs -> codeOf c <> Some 0) -> bidTracker out.1 = bidTracker sch)).
  { subst out. revert sch. induction cs as [|c rest IH]; intros sch.
    - cbn [runCycles fst snd]. rewrite app_nil_r.
      repeat split; try reflexivity. constructor.
    - rewrite runCycles_cons. cbn [fst snd].
      destruct (IH (perform objectValues sch c).1) as (Hh & Hj & Hall & Hfull & Htr).
      destruct (perform_result objectValues sch c)
        as (Ph & Pj & Pty & Piff & Pok & Plast & Ptr & _). cbv zeta in *.
      split; [|split; [|split; [|split]]].
      + rewrite Hh, Ph, <- app_assoc. reflexivity.
      + rewrite Hj. exact Pj.
      + constructor; [|exact Hall].
        split; [exact Pty|]. split; [exact Piff|]. split; [exact Pok|].
        intros Hcode. rewrite (perform_failed_scrape objectValues sch c Hcode).
        split; reflexivity.
      + intros Hno. rewrite Hfull.
        * apply Plast.
          destruct (success (perform objectValues sch c).2) eqn:Es; [|left; reflexivity].
          right. rewrite Pty. destruct c; cbn [kindOf]; [reflexivity|].
          exfalso. rewrite (Hno _ ltac:(left) Pty) in Es. discriminate.
        * intros r Hr. apply Hno. right. exact Hr.
      + intros Hbad. rewrite Htr.
        * rewrite Ptr. destruct (decide (codeOf c = Some 0)) as [E|E]; [|reflexivity].
          exfalso. exact (Hbad c ltac:(left) E).
        * intros c' Hc'. apply Hbad. right. exact Hc'. }
  destruct Hmain as (Hh & Hj & Hall & Hfull & Htr).
  repeat (split; [assumption|]).
  split; intros Hlen; unfold recentUpdates, savedHistory; rewrite Hh; apply lastN_app;
    subst out; rewrite runCycles_length; exact Hlen.
Qed.

(** X16.  No cycle changes the listings the tracker of a scheduler works
    on: a cycle calls [recordSnapshot] without arguments and never
    [loadCurrentProperties], so they stay those read at initialisation.
    When they are not empty and have distinct auction ids, none of them the
    name of an inherited member, on a tracker whose stored histories are not
    empty, every cycle whose scraper exits with code 0 gets a bid update
    whose snapshot tracked all of them, and from the second such cycle on
    the snapshot reports no change at all. *)
Theorem later_cycles_record_no_change objectValues (cs : list cycle) (sch : scheduler) :
  enumerates objectValues ->
  wellFormed (bidTracker sch) ->
  currentProperties (bidTracker sch) <> [] ->
  NoDup (auctionId <$> currentProperties (bidTracker sch)) ->
  plainIds (currentProperties (bidTracker sch)) ->
  let out := runCycles objectValues cs sch in
  currentProperties (bidTracker out.1) = currentProperties (bidTracker sch)
  /\ (forall i c, cs !! i = Some c -> codeOf c = Some 0 ->
        exists r b,
          out.2 !! i = Some r /\ bids r = Some b
          /\ totalTracked (updateSnapshot b) =
             Z.of_nat (length (currentProperties (bidTracker sch)))
          /\ (forall j c', (j < i)%nat -> cs !! j = Some c' -> codeOf c' = Some 0 ->
                newChanges (updateSnapshot b) = 0)).
Proof.
  intros Henum Hwf Hne Hnd Hplain out.
  assert (Hmain : currentProperties (bidTracker out.1) = currentProperties (bidTracker sch)
            /\ (forall i c, cs !! i = Some c -> codeOf c = Some 0 ->
                  exists r b,
                    out.2 !! i = Some r /\ bids r = Some b
                    /\ totalTracked (updateSnapshot b) =
                       Z.of_nat (length (currentProperties (bidTracker sch)))
                    /\ (settled (bidTracker sch)
                        \/ (exists j c', (j < i)%nat /\ cs !! j = Some c' /\ codeOf c' = Some 0) ->
                        newChanges (updateSnapshot b) = 0))).
  { subst out. revert sch Hwf Hne Hnd Hplain.
    induction cs as [|c rest IH]; intros sch Hwf Hne Hnd Hplain.
    - split; [reflexivity|]. intros i c H. discriminate.
    - rewrite runCycles_cons. cbn [fst snd].
      pose proof (perform_currentProperties objectValues sch c) as Hcur.
      destruct (IH (perform objectValues sch c).1) as (Hprops & Hrest).
      { apply perform_wellFormed. exact Hwf. }
      { rewrite Hcur. exact Hne. }
      { rewrite Hcur. exact Hnd. }
      { rewrite Hcur. exact Hplain. }
      split; [rewrite Hprops; exact Hcur|].
      destruct (perform_result objectValues sch c) as (_ & _ & _ & _ & _ & _ & Ptr & _).
      cbv zeta in Ptr.
      intros [|i] c0 Hi Hcode.
      + injection Hi as <-.
        destruct (updateBidTracking_returns objectValues (snapshotTime (timesOf c))
                    (metricsTime (timesOf c)) (bidTracker sch) Henum Hwf Hne Hplain) as [b Hb].
        exists (perform objectValues sch c).2, b. split; [reflexivity|].
        split; [apply perform_tracks; assumption|].
        apply updateBidTracking_snapshot in Hb. split.
        * apply (recordSnapshot_tracked _ _ _ _ Hb).
        * intros [Hset|(j & c' & Hj & _)]; [|lia].
          apply (recordSnapshot_quiet _ _ _ _ Hnd Hset Hb).
      + cbn in Hi. destruct (Hrest i c0 Hi Hcode) as (r & b & Hr & Hb & Htot & Hquiet).
        exists r, b. split; [exact Hr|]. split; [exact Hb|]. split; [rewrite Htot, Hcur; reflexivity|].
        intros Hbefore. apply Hquiet.
        assert (Hkeep : settled (bidTracker sch) -> settled (bidTracker (perform objectValues sch c).1)).
        { intros Hset. rewrite Ptr. destruct (decide (codeOf c = Some 0)); [|exact Hset].
          apply recordSnapshot_keeps_settled; assumption. }
        destruct Hbefore as [Hset|([|j] & c' & Hj & Hc' & Hcode')].
        * left. apply Hkeep, Hset.
        * injection Hc' as <-. left. rewrite Ptr.
          destruct (decide (codeOf c = Some 0)); [|contradiction].
          apply recordSnapshot_settles; assumption.
        * right. exists j, c'. split; [lia|]. split; assumption. }
  destruct Hmain as (Hprops & Hall). split; [exact Hprops|].
  intros i c Hi Hcode. destruct (Hall i c Hi Hcode) as (r & b & Hr & Hb & Htot & Hquiet).
  exists r, b. split; [exact Hr|]. split; [exact Hb|]. split; [exact Htot|].
  intros j c' Hj Hc' Hcode'. apply Hquiet. right. eauto.
Qed.

Lemma later_cycles_record_no_change_witness :
  exists r b,
    (runCycles Schedules.values Schedules.cycles Schedules.loaded).2 !! 2%nat = Some r
    /\ bids r = Some b
    /\ totalTracked (updateSnapshot b) = 1
    /\ newChanges (updateSnapshot b) = 0.
Proof.
  assert (Hwf : wellFormed (bidTracker Schedules.loaded)).
  { intros id ph H. cbn in H. rewrite lookup_empty in H. discriminate. }
  assert (Hne : currentProperties (bidTracker Schedules.loaded) <> []).
  { vm_compute. discriminate. }
  assert (Hnd : NoDup (auctionId <$> currentProperties (bidTracker Schedules.loaded))).
  { vm_compute. apply NoDup_singleton. }
  assert (Hplain : plainIds (currentProperties (bidTracker Schedules.loaded))).
  { vm_compute. repeat constructor. }
  destruct (later_cycles_record_no_change Schedules.values Schedules.cycles Schedules.loaded
              (fun m => reflexivity _) Hwf Hne Hnd Hplain) as (_ & Hall).
  destruct (Hall 2%nat _ eq_refl eq_refl) as (r & b & Hr & Hb & Htot & Hquiet).
  exists r, b. split; [exact Hr|]. split; [exact Hb|]. split; [exact Htot|].
  apply (Hquiet 1%nat _ ltac:(lia) eq_refl eq_refl).
Defined.

(** X17.  A scheduler whose tracker holds no listing, as after an
    initialisation that found no readable [properties.json] or only bundles,
    never completes a cycle: each one is stored as failed and without a bid
    update, because reading [totalTracked] of the missing snapshot raises a
    [TypeError] once the scraper has exited with code 0.  The tracker and
    [lastFullUpdate] stay as they were. *)
Theorem no_listings_no_successful_cycle objectValues (cs : list cycle) (sch : scheduler) :
  currentProperties (bidTracker sch) = [] ->
  let out := runCycles objectValues cs sch in
  bidTracker out.1 = bidTracker sch
  /\ lastFullUpdate out.1 = lastFullUpdate sch
  /\ Forall2 (fun c r =>
               success r = false /\ bids r = None
               /\ (codeOf c = Some 0 -> error r = Some TypeErrorRaised))
       cs out.2.
Proof.
  intros Hempty out. subst out. revert sch Hempty.
  induction cs as [|c rest IH]; intros sch Hempty.
  - repeat split. constructor.
  - rewrite runCycles_cons. cbn [fst snd].
    assert (Hstep : bidTracker (perform objectValues sch c).1 = bidTracker sch
              /\ lastFullUpdate (perform objectValues sch c).1 = lastFullUpdate sch
              /\ success (perform objectValues sch c).2 = false
              /\ bids (perform objectValues sch c).2 = None
              /\ (codeOf c = Some 0 -> error (perform objectValues sch c).2 = Some TypeErrorRaised)).
    { destruct (decide (codeOf c = Some 0)) as [E|E].
      - rewrite (perform_raises objectValues sch c (bidTracker sch) E)
          by (apply updateBidTracking_empty; exact Hempty).
        repeat split.
      - rewrite (perform_failed_scrape objectValues sch c E). repeat split. contradiction. }
    destruct Hstep as (Ht & Hl & Hs & Hb & He).
    destruct (IH (perform objectValues sch c).1) as (IHt & IHl & IHall).
    { rewrite Ht. exact Hempty. }
    split; [rewrite IHt; exact Ht|]. split; [rewrite IHl; exact Hl|].
    constructor; [|exact IHall]. repeat split; assumption.
Qed.

Lemma no_listings_no_successful_cycle_witness :
  lastFullUpdate (runCycles Schedules.values Schedules.cycles Schedules.fresh).1 = None
  /\ Forall (fun r => success r = false)
       (runCycles Schedules.values Schedules.cycles Schedules.fresh).2.
Proof.
  destruct (no_listings_no_successful_cycle Schedules.values Schedules.cycles Schedules.fresh
              eq_refl) as (_ & Hl & Hall).
  split; [exact Hl|].
  eapply Forall2_Forall_r; [exact Hall|].
  apply Forall_true. intros c r (Hs & _). exact Hs.
Defined.

End CycleFacts.
